(** * nap_msg: the JSON-RPC dispatcher and the TC3 request signer

    A shallow embedding of [src/nap_msg/rpc.py] and [src/nap_msg/asr.py].

    - [Py] holds the Python values the two modules manipulate: the values
      produced by [json.loads], truthiness, [dict.get], [str.strip] and
      exceptions.
    - [Rpc] embeds [RpcServer]: the subscription handle, the handlers and the
      [serve] loop, as state-passing functions over the server state.
    - [Sha256] is SHA-256 and HMAC (the [hashlib] and [hmac] calls of asr.py).
    - [Asr] embeds [_build_tc3_headers] and [sentence_recognize].

    A Python [str] is represented by the Rocq string of its UTF-8 bytes, so
    that [s.encode("utf-8")] is the identity and [+] is [String.append].
    Writing a line to [sys.stdout] is taken to succeed.  What lives outside
    the two modules (the relay client, the watcher, [json.loads],
    [json.dumps], the HTTP client, the environment and the clock) is a
    parameter of the definitions, gathered in the records [Rpc.world] and
    [Asr.world]. *)

From Stdlib Require Import ZArith String Ascii List Lia DecimalString.
From Stdlib.Strings Require Import Byte.
From stdpp Require Import gmap strings list fin_maps.

#[local] Set Warnings "-register-all".
#[local] Open Scope string_scope.
#[local] Open Scope Z_scope.
#[local] Open Scope list_scope.

(* ===================================================================== *)
(** * Python values *)
(* ===================================================================== *)

Module Py.

(** A Python [float]: [mantissa * 2 ^ exponent], an infinity or NaN
    ([json.loads] accepts [Infinity] and [NaN]). *)
Inductive float :=
| Finite (mantissa exponent : Z)
| Infinite (negative : bool)
| NaN.

(** [bool(f)]: everything but zero. *)
Definition float_nonzero (f : float) : bool :=
  match f with
  | Finite mantissa _ => negb (mantissa =? 0)%Z
  | _ => true
  end.

(** What [json.loads] returns; Python's [None] is [JNull]. *)
Inductive json : Type :=
| JNull
| JBool (b : bool)
| JInt (n : Z)
| JFloat (f : float)
| JStr (s : string)
| JList (l : list json)
| JDict (d : gmap string json).

(** The exception classes that occur in rpc.py and asr.py.  [ExternalError]
    stands for any [Exception] subclass raised by a collaborator (relay
    client, HTTP client, a finished watcher).  [CancelledError] derives from
    [BaseException], not from [Exception]. *)
Inductive exn_class :=
| AttributeError | ValueError | RuntimeError | NameError | TypeError
| OverflowError | OSError
| ExternalError | CancelledError.

(** An exception object: its class and [str(exc)]. *)
Record exn := Exn { exn_cls : exn_class; exn_str : string }.

Inductive result (A : Type) : Type :=
| Ok (a : A)
| Raise (e : exn).
Arguments Ok {A} a.
Arguments Raise {A} e.

(** [isinstance(e, Exception)]: what [except Exception] catches. *)
Definition is_Exception (e : exn) : bool :=
  match exn_cls e with
  | CancelledError => false
  | _ => true
  end.

(** [bool(v)] *)
Definition truthy (v : json) : bool :=
  match v with
  | JNull => false
  | JBool b => b
  | JInt n => negb (n =? 0)%Z
  | JFloat f => float_nonzero f
  | JStr s => negb (String.eqb s "")
  | JList l => match l with [] => false | _ :: _ => true end
  | JDict d => negb (bool_decide (d = ∅))
  end.

(** [a or b], both operands already evaluated. *)
Definition or_ (a b : json) : json := if truthy a then a else b.

(** [v == s] for a string literal [s]. *)
Definition eq_str (v : json) (s : string) : bool :=
  match v with
  | JStr s' => String.eqb s' s
  | _ => false
  end.

(** [type(v).__name__] *)
Definition type_name (v : json) : string :=
  match v with
  | JNull => "NoneType"
  | JBool _ => "bool"
  | JInt _ => "int"
  | JFloat _ => "float"
  | JStr _ => "str"
  | JList _ => "list"
  | JDict _ => "dict"
  end.

(** [v.get(k)]: the value or [None] on a dict, [AttributeError] on
    everything else [json.loads] can return. *)
Definition get (v : json) (k : string) : result json :=
  match v with
  | JDict d => Ok (default JNull (d !! k))
  | _ => Raise (Exn AttributeError
                  ("'" +:+ type_name v +:+ "' object has no attribute 'get'"))
  end.

(** The newline character, as a string. *)
Definition nl : string := String (ascii_of_N 10) EmptyString.

(** ** [str.strip()]

    Whitespace is what [str.isspace] accepts.  On the UTF-8 bytes these are
    the single bytes 09-0D, 1C-1F and 20 and the encodings of U+0085, U+00A0,
    U+1680, U+2000-U+200A, U+2028, U+2029, U+202F, U+205F and U+3000. *)

Definition is_space1 (c : ascii) : bool :=
  let n := N_of_ascii c in
  ((9 <=? n) && (n <=? 13) || (28 <=? n) && (n <=? 32))%N.

(** A whitespace character encoded on two or three bytes. *)
Definition is_space2 (a b : ascii) : bool :=
  let a := N_of_ascii a in
  let b := N_of_ascii b in
  ((a =? 194) && ((b =? 133) || (b =? 160)))%N.

Definition is_space3 (a b c : ascii) : bool :=
  let a := N_of_ascii a in
  let b := N_of_ascii b in
  let c := N_of_ascii c in
  ((a =? 225) && (b =? 154) && (c =? 128)
   || (a =? 226) && (b =? 128)
      && ((128 <=? c) && (c <=? 138) || (c =? 168) || (c =? 169) || (c =? 175))
   || (a =? 226) && (b =? 129) && (c =? 159)
   || (a =? 227) && (b =? 128) && (c =? 128))%N.

Fixpoint lstrip (s : string) : string :=
  match s with
  | String a r =>
      if is_space1 a then lstrip r
      else match r with
           | String b r' =>
               if is_space2 a b then lstrip r'
               else match r' with
                    | String c r'' => if is_space3 a b c then lstrip r'' else s
                    | EmptyString => s
                    end
           | EmptyString => s
           end
  | EmptyString => s
  end.

Fixpoint rev_string (s acc : string) : string :=
  match s with
  | EmptyString => acc
  | String a r => rev_string r (String a acc)
  end.

(** [lstrip] on the reversed string: the multi-byte encodings are matched
    last byte first. *)
Fixpoint lstrip_rev (s : string) : string :=
  match s with
  | String a r =>
      if is_space1 a then lstrip_rev r
      else match r with
           | String b r' =>
               if is_space2 b a then lstrip_rev r'
               else match r' with
                    | String c r'' =>
                        if is_space3 c b a then lstrip_rev r'' else s
                    | EmptyString => s
                    end
           | EmptyString => s
           end
  | EmptyString => s
  end.

Definition rstrip (s : string) : string :=
  rev_string (lstrip_rev (rev_string s "")) "".

Definition strip (s : string) : string := rstrip (lstrip s).

(** [not s] for a [str] *)
Definition str_empty (s : string) : bool := String.eqb s "".

(** [os.environ]; [os.getenv(k)] is [None] when the variable is unset. *)
Definition getenv (environ : gmap string string) (k : string) : json :=
  match environ !! k with
  | Some v => JStr v
  | None => JNull
  end.

(** [os.getenv(k, default)] *)
Definition getenv_default (environ : gmap string string) (k d : string)
  : string :=
  default d (environ !! k).

End Py.

(* ===================================================================== *)
(** * rpc.py: the dispatcher *)
(* ===================================================================== *)

Module Rpc.
Import Py.

(** ** The event loop's tasks

    [asyncio.create_task(watch_forever(...))] yields a task.  A task is
    [Running] until its coroutine ends: by returning ([Finished]), by an
    exception ([Faulted], with [str(exc)]) or by cancellation ([Cancelled]). *)
Inductive task_status :=
| Running
| Finished
| Faulted (msg : string)
| Cancelled.

(** The keyword arguments [watch_forever] is started with. *)
Record watch_args := WatchArgs {
  url : json;
  from_group : json;
  from_user : json;
  ignore_prefixes : json;
  asr_enabled : bool
}.

Record task := Task {
  task_args : watch_args;
  task_state : task_status
}.

(** The dispatcher's state: the attribute [self._watch_task], the tasks of
    the event loop that the attribute no longer refers to, and the lines
    written to [sys.stdout] so far (oldest first), each line being the object
    handed to [json.dumps]. *)
Record server := Server {
  _watch_task : option task;
  detached : list task;
  stdout : list json
}.

(** [RpcServer.__init__] *)
Definition __init__ : server :=
  {| _watch_task := None; detached := []; stdout := [] |}.

(** ** Collaborators outside rpc.py

    What a call into client.py returns: a value, or an exception (some
    subclass of [Exception]) with its [str]. *)
Inductive outcome (A : Type) : Type :=
| Returns (a : A)
| Fails (msg : string).
Arguments Returns {A} a.
Arguments Fails {A} msg.

Record client := Client {
  client_url : json;
  client_timeout : json
}.

(** Modelled from the spec: messages.py is not part of the sources; a
    [Command] is a type tag with a payload mapping, and the only tag rpc.py
    names is the group forward message. *)
Inductive CommandType := SEND_GROUP_FORWARD_MSG.

Record Command := mkCommand {
  command_type : CommandType;
  command_payload : json
}.

(** Everything [RpcServer] reads or calls that lives outside rpc.py: the
    process environment, the constant of watch.py, the builtin [str], the
    relay client of client.py and [json.loads]. *)
Record world := World {
  environ : gmap string string;
  DEFAULT_IGNORE_PREFIXES : json;
  str : json -> string;
  NapcatRelayClient : json -> json -> outcome client;
  send_command : client -> Command -> outcome json;
  send_group_message : client -> json -> json -> outcome json;
  send_private_message : client -> json -> json -> outcome json;
  _event_to_receive_params : json -> json;
  json_loads : string -> option json
}.

(** ** State and exceptions *)

Definition M (A : Type) : Type := server -> server * result A.

Definition ret {A} (a : A) : M A := fun st => (st, Ok a).

Definition raise {A} (e : exn) : M A := fun st => (st, Raise e).

Definition bind {A B} (c : M A) (k : A -> M B) : M B :=
  fun st =>
    match c st with
    | (st', Ok a) => k a st'
    | (st', Raise e) => (st', Raise e)
    end.

Notation "x <- c ;; k" := (bind c (fun x => k))
  (at level 90, c at next level, right associativity).

(** A pure computation that may raise. *)
Definition lift {A} (r : result A) : M A := fun st => (st, r).

(** An awaited collaborator call. *)
Definition await {A} (o : outcome A) : M A :=
  match o with
  | Returns a => ret a
  | Fails msg => raise (Exn ExternalError msg)
  end.

(** [try: body  except Exception as exc: handler exc] *)
Definition try_except {A} (body : M A) (handler : exn -> M A) : M A :=
  fun st =>
    match body st with
    | (st', Raise e) => if is_Exception e then handler e st' else (st', Raise e)
    | r => r
    end.

(** ** Output

    [_write_json] over an output that accepts every line: the object is
    appended.  The module [Strict] follows the handlers over an output that
    can refuse a line. *)

Definition _write_json (obj : json) : M unit :=
  fun st =>
    ({| _watch_task := _watch_task st;
        detached := detached st;
        stdout := stdout st ++ [obj] |}, Ok tt).

Definition is_None (v : json) : bool :=
  match v with JNull => true | _ => false end.

Definition _write_result (req_id result : json) : M unit :=
  if is_None req_id then ret tt
  else _write_json
         (JDict (list_to_map
                   [("jsonrpc", JStr "2.0"); ("id", req_id); ("result", result)])).

Definition _write_error (req_id : json) (code : Z) (message : string) : M unit :=
  if is_None req_id then ret tt
  else
    let error_obj :=
      JDict (list_to_map [("code", JInt code); ("message", JStr message)]) in
    _write_json
      (JDict (list_to_map
                [("jsonrpc", JStr "2.0"); ("id", req_id); ("error", error_obj)])).

(** ** The subscription handle *)

(** [task.cancel()] followed by [await task].

    A task that is already done is not affected by [cancel]; awaiting it
    returns, or raises what the task ended with.

    Modelled from the spec: watch.py is not part of the sources; a running
    watcher observes the cancellation at its next suspension point and ends
    cancelled, so that awaiting it raises [CancelledError]. *)
Definition cancel_and_await (t : task) : task * result unit :=
  match task_state t with
  | Running =>
      ({| task_args := task_args t; task_state := Cancelled |},
       Raise (Exn CancelledError ""))
  | Cancelled => (t, Raise (Exn CancelledError ""))
  | Finished => (t, Ok tt)
  | Faulted msg => (t, Raise (Exn ExternalError msg))
  end.

Definition _stop_watch : M unit :=
  fun st =>
    match _watch_task st with
    | None => (st, Ok tt)
    | Some task =>
        let (task', awaited) := cancel_and_await task in
        let st' := {| _watch_task := None;
                      detached := detached st ++ [task'];
                      stdout := stdout st |} in
        match awaited with
        | Ok _ => (st', Ok tt)
        | Raise e =>
            match exn_cls e with
            | CancelledError => (st', Ok tt)
            | _ => (st', Raise e)
            end
        end
    end.

(** [self._watch_task = asyncio.create_task(watch_forever(...))]: the new
    task runs; a task the attribute referred to before stays in the loop. *)
Definition create_task (args : watch_args) : M unit :=
  fun st =>
    ({| _watch_task := Some {| task_args := args; task_state := Running |};
        detached := match _watch_task st with
                    | Some old => detached st ++ [old]
                    | None => detached st
                    end;
        stdout := stdout st |}, Ok tt).

(** The channel [_handle_send] works with: the one given, or the one
    inferred from the ids when none is given
    ([if not channel: if group_id: ... elif user_id: ...]). *)
Definition infer_channel (channel group_id user_id : json) : json :=
  if negb (truthy channel) then
    if truthy group_id then JStr "group"
    else if truthy user_id then JStr "private"
    else channel
  else channel.

Section Handlers.

Variable w : world.

Definition _asr_enabled : bool :=
  negb (str_empty (strip (getenv_default (environ w) "TENCENT_SECRET_ID" "")))
  && negb (str_empty (strip (getenv_default (environ w) "TENCENT_SECRET_KEY" ""))).

Definition _handle_initialize (req_id : json) : M unit :=
  let result :=
    JDict (list_to_map
             [("capabilities",
               JDict (list_to_map [("streaming", JBool true);
                                   ("attachments", JBool true)]))]) in
  _write_result req_id result.

Definition _handle_send (params req_id : json) : M unit :=
  channel0 <- lift (get params "channel") ;;
  type_ <- lift (get params "type") ;;
  let channel := or_ channel0 type_ in
  group_id <- lift (get params "group_id") ;;
  user_id <- lift (get params "user_id") ;;
  timeout <- lift (get params "timeout") ;;
  napcat_url <- lift (get params "napcat_url") ;;
  client <- await (NapcatRelayClient w napcat_url timeout) ;;
  let channel := infer_channel channel group_id user_id in
  sent <- try_except
    (result <-
       (if eq_str channel "group_forward" then
          messages0 <- lift (get params "messages") ;;
          nodes <- lift (get params "nodes") ;;
          let messages := or_ messages0 nodes in
          if negb (truthy messages) then
            raise (Exn ValueError "messages is required for group_forward")
          else
            let payload :=
              JDict (list_to_map [("group_id", JStr (str w group_id));
                                  ("messages", messages)]) in
            let command := mkCommand SEND_GROUP_FORWARD_MSG payload in
            await (send_command w client command)
        else if eq_str channel "group" then
          message <- lift (get params "message") ;;
          if negb (truthy message) then
            raise (Exn ValueError "message is required for group send")
          else await (send_group_message w client group_id message)
        else if eq_str channel "private" then
          message <- lift (get params "message") ;;
          if negb (truthy message) then
            raise (Exn ValueError "message is required for private send")
          else await (send_private_message w client user_id message)
        else
          raise (Exn ValueError
                   "Unsupported channel; use group, group_forward, or private")) ;;
     ret (Some result))
    (fun exc =>
       _ <- _write_error req_id (-32000) (exn_str exc) ;;
       ret None) ;;
  match sent with
  | Some result => _write_result req_id result
  | None => ret tt
  end.

Definition _handle_message_send (params req_id : json) : M unit :=
  text <- lift (get params "text") ;;
  to0 <- lift (get params "to") ;;
  chatId <- lift (get params "chatId") ;;
  chat_id <- lift (get params "chat_id") ;;
  let to := or_ (or_ to0 chatId) chat_id in
  is_group <- lift (get params "isGroup") ;;
  if negb (truthy to) || is_None text then
    _write_error req_id (-32602) "to/chatId and text are required"
  else
    let channel := if truthy is_group then "group" else "private" in
    let message :=
      JList [JDict (list_to_map
                      [("type", JStr "text");
                       ("data", JDict (list_to_map [("text", text)]))])] in
    napcat_url <- lift (get params "napcat_url") ;;
    timeout <- lift (get params "timeout") ;;
    _handle_send
      (JDict (list_to_map
                [("channel", JStr channel);
                 ("group_id", if truthy is_group then to else JNull);
                 ("user_id", if truthy is_group then JNull else to);
                 ("message", message);
                 ("napcat_url", napcat_url);
                 ("timeout", timeout)]))
      req_id.

Definition _handle_subscribe (params req_id : json) : M unit :=
  _ <- _stop_watch ;;
  napcat_url <- lift (get params "napcat_url") ;;
  let url := or_ napcat_url (getenv (environ w) "NAPCAT_URL") in
  if negb (truthy url) then
    _write_error req_id (-32000) "NAPCAT_URL is required"
  else
    from_group <- lift (get params "from_group") ;;
    from_user <- lift (get params "from_user") ;;
    ignore_prefixes0 <- lift (get params "ignore_prefixes") ;;
    let ignore_prefixes := or_ ignore_prefixes0 (DEFAULT_IGNORE_PREFIXES w) in
    let asr_enabled := _asr_enabled in
    _ <- create_task
           {| url := url;
              from_group := from_group;
              from_user := from_user;
              ignore_prefixes := ignore_prefixes;
              asr_enabled := asr_enabled |} ;;
    _write_result req_id (JDict (list_to_map [("status", JStr "subscribed")])).

Definition _handle_unsubscribe (req_id : json) : M unit :=
  _ <- _stop_watch ;;
  _write_result req_id (JDict (list_to_map [("status", JStr "unsubscribed")])).

Definition _handle_request (request : json) : M unit :=
  method <- lift (get request "method") ;;
  req_id <- lift (get request "id") ;;
  params0 <- lift (get request "params") ;;
  let params := or_ params0 (JDict ∅) in
  if eq_str method "initialize" then _handle_initialize req_id
  else if eq_str method "watch.subscribe" then _handle_subscribe params req_id
  else if eq_str method "watch.unsubscribe" then _handle_unsubscribe req_id
  else if eq_str method "message.send" then _handle_message_send params req_id
  else if eq_str method "send" then _handle_send params req_id
  else if eq_str method "chats.list" then _write_result req_id (JList [])
  else _write_error req_id (-32601) "Method not found".

Definition _emit_notification (event : json) : M unit :=
  let payload :=
    JDict (list_to_map
             [("jsonrpc", JStr "2.0"); ("method", JStr "message.receive");
              ("params", _event_to_receive_params w event)]) in
  _write_json payload.

(** The body of the loop of [serve] once a line has been parsed: the
    dispatch boundary.  The handler of the [try] evaluates
    [request.get("id")] itself. *)
Definition dispatch (request : json) : M unit :=
  try_except (_handle_request request)
    (fun exc =>
       req_id <- lift (get request "id") ;;
       _write_error req_id (-32000) (exn_str exc)).

(** [serve]: [stdin] is the sequence of lines [sys.stdin.readline] returns;
    at its end [readline] returns the empty string.  The result is [Ok]
    when the loop ends by [break], and the exception that leaves [serve]
    otherwise. *)
Fixpoint serve (stdin : list string) (st : server) : server * result unit :=
  match stdin with
  | [] => (st, Ok tt)
  | line :: rest =>
      if str_empty line then (st, Ok tt)
      else
        let line := strip line in
        if str_empty line then serve rest st
        else
          match json_loads w line with
          | None => serve rest st
          | Some request =>
              match dispatch request st with
              | (st', Ok _) => serve rest st'
              | (st', Raise e) => (st', Raise e)
              end
          end
  end.

End Handlers.

(** ** Executions

    The foreground loop and the watchers interleave at the suspension points
    of the loop.  An execution is a sequence of events, each atomic: a parsed
    request is dispatched, a running watcher forwards a gateway event, or a
    running watcher's coroutine ends on its own (by returning, or with an
    exception whose [str] is given).  A watcher is designated by its place:
    [None] for the task of [self._watch_task], [Some i] for the [i]-th
    detached task. *)
Inductive event :=
| Request (w : world) (request : json)
| Notify (which : option nat) (w : world) (gateway_event : json)
| WatcherEnds (which : option nat) (fault : option string).

Definition is_running (t : task) : bool :=
  match task_state t with
  | Running => true
  | _ => false
  end.

Definition task_at (which : option nat) (st : server) : option task :=
  match which with
  | None => _watch_task st
  | Some i => detached st !! i
  end.

Definition end_task (fault : option string) (t : task) : task :=
  {| task_args := task_args t;
     task_state := match fault with
                   | None => Finished
                   | Some msg => Faulted msg
                   end |}.

Definition set_task (which : option nat) (t : task) (st : server) : server :=
  match which with
  | None =>
      {| _watch_task := Some t; detached := detached st; stdout := stdout st |}
  | Some i =>
      {| _watch_task := _watch_task st;
         detached := <[i := t]> (detached st);
         stdout := stdout st |}
  end.

Definition step (ev : event) : M unit :=
  fun st =>
    match ev with
    | Request w request => dispatch w request st
    | Notify which w gateway_event =>
        match task_at which st with
        | Some t =>
            if is_running t then _emit_notification w gateway_event st
            else (st, Ok tt)
        | None => (st, Ok tt)
        end
    | WatcherEnds which fault =>
        match task_at which st with
        | Some t =>
            if is_running t then (set_task which (end_task fault t) st, Ok tt)
            else (st, Ok tt)
        | None => (st, Ok tt)
        end
    end.

(** An exception that leaves [dispatch] leaves [serve]: the execution stops. *)
Fixpoint run (evs : list event) : M unit :=
  fun st =>
    match evs with
    | [] => (st, Ok tt)
    | ev :: evs' =>
        match step ev st with
        | (st', Ok _) => run evs' st'
        | (st', Raise e) => (st', Raise e)
        end
    end.

(** The number of subscription tasks that are running. *)
Definition active (st : server) : nat :=
  (match _watch_task st with
   | Some t => if is_running t then 1 else 0
   | None => 0
   end + length (filter (fun t => is_running t = true) (detached st)))%nat.

(** ** The shape of what is written *)

Definition response_result (req_id result : json) : json :=
  JDict (list_to_map
           [("jsonrpc", JStr "2.0"); ("id", req_id); ("result", result)]).

Definition response_error (req_id : json) (code : Z) (message : string) : json :=
  JDict (list_to_map
           [("jsonrpc", JStr "2.0"); ("id", req_id);
            ("error",
             JDict (list_to_map
                      [("code", JInt code); ("message", JStr message)]))]).

(** [params.get(k)] on a dict of parameters. *)
Definition arg (p : gmap string json) (k : string) : json :=
  default JNull (p !! k).

(** A computation that writes nothing to [sys.stdout]. *)
Definition silent {A} (c : M A) : Prop :=
  forall st, stdout (c st).1 = stdout st.

(** The parameters of a [send] that the handler rejects: the list the
    channel requires is missing or empty, or the channel it works with is
    none of the three it knows. *)
Definition send_params_invalid (p : gmap string json) : Prop :=
  let channel :=
    infer_channel (or_ (arg p "channel") (arg p "type"))
                  (arg p "group_id") (arg p "user_id") in
  (eq_str channel "group_forward" = true
   /\ truthy (or_ (arg p "messages") (arg p "nodes")) = false)
  \/ ((eq_str channel "group" = true \/ eq_str channel "private" = true)
      /\ truthy (arg p "message") = false)
  \/ (eq_str channel "group_forward" = false
      /\ eq_str channel "group" = false
      /\ eq_str channel "private" = false).

(** The text of the [ValueError] that [_handle_send] raises on such
    parameters: the one of the branch its channel selects. *)
Definition rejection (p : gmap string json) : string :=
  let channel :=
    infer_channel (or_ (arg p "channel") (arg p "type"))
                  (arg p "group_id") (arg p "user_id") in
  if eq_str channel "group_forward" then "messages is required for group_forward"
  else if eq_str channel "group" then "message is required for group send"
  else if eq_str channel "private" then "message is required for private send"
  else "Unsupported channel; use group, group_forward, or private".

(** The code of an error Response. *)
Definition error_code (obj : json) : option Z :=
  match obj with
  | JDict d =>
      match d !! "error" with
      | Some (JDict e) =>
          match e !! "code" with
          | Some (JInt code) => Some code
          | _ => None
          end
      | _ => None
      end
  | _ => None
  end.

(** The parameters [_handle_message_send] hands to [_handle_send]. *)
Definition normalized (target text : json) (is_group : bool)
    (napcat_url timeout : json) : json :=
  JDict (list_to_map
           [("channel", JStr (if is_group then "group" else "private"));
            ("group_id", if is_group then target else JNull);
            ("user_id", if is_group then JNull else target);
            ("message",
             JList [JDict (list_to_map
                             [("type", JStr "text");
                              ("data", JDict (list_to_map [("text", text)]))])]);
            ("napcat_url", napcat_url);
            ("timeout", timeout)]).

(** The state of the watcher [self._watch_task] refers to, if any. *)
Definition watcher_state (st : server) : option task_status :=
  task_state <$> _watch_task st.

(** [self._watch_task] holds a task that has ended with an exception. *)
Definition watcher_faulted (st : server) : bool :=
  match watcher_state st with
  | Some (Faulted _) => true
  | _ => false
  end.

(** The tasks a state knows of: the one of the handle and the detached
    ones.  [trans P Q c]: started where the tasks satisfy [P], the computation
    [c] leaves tasks that satisfy [Q], whether it returns or raises. *)
Definition tasks_of (st : server) : option task * list task :=
  (_watch_task st, detached st).

Definition trans {A} (P Q : option task * list task -> Prop) (c : M A) : Prop :=
  forall st, P (tasks_of st) -> Q (tasks_of (c st).1).

(** No detached task is running: whatever runs is the task of the handle. *)
Definition only_handle_runs (ts : option task * list task) : Prop :=
  Forall (fun t => is_running t = false) ts.2.

(** Moreover the handle is empty: nothing runs. *)
Definition nothing_runs (ts : option task * list task) : Prop :=
  ts.1 = None /\ only_handle_runs ts.

(** Moreover the handle is empty or holds a running task. *)
Definition handle_sound (ts : option task * list task) : Prop :=
  (ts.1 = None \/ exists args, ts.1 = Some (Task args Running))
  /\ only_handle_runs ts.

(** The arguments a [watch.subscribe] with parameters [p] starts its
    watcher with. *)
Definition subscribe_args (w : world) (p : gmap string json) : watch_args :=
  {| url := or_ (arg p "napcat_url") (getenv (environ w) "NAPCAT_URL");
     from_group := arg p "from_group";
     from_user := arg p "from_user";
     ignore_prefixes := or_ (arg p "ignore_prefixes") (DEFAULT_IGNORE_PREFIXES w);
     asr_enabled := _asr_enabled w |}.

(** A computation that raises nothing but [Exception]s. *)
Definition raises_exceptions {A} (c : M A) : Prop :=
  forall st e, (c st).2 = Raise e -> is_Exception e = true.

End Rpc.

(* ===================================================================== *)
(** * SHA-256 and HMAC: [hashlib.sha256] and [hmac.new(..., hashlib.sha256)] *)
(* ===================================================================== *)

Module Sha256.

(** A Python [bytes] object. *)
Definition bytes := list byte.

(** 32-bit words are integers in [0, 2^32); sums wrap around. *)
Definition wrap (x : Z) : Z := x mod 4294967296.
Definition add32 (x y : Z) : Z := wrap (x + y).
Definition rotr (n x : Z) : Z :=
  wrap (Z.lor (Z.shiftr x n) (Z.shiftl x (32 - n))).
Definition shr (n x : Z) : Z := Z.shiftr x n.
Definition not32 (x : Z) : Z := Z.lxor x 4294967295.

Definition Ch (x y z : Z) : Z := Z.lxor (Z.land x y) (Z.land (not32 x) z).
Definition Maj (x y z : Z) : Z :=
  Z.lxor (Z.lxor (Z.land x y) (Z.land x z)) (Z.land y z).
Definition Sigma0 (x : Z) : Z := Z.lxor (Z.lxor (rotr 2 x) (rotr 13 x)) (rotr 22 x).
Definition Sigma1 (x : Z) : Z := Z.lxor (Z.lxor (rotr 6 x) (rotr 11 x)) (rotr 25 x).
Definition sigma0 (x : Z) : Z := Z.lxor (Z.lxor (rotr 7 x) (rotr 18 x)) (shr 3 x).
Definition sigma1 (x : Z) : Z := Z.lxor (Z.lxor (rotr 17 x) (rotr 19 x)) (shr 10 x).

(** The constants of FIPS 180-4 are fractional parts of roots of the first
    primes: the first 32 bits of the fraction of the cube root for the 64
    round constants, of the square root for the 8 initial hash words. *)
Definition is_prime (n : nat) : bool :=
  forallb (fun d => negb (Nat.eqb (n mod d) 0)) (seq 2 (n - 2)).

Definition primes : list Z :=
  map Z.of_nat (filter (fun n => is_prime n = true) (seq 2 310)).

(** The largest [r] below [2^bits] with [r^k <= n], found bit by bit. *)
Fixpoint int_root (k : Z) (bits : nat) (n r : Z) : Z :=
  match bits with
  | O => r
  | S b =>
      let r' := r + 2 ^ Z.of_nat b in
      int_root k b n (if (r' ^ k <=? n)%Z then r' else r)
  end.

Definition root_fraction (k p : Z) : Z :=
  wrap (int_root k 40 (p * 2 ^ (32 * k)) 0).

Definition K : list Z := map (root_fraction 3) primes.

Definition H0 : list Z := map (root_fraction 2) (firstn 8 primes).

(** Big-endian bytes of [x], [n] of them. *)
Fixpoint be_bytes (n : nat) (x : Z) : list Z :=
  match n with
  | O => []
  | S n' => Z.shiftr x (8 * Z.of_nat n') mod 256 :: be_bytes n' x
  end.

Definition pad (msg : list Z) : list Z :=
  let len := Z.of_nat (length msg) in
  (msg ++ [128] ++ repeat 0 (Z.to_nat ((55 - len) mod 64)) ++ be_bytes 8 (8 * len))%list.

Fixpoint be_words (fuel : nat) (bs : list Z) : list Z :=
  match fuel, bs with
  | S fuel', b0 :: b1 :: b2 :: b3 :: rest =>
      (b0 * 16777216 + b1 * 65536 + b2 * 256 + b3) :: be_words fuel' rest
  | _, _ => []
  end.

(** The schedule is kept newest word first. *)
Fixpoint extend (n : nat) (ws : list Z) : list Z :=
  match n with
  | O => ws
  | S n' =>
      let w := add32 (add32 (sigma1 (nth 1 ws 0)) (nth 6 ws 0))
                     (add32 (sigma0 (nth 14 ws 0)) (nth 15 ws 0)) in
      extend n' (w :: ws)
  end.

Definition schedule (block : list Z) : list Z := rev (extend 48 (rev block)).

Definition round (s : list Z) (kw : Z * Z) : list Z :=
  match s with
  | [a; b; c; d; e; f; g; h] =>
      let t1 := add32 (add32 (add32 h (Sigma1 e)) (add32 (Ch e f g) (fst kw))) (snd kw) in
      let t2 := add32 (Sigma0 a) (Maj a b c) in
      [add32 t1 t2; a; b; c; add32 d t1; e; f; g]
  | _ => s
  end.

Fixpoint zip_add (xs ys : list Z) : list Z :=
  match xs, ys with
  | x :: xs', y :: ys' => add32 x y :: zip_add xs' ys'
  | _, _ => []
  end.

Definition compress (h : list Z) (block : list Z) : list Z :=
  zip_add h (fold_left round (combine K (schedule block)) h).

Fixpoint blocks (fuel : nat) (ws : list Z) : list (list Z) :=
  match fuel with
  | O => []
  | S fuel' =>
      match ws with
      | [] => []
      | _ => firstn 16 ws :: blocks fuel' (skipn 16 ws)
      end
  end.

Definition byte_to_Z (b : byte) : Z := Z.of_N (Byte.to_N b).
Definition byte_of_Z (z : Z) : byte :=
  match Byte.of_N (Z.to_N (z mod 256)) with
  | Some b => b
  | None => x00
  end.

Definition sha256 (msg : bytes) : bytes :=
  let padded := pad (map byte_to_Z msg) in
  let ws := be_words (length padded) padded in
  let h := fold_left compress (blocks (length ws) ws) H0 in
  map byte_of_Z (flat_map (be_bytes 4) h).

Definition xor_pad (p : Z) (key : list Z) : list byte :=
  map (fun k => byte_of_Z (Z.lxor k p)) key.

Definition hmac_sha256 (key msg : bytes) : bytes :=
  let key := if (64 <? Z.of_nat (length key))%Z then sha256 key else key in
  let k := (map byte_to_Z key ++ repeat 0 (64 - length key)%nat)%list in
  sha256 (xor_pad 92 k ++ sha256 (xor_pad 54 k ++ msg))%list.

Definition hex_digit (n : Z) : ascii :=
  ascii_of_N (Z.to_N (if (n <? 10)%Z then 48 + n else 87 + n)).

Fixpoint hex (bs : bytes) : string :=
  match bs with
  | [] => EmptyString
  | b :: rest =>
      let z := byte_to_Z b in
      String (hex_digit (z / 16)) (String (hex_digit (z mod 16)) (hex rest))
  end.

End Sha256.

(* ===================================================================== *)
(** * asr.py: the TC3 signer and the speech-recognition call *)
(* ===================================================================== *)

Module Asr.
Import Py Sha256.

(** [s.encode("utf-8")] and [b.decode("utf-8")] *)
Definition encode (s : string) : bytes := list_byte_of_string s.
Definition decode (b : bytes) : string := string_of_list_byte b.

(** [str(n)] for an [int] *)
Definition str_int (n : Z) : string := NilZero.string_of_int (Z.to_int n).

(** [sep.join(parts)] *)
Definition join (sep : string) (parts : list string) : string :=
  String.concat sep parts.

(** ** [datetime.utcfromtimestamp(timestamp).strftime("%Y-%m-%d")]

    The civil date of a day count from 1970-01-01 in the proleptic Gregorian
    calendar, by 400-year eras starting on 1 March. *)
Definition civil_from_days (days : Z) : Z * Z * Z :=
  let z := days + 719468 in
  let era := z / 146097 in
  let doe := z - era * 146097 in
  let yoe := (doe - doe / 1460 + doe / 36524 - doe / 146096) / 365 in
  let y := yoe + era * 400 in
  let doy := doe - (365 * yoe + yoe / 4 - yoe / 100) in
  let mp := (5 * doy + 2) / 153 in
  let d := doy - (153 * mp + 2) / 5 + 1 in
  let m := if (mp <? 10)%Z then mp + 3 else mp - 9 in
  (if (m <=? 2)%Z then y + 1 else y, m, d).

(** The arithmetic of a C [int]: the value modulo 2^32, between -2^31 and
    2^31 - 1. *)
Definition wrap_int (n : Z) : Z :=
  (n + 2147483648) mod 4294967296 - 2147483648.

(** [utcfromtimestamp], on a platform whose [time_t] has 64 bits: the
    timestamp is converted to [time_t] ([OverflowError] outside), [gmtime]
    breaks it down ([OSError] when the year, counted from 1900, does not fit
    the [int] field [tm_year]), and the [datetime] is built from
    [tm_year + 1900], computed as an [int]; a [datetime] holds a year between
    [MINYEAR = 1] and [MAXYEAR = 9999] ([ValueError] outside). *)
Definition utcfromtimestamp (timestamp : Z) : result (Z * Z * Z) :=
  if ((timestamp <? -9223372036854775808)
      || (9223372036854775807 <? timestamp))%Z then
    Raise (Exn OverflowError "timestamp out of range for platform time_t")
  else
    let '(y, m, d) := civil_from_days (timestamp / 86400) in
    let tm_year := y - 1900 in
    if ((tm_year <? -2147483648) || (2147483647 <? tm_year))%Z then
      Raise (Exn OSError "[Errno 75] Value too large for defined data type")
    else
      let year := wrap_int (tm_year + 1900) in
      if ((year <? 1) || (9999 <? year))%Z then
        Raise (Exn ValueError ("year " +:+ str_int year +:+ " is out of range"))
      else Ok (year, m, d).

(** [%m] and [%d]: two digits. *)
Definition pad2 (n : Z) : string :=
  if (n <? 10)%Z then "0" +:+ str_int n else str_int n.

(** [%Y-%m-%d]; the C library writes the year of [%Y] without padding. *)
Definition strftime_Ymd (date : Z * Z * Z) : string :=
  let '(y, m, d) := date in
  str_int y +:+ "-" +:+ pad2 m +:+ "-" +:+ pad2 d.

(** ** The signer *)

Definition _hmac_sha256 (key : bytes) (msg : string) : bytes :=
  hmac_sha256 key (encode msg).

(** [if region:] for an [Optional[str]] *)
Definition region_given (region : option string) : bool :=
  match region with
  | Some r => negb (str_empty r)
  | None => false
  end.

Definition _build_tc3_headers (body : bytes) (timestamp : Z)
    (secret_id secret_key : string) (region : option string)
  : result (gmap string string) :=
  match utcfromtimestamp timestamp with
  | Raise e => Raise e
  | Ok dt =>
      let date := strftime_Ymd dt in
      let payload_hash := hex (sha256 body) in
      let canonical_request :=
        join nl
          ["POST";
           "/";
           "";
           "content-type:application/json; charset=utf-8";
           "host:asr.tencentcloudapi.com";
           "";
           "content-type;host";
           payload_hash] in
      let credential_scope := date +:+ "/asr/tc3_request" in
      let string_to_sign :=
        join nl
          ["TC3-HMAC-SHA256";
           str_int timestamp;
           credential_scope;
           hex (sha256 (encode canonical_request))] in
      let secret_date := _hmac_sha256 (encode ("TC3" +:+ secret_key)) date in
      let secret_service := _hmac_sha256 secret_date "asr" in
      let secret_signing := _hmac_sha256 secret_service "tc3_request" in
      let signature :=
        hex (hmac_sha256 secret_signing (encode string_to_sign)) in
      let authorization :=
        ("TC3-HMAC-SHA256 Credential=" +:+ secret_id +:+ "/"
           +:+ credential_scope +:+ ", ")
        +:+ ("SignedHeaders=content-type;host, Signature=" +:+ signature) in
      let headers : gmap string string :=
        list_to_map
          [("Authorization", authorization);
           ("Content-Type", "application/json; charset=utf-8");
           ("Host", "asr.tencentcloudapi.com");
           ("X-TC-Action", "SentenceRecognition");
           ("X-TC-Version", "2019-06-14");
           ("X-TC-Timestamp", str_int timestamp);
           ("X-TC-RequestClient", "maid")] in
      Ok (if region_given region then <["X-TC-Region" := default "" region]> headers
          else headers)
  end.

(** ** [base64.b64encode(data).decode("utf-8")] *)

Definition b64_alphabet : string :=
  "ABCDEFGHIJKLMNOPQRSTUVWXYZabcdefghijklmnopqrstuvwxyz0123456789+/".

Definition b64_char (n : Z) : string :=
  match String.get (Z.to_nat n) b64_alphabet with
  | Some c => String c EmptyString
  | None => "="
  end.

Fixpoint b64_of (bs : list Z) : string :=
  match bs with
  | [] => ""
  | [a] => b64_char (a / 4) +:+ b64_char (a mod 4 * 16) +:+ "=="
  | [a; b] =>
      b64_char (a / 4) +:+ b64_char (a mod 4 * 16 + b / 16)
        +:+ b64_char (b mod 16 * 4) +:+ "="
  | a :: b :: c :: rest =>
      b64_char (a / 4) +:+ b64_char (a mod 4 * 16 + b / 16)
        +:+ b64_char (b mod 16 * 4 + c / 64) +:+ b64_char (c mod 64)
        +:+ b64_of rest
  end.

Definition b64encode (data : bytes) : string := b64_of (map byte_to_Z data).

(** ** The names of the module

    What is bound at module level in asr.py: the imported names and the
    three functions. *)
Definition module_globals : list string :=
  ["base64"; "hashlib"; "hmac"; "json"; "os"; "time"; "datetime"; "Optional";
   "httpx"; "_hmac_sha256"; "_build_tc3_headers"; "sentence_recognize"].

(** The builtin names asr.py refers to. *)
Definition builtins : list string :=
  ["bytes"; "str"; "int"; "dict"; "isinstance"; "ValueError"; "RuntimeError"].

(** Loading a global name inside a function: module globals, then builtins,
    else [NameError]. *)
Definition load_global (name : string) : result unit :=
  if bool_decide (name ∈ (module_globals ++ builtins)%list) then Ok tt
  else Raise (Exn NameError ("name '" +:+ name +:+ "' is not defined")).

(** ** Collaborators of [sentence_recognize] *)

(** What [sentence_recognize] reads or calls outside asr.py: the process
    environment, the clock ([int(time.time())], a second count between the
    epoch and the end of year 9999), [json.dumps], the builtin [str] and the
    HTTP client.  [httpx_post url content headers] stands for the [post], the
    [raise_for_status] and the [resp.json()] of one request: it returns the
    decoded body, or fails with the transport, status or decoding error. *)
Record world := World {
  environ : gmap string string;
  time_time : Z;
  time_in_range : 0 <= time_time <= 253402300799;
  json_dumps : json -> string;
  str : json -> string;
  httpx_post : string -> bytes -> gmap string string -> Rpc.outcome json
}.

(** One HTTP request as handed to the client. *)
Record http_request := HttpRequest {
  request_url : string;
  request_content : bytes;
  request_headers : gmap string string
}.

(** [sentence_recognize] returns its result together with the HTTP requests
    it has issued. *)
Definition IO (A : Type) : Type := list http_request * result A.

(** ["Error" in response] *)
Definition contains_Error (response : json) : result bool :=
  match response with
  | JDict d => Ok (bool_decide (is_Some (d !! "Error")))
  | JList l => Ok (existsb (fun v => eq_str v "Error") l)
  | JStr s => Ok (match index 0 "Error" s with Some _ => true | None => false end)
  | _ => Raise (Exn TypeError
                  ("argument of type '" +:+ type_name response
                     +:+ "' is not iterable"))
  end.

(** [response["Error"]]: a dict lookup (the key is present when the test
    above has passed); lists and strings do not take a [str] index. *)
Definition item_Error (response : json) : result json :=
  match response with
  | JDict d => Ok (default JNull (d !! "Error"))
  | _ => Raise (Exn TypeError
                  (type_name response +:+ " indices must be integers"))
  end.

(** The statements after the request: lines 109 to 123. *)
Definition read_result (w : world) (result : json) : Py.result json :=
  let response :=
    match result with
    | JDict d => default JNull (d !! "Response")
    | _ => JNull
    end in
  if negb (truthy response) then
    Raise (Exn RuntimeError "Tencent Cloud returned invalid structure")
  else
    match contains_Error response with
    | Raise e => Raise e
    | Ok true =>
        match item_Error response with
        | Raise e => Raise e
        | Ok err =>
            match get err "Code", get err "Message" with
            | Ok code, Ok msg =>
                Raise (Exn RuntimeError
                         ("Tencent Cloud ASR error: " +:+ str w code +:+ " - "
                            +:+ str w msg))
            | Raise e, _ => Raise e
            | _, Raise e => Raise e
            end
        end
    | Ok false =>
        match get response "Result" with
        | Raise e => Raise e
        | Ok text =>
            if negb (truthy text) then
              Raise (Exn RuntimeError
                       "Tencent Cloud did not return recognition result")
            else Ok text
        end
    end.

Definition sentence_recognize (w : world) (data : bytes)
    (voice_format : string) (eng_service_type : option string)
    (project_id : option Z) : IO json :=
  match data with
  | [] => ([], Raise (Exn ValueError "Audio data is empty"))
  | _ :: _ =>
      let secret_id := strip (getenv_default (environ w) "TENCENT_SECRET_ID" "") in
      let secret_key := strip (getenv_default (environ w) "TENCENT_SECRET_KEY" "") in
      if str_empty secret_id || str_empty secret_key then
        ([], Raise (Exn RuntimeError
                      "Missing Tencent Cloud credentials: set TENCENT_SECRET_ID and TENCENT_SECRET_KEY"))
      else
        let region :=
          let r := strip (getenv_default (environ w) "TENCENT_ASR_REGION" "") in
          if str_empty r then None else Some r in
        let engine :=
          match eng_service_type with
          | Some e => if str_empty e
                      then strip (getenv_default (environ w) "TENCENT_ASR_ENGINE" "16k_zh")
                      else e
          | None => strip (getenv_default (environ w) "TENCENT_ASR_ENGINE" "16k_zh")
          end in
        let payload : gmap string json :=
          list_to_map
            [("SubServiceType", JInt 2);
             ("EngSerViceType", JStr engine);
             ("SourceType", JInt 1);
             ("VoiceFormat", JStr voice_format);
             ("Data", JStr (b64encode data))] in
        let payload :=
          match project_id with
          | Some n => <["ProjectId" := JInt n]> payload
          | None => payload
          end in
        let body := encode (json_dumps w (JDict payload)) in
        let ts := time_time w in
        match _build_tc3_headers body ts secret_id secret_key region with
        | Raise e => ([], Raise e)
        | Ok headers =>
            let url := "https://asr.tencentcloudapi.com" in
            match load_global "logger" with
            | Raise e => ([], Raise e)
            | Ok _ =>
                let issued := [HttpRequest url body headers] in
                match httpx_post w url body headers with
                | Rpc.Fails msg => (issued, Raise (Exn ExternalError msg))
                | Rpc.Returns result => (issued, read_result w result)
                end
            end
        end
  end.

(** A credential variable that is unset, or set to whitespace only. *)
Definition credential_missing (w : world) (name : string) : Prop :=
  match environ w !! name with
  | None => True
  | Some value => strip value = ""
  end.

(** A credential variable set to a value that is more than whitespace. *)
Definition credential_given (w : world) (name : string) : Prop :=
  exists value, environ w !! name = Some value /\ strip value <> "".

End Asr.

(* ===================================================================== *)
(** * The TC3 scheme, as the specification words it *)
(* ===================================================================== *)

Module Tc3.
Import Py Sha256 Asr.

Definition digit (n : Z) : string :=
  String (ascii_of_N (Z.to_N (48 + n mod 10))) EmptyString.

(** The UTC calendar date of [timestamp], written YYYY-MM-DD. *)
Definition date (timestamp : Z) : string :=
  let '(y, m, d) := civil_from_days (timestamp / 86400) in
  digit (y / 1000) +:+ digit (y / 100) +:+ digit (y / 10) +:+ digit y
    +:+ "-" +:+ digit (m / 10) +:+ digit m
    +:+ "-" +:+ digit (d / 10) +:+ digit d.

(** Eight lines, the last one the hash of the body, no trailing newline. *)
Definition canonical_request (body : bytes) : string :=
  "POST" +:+ nl
    +:+ "/" +:+ nl
    +:+ "" +:+ nl
    +:+ "content-type:application/json; charset=utf-8" +:+ nl
    +:+ "host:asr.tencentcloudapi.com" +:+ nl
    +:+ "" +:+ nl
    +:+ "content-type;host" +:+ nl
    +:+ hex (sha256 body).

Definition string_to_sign (body : bytes) (timestamp : Z) : string :=
  "TC3-HMAC-SHA256" +:+ nl
    +:+ str_int timestamp +:+ nl
    +:+ (date timestamp +:+ "/asr/tc3_request") +:+ nl
    +:+ hex (sha256 (encode (canonical_request body))).

Definition kDate (secret_key : string) (timestamp : Z) : bytes :=
  hmac_sha256 (encode ("TC3" +:+ secret_key)) (encode (date timestamp)).

Definition kService (secret_key : string) (timestamp : Z) : bytes :=
  hmac_sha256 (kDate secret_key timestamp) (encode "asr").

Definition kSigning (secret_key : string) (timestamp : Z) : bytes :=
  hmac_sha256 (kService secret_key timestamp) (encode "tc3_request").

Definition authorization (body : bytes) (timestamp : Z)
    (secret_id secret_key : string) : string :=
  "TC3-HMAC-SHA256 Credential=" +:+ secret_id +:+ "/" +:+ date timestamp
    +:+ "/asr/tc3_request, SignedHeaders=content-type;host, Signature="
    +:+ hex (hmac_sha256 (kSigning secret_key timestamp)
               (encode (string_to_sign body timestamp))).

End Tc3.

(* ===================================================================== *)
(** * Scenarios: concrete collaborators and requests *)
(* ===================================================================== *)

Module Scenario.
Import Py.

(** [str] on the values the scenarios convert. *)
Definition str (v : json) : string :=
  match v with
  | JStr s => s
  | JInt n => Asr.str_int n
  | JBool true => "True"
  | JBool false => "False"
  | _ => "None"
  end.

(** [json.loads] on the lines the scenarios read. *)
Definition json_loads (line : string) : option json :=
  if String.eqb line "[]" then Some (JList [])
  else if String.eqb line "{}" then Some (JDict ∅)
  else if String.eqb line "null" then Some JNull
  else None.

(** A relay whose gateway acknowledges every command, and an environment
    that names a gateway. *)
Definition relay : Rpc.world :=
  {| Rpc.environ := {[ "NAPCAT_URL" := "ws://127.0.0.1:3001" ]};
     Rpc.DEFAULT_IGNORE_PREFIXES := JList [JStr "/"];
     Rpc.str := str;
     Rpc.NapcatRelayClient := fun url timeout => Rpc.Returns (Rpc.Client url timeout);
     Rpc.send_command := fun _ _ => Rpc.Returns (JDict {[ "status" := JStr "ok" ]});
     Rpc.send_group_message := fun _ _ _ => Rpc.Returns (JDict {[ "status" := JStr "ok" ]});
     Rpc.send_private_message := fun _ _ _ => Rpc.Returns (JDict {[ "status" := JStr "ok" ]});
     Rpc._event_to_receive_params := fun event => event;
     Rpc.json_loads := json_loads |}.

(** The same relay with no gateway in the environment. *)
Definition relay_without_gateway : Rpc.world :=
  {| Rpc.environ := ∅;
     Rpc.DEFAULT_IGNORE_PREFIXES := Rpc.DEFAULT_IGNORE_PREFIXES relay;
     Rpc.str := str;
     Rpc.NapcatRelayClient := Rpc.NapcatRelayClient relay;
     Rpc.send_command := Rpc.send_command relay;
     Rpc.send_group_message := Rpc.send_group_message relay;
     Rpc.send_private_message := Rpc.send_private_message relay;
     Rpc._event_to_receive_params := Rpc._event_to_receive_params relay;
     Rpc.json_loads := json_loads |}.

Definition request (method : string) (req_id : json)
    (params : gmap string json) : gmap string json :=
  list_to_map [("jsonrpc", JStr "2.0"); ("id", req_id);
               ("method", JStr method); ("params", JDict params)].

(** [send{channel:"group_forward", group_id:"123", messages:[]}] *)
Definition forward_without_messages : gmap string json :=
  list_to_map [("channel", JStr "group_forward"); ("group_id", JStr "123");
               ("messages", JList [])].

Definition watch_args : Rpc.watch_args :=
  {| Rpc.url := JStr "ws://127.0.0.1:3001";
     Rpc.from_group := JNull;
     Rpc.from_user := JNull;
     Rpc.ignore_prefixes := JList [JStr "/"];
     Rpc.asr_enabled := false |}.

(** A dispatcher whose watcher is running, and one whose watcher has ended
    with a fault of the gateway connection. *)
Definition subscribed : Rpc.server :=
  {| Rpc._watch_task := Some (Rpc.Task watch_args Rpc.Running);
     Rpc.detached := [];
     Rpc.stdout := [] |}.

Definition watcher_lost : Rpc.server :=
  {| Rpc._watch_task := Some (Rpc.Task watch_args (Rpc.Faulted "connection closed"));
     Rpc.detached := [];
     Rpc.stdout := [] |}.

(** The recognition service: a clock at 2023-11-14, a serializer that is
    good for the empty payload only and an HTTP client without network. *)
Definition clock : Z := 1700000000.

Definition clock_in_range : 0 <= clock <= 253402300799 :=
  conj (Zle_bool_imp_le 0 clock eq_refl)
       (Zle_bool_imp_le clock 253402300799 eq_refl).

Definition recognizer (environ : gmap string string) : Asr.world :=
  {| Asr.environ := environ;
     Asr.time_time := clock;
     Asr.time_in_range := clock_in_range;
     Asr.json_dumps := fun _ => "{}";
     Asr.str := str;
     Asr.httpx_post := fun _ _ _ => Rpc.Fails "network is unreachable" |}.

Definition credentials : gmap string string :=
  list_to_map [("TENCENT_SECRET_ID", "AKIDexample");
               ("TENCENT_SECRET_KEY", "secret")].

(** The secret id is set, to a single space. *)
Definition blank_secret_id : gmap string string :=
  list_to_map [("TENCENT_SECRET_ID", " ");
               ("TENCENT_SECRET_KEY", "secret")].

Definition audio : Sha256.bytes := Asr.encode "RIFF".

End Scenario.

(* ===================================================================== *)
(** * What one request is answered with *)
(* ===================================================================== *)

Module Answers.
Import Py Rpc.

(** A Response to the request [req_id]: a result or an error under that id. *)
Definition is_answer (req_id obj : json) : Prop :=
  (exists result, obj = response_result req_id result)
  \/ (exists code message, obj = response_error req_id code message).

(** A step that writes nothing and raises nothing but [Exception]s. *)
Definition quiet {A} (c : M A) : Prop := silent c /\ raises_exceptions c.

(** What a relay call that was made is answered with: its value as
    result, its failure as error -32000 with the failure's text. *)
Definition relayed (req_id : json) (o : outcome json) : M unit :=
  match o with
  | Returns result => _write_json (response_result req_id result)
  | Fails msg => _write_json (response_error req_id (-32000) msg)
  end.

(** The method names [_handle_request] routes. *)
Definition routed (method : json) : bool :=
  eq_str method "initialize" || eq_str method "watch.subscribe"
  || eq_str method "watch.unsubscribe" || eq_str method "message.send"
  || eq_str method "send" || eq_str method "chats.list".

(** A line of the input that [serve] hands to [dispatch]: not blank, and
    accepted by [json.loads]. *)
Definition carries_request (w : world) (line : string) : bool :=
  negb (str_empty (strip line))
  && match json_loads w (strip line) with Some _ => true | None => false end.

End Answers.

(* ===================================================================== *)
(** * rpc.py over an output that can refuse a line *)
(* ===================================================================== *)

(** [Rpc] takes every write to [sys.stdout] to succeed.  Here the handlers
    are followed once more over an output that can refuse a line: the
    first statement of [_write_json],
    [sys.stdout.write(json.dumps(obj, ensure_ascii=False))], raises before
    anything of the line is written when the text cannot be encoded (a lone
    surrogate in an id, a result or a message, which [json.loads] accepts)
    or the object cannot be serialized.  An error of the stream itself while
    the line goes out is left out, as it is for the reading of [sys.stdin]. *)
Module Strict.
Import Py Rpc Answers.

#[local] Notation "x <- c ;; k" := (bind c (fun x => k))
  (at level 90, c at next level, right associativity).

Section Output.

(** What that first statement does on an object: it returns, or it raises
    an exception with the [str] given. *)
Variable write : json -> outcome unit.

Variable w : world.

Definition _write_json (obj : json) : M unit :=
  _ <- await (write obj) ;;
  Rpc._write_json obj.

Definition _write_result (req_id result : json) : M unit :=
  if is_None req_id then ret tt
  else _write_json
         (JDict (list_to_map
                   [("jsonrpc", JStr "2.0"); ("id", req_id); ("result", result)])).

Definition _write_error (req_id : json) (code : Z) (message : string) : M unit :=
  if is_None req_id then ret tt
  else
    let error_obj :=
      JDict (list_to_map [("code", JInt code); ("message", JStr message)]) in
    _write_json
      (JDict (list_to_map
                [("jsonrpc", JStr "2.0"); ("id", req_id); ("error", error_obj)])).

Definition _handle_initialize (req_id : json) : M unit :=
  let result :=
    JDict (list_to_map
             [("capabilities",
               JDict (list_to_map [("streaming", JBool true);
                                   ("attachments", JBool true)]))]) in
  _write_result req_id result.

Definition _handle_send (params req_id : json) : M unit :=
  channel0 <- lift (get params "channel") ;;
  type_ <- lift (get params "type") ;;
  let channel := or_ channel0 type_ in
  group_id <- lift (get params "group_id") ;;
  user_id <- lift (get params "user_id") ;;
  timeout <- lift (get params "timeout") ;;
  napcat_url <- lift (get params "napcat_url") ;;
  client <- await (NapcatRelayClient w napcat_url timeout) ;;
  let channel := infer_channel channel group_id user_id in
  sent <- try_except
    (result <-
       (if eq_str channel "group_forward" then
          messages0 <- lift (get params "messages") ;;
          nodes <- lift (get params "nodes") ;;
          let messages := or_ messages0 nodes in
          if negb (truthy messages) then
            raise (Exn ValueError "messages is required for group_forward")
          else
            let payload :=
              JDict (list_to_map [("group_id", JStr (str w group_id));
                                  ("messages", messages)]) in
            let command := mkCommand SEND_GROUP_FORWARD_MSG payload in
            await (send_command w client command)
        else if eq_str channel "group" then
          message <- lift (get params "message") ;;
          if negb (truthy message) then
            raise (Exn ValueError "message is required for group send")
          else await (send_group_message w client group_id message)
        else if eq_str channel "private" then
          message <- lift (get params "message") ;;
          if negb (truthy message) then
            raise (Exn ValueError "message is required for private send")
          else await (send_private_message w client user_id message)
        else
          raise (Exn ValueError
                   "Unsupported channel; use group, group_forward, or private")) ;;
     ret (Some result))
    (fun exc =>
       _ <- _write_error req_id (-32000) (exn_str exc) ;;
       ret None) ;;
  match sent with
  | Some result => _write_result req_id result
  | None => ret tt
  end.

Definition _handle_message_send (params req_id : json) : M unit :=
  text <- lift (get params "text") ;;
  to0 <- lift (get params "to") ;;
  chatId <- lift (get params "chatId") ;;
  chat_id <- lift (get params "chat_id") ;;
  let to := or_ (or_ to0 chatId) chat_id in
  is_group <- lift (get params "isGroup") ;;
  if negb (truthy to) || is_None text then
    _write_error req_id (-32602) "to/chatId and text are required"
  else
    let channel := if truthy is_group then "group" else "private" in
    let message :=
      JList [JDict (list_to_map
                      [("type", JStr "text");
                       ("data", JDict (list_to_map [("text", text)]))])] in
    napcat_url <- lift (get params "napcat_url") ;;
    timeout <- lift (get params "timeout") ;;
    _handle_send
      (JDict (list_to_map
                [("channel", JStr channel);
                 ("group_id", if truthy is_group then to else JNull);
                 ("user_id", if truthy is_group then JNull else to);
                 ("message", message);
                 ("napcat_url", napcat_url);
                 ("timeout", timeout)]))
      req_id.

Definition _handle_subscribe (params req_id : json) : M unit :=
  _ <- _stop_watch ;;
  napcat_url <- lift (get params "napcat_url") ;;
  let url := or_ napcat_url (getenv (environ w) "NAPCAT_URL") in
  if negb (truthy url) then
    _write_error req_id (-32000) "NAPCAT_URL is required"
  else
    from_group <- lift (get params "from_group") ;;
    from_user <- lift (get params "from_user") ;;
    ignore_prefixes0 <- lift (get params "ignore_prefixes") ;;
    let ignore_prefixes := or_ ignore_prefixes0 (DEFAULT_IGNORE_PREFIXES w) in
    let asr_enabled := Rpc._asr_enabled w in
    _ <- create_task
           {| url := url;
              from_group := from_group;
              from_user := from_user;
              ignore_prefixes := ignore_prefixes;
              asr_enabled := asr_enabled |} ;;
    _write_result req_id (JDict (list_to_map [("status", JStr "subscribed")])).

Definition _handle_unsubscribe (req_id : json) : M unit :=
  _ <- _stop_watch ;;
  _write_result req_id (JDict (list_to_map [("status", JStr "unsubscribed")])).

Definition _handle_request (request : json) : M unit :=
  method <- lift (get request "method") ;;
  req_id <- lift (get request "id") ;;
  params0 <- lift (get request "params") ;;
  let params := or_ params0 (JDict ∅) in
  if eq_str method "initialize" then _handle_initialize req_id
  else if eq_str method "watch.subscribe" then _handle_subscribe params req_id
  else if eq_str method "watch.unsubscribe" then _handle_unsubscribe req_id
  else if eq_str method "message.send" then _handle_message_send params req_id
  else if eq_str method "send" then _handle_send params req_id
  else if eq_str method "chats.list" then _write_result req_id (JList [])
  else _write_error req_id (-32601) "Method not found".

(** The body of the loop of [serve] once a line has been parsed. *)
Definition dispatch (request : json) : M unit :=
  try_except (_handle_request request)
    (fun exc =>
       req_id <- lift (get request "id") ;;
       _write_error req_id (-32000) (exn_str exc)).

End Output.

(** A handler that tries to answer [req_id]: either it returns having
    written one Response to [req_id], which the output has accepted, and
    nothing else, or it raises an [Exception] having written nothing. *)
Definition attempts (write : json -> outcome unit) (req_id : json)
    (c : M unit) : Prop :=
  forall st,
    (exists obj, is_answer req_id obj
                 /\ write obj = Returns tt
                 /\ stdout (c st).1 = stdout st ++ [obj]
                 /\ (c st).2 = Ok tt)
    \/ (stdout (c st).1 = stdout st
        /\ exists e, (c st).2 = Raise e /\ is_Exception e = true).

End Strict.

(* ===================================================================== *)
(** * cli.py: the environment file *)
(* ===================================================================== *)

Module Dotenv.
Import Py.

(** [s.startswith(prefix)] *)
Definition startswith (prefix s : string) : bool := String.prefix prefix s.

(** [s[n:]] for an ASCII prefix of [n] characters. *)
Fixpoint drop (n : nat) (s : string) : string :=
  match n, s with
  | S n', String _ r => drop n' r
  | _, _ => s
  end.

(** [s.partition(sep)] for a one-character separator; [None] when [sep] is
    not in [s], else what is before and after its first occurrence. *)
Fixpoint partition (sep : ascii) (s : string) : option (string * string) :=
  match s with
  | EmptyString => None
  | String c r =>
      if Ascii.eqb c sep then Some (EmptyString, r)
      else match partition sep r with
           | Some (before, after) => Some (String c before, after)
           | None => None
           end
  end.

Definition reversed (s : string) : string := rev_string s "".

(** [s.endswith(c)] for one character. *)
Definition endswith (c : ascii) (s : string) : bool :=
  match reversed s with
  | String c' _ => Ascii.eqb c' c
  | EmptyString => false
  end.

(** [s[1:-1]] *)
Definition inner (s : string) : string :=
  match s with
  | EmptyString => EmptyString
  | String _ r =>
      match reversed r with
      | EmptyString => EmptyString
      | String _ r' => reversed r'
      end
  end.

Definition double_quote : ascii := ascii_of_N 34.
Definition single_quote : ascii := ascii_of_N 39.

(** Lines 51 and 52: a value between two double quotes or two single quotes
    loses them. *)
Definition unquote (value : string) : string :=
  if (startswith (String double_quote "") value && endswith double_quote value)
     || (startswith (String single_quote "") value && endswith single_quote value)
  then inner value
  else value.

Fixpoint has_nul (s : string) : bool :=
  match s with
  | EmptyString => false
  | String c r => Ascii.eqb c (ascii_of_N 0) || has_nul r
  end.

(** [os.environ[key] = value]: a NUL character in either is refused. *)
Definition setitem (environ : gmap string string) (key value : string)
  : gmap string string * result unit :=
  if has_nul key || has_nul value then
    (environ, Raise (Exn ValueError "embedded null byte"))
  else (<[key := value]> environ, Ok tt).

(** The body of the loop of [_load_dotenv_if_present] for one line. *)
Definition load_line (line : string) (environ : gmap string string)
  : gmap string string * result unit :=
  let stripped := strip line in
  if str_empty stripped || startswith "#" stripped then (environ, Ok tt)
  else
    let stripped :=
      if startswith "export " stripped then strip (drop 7 stripped)
      else stripped in
    match partition "="%char stripped with
    | None => (environ, Ok tt)
    | Some (key, value) =>
        let key := strip key in
        if str_empty key || bool_decide (is_Some (environ !! key)) then
          (environ, Ok tt)
        else
          let value := strip value in
          let value := unquote value in
          setitem environ key value
    end.

Fixpoint load_lines (lines : list string) (environ : gmap string string)
  : gmap string string * result unit :=
  match lines with
  | [] => (environ, Ok tt)
  | line :: rest =>
      match load_line line environ with
      | (environ', Ok _) => load_lines rest environ'
      | (environ', Raise e) => (environ', Raise e)
      end
  end.

(** What is at [.env]: nothing that is a file, a file whose reading raises
    [OSError], or the lines of its text. *)
Inductive env_file :=
| NotAFile
| Unreadable (msg : string)
| Lines (lines : list string).

(** [_load_dotenv_if_present]: the new [os.environ], and the exception that
    leaves the function if any (only [OSError] is caught). *)
Definition _load_dotenv_if_present (file : env_file)
    (environ : gmap string string) : gmap string string * result unit :=
  match file with
  | NotAFile => (environ, Ok tt)
  | Unreadable _ => (environ, Ok tt)
  | Lines lines => load_lines lines environ
  end.

(** The assignment a line stands for, if any: its key and its value as
    they would be stored. *)
Definition assignment (line : string) : option (string * string) :=
  let stripped := strip line in
  if str_empty stripped || startswith "#" stripped then None
  else
    let stripped :=
      if startswith "export " stripped then strip (drop 7 stripped)
      else stripped in
    match partition "="%char stripped with
    | None => None
    | Some (key, value) =>
        if str_empty (strip key) then None
        else Some (strip key, unquote (strip value))
    end.

End Dotenv.

(* ===================================================================== *)
(** * cli.py: segments, sending, the downloaded video *)
(* ===================================================================== *)

Module Cli.
Import Py.

(** What the command line writes to [sys.stdout]: a line of [print], or the
    relay's response written by [_print_response]. *)
Inductive line :=
| Printed (text : string)
| Response (response : json).

(** One entry of a directory as [_iter_video_files] looks at it: its path,
    [path.is_file()], [path.suffix] and [path.stat().st_size]. *)
Record entry := Entry {
  entry_path : string;
  is_file : bool;
  suffix : string;
  st_size : Z
}.

(** One dict of the [errors] list of [_build_parts_and_errors]. *)
Record build_error := BuildError {
  error_segment : string;
  error_value : string;
  error_text : string
}.

(** The parsed command line, as far as [main] and the two senders read it.
    [segments] is [None] when no segment option was given (the default of
    the destination), else the [(type, value)] pairs in command-line order. *)
Inductive subcommand := Send | SendGroup | RpcCommand.

Record Namespace := mkNamespace {
  command : subcommand;
  napcat_url : json;
  timeout : json;
  segments : option (list (string * string));
  user_id : string;
  group_id : string;
  type_ : string;
  forward : bool
}.

(** [_SegmentAction.__call__] on the destination [segments]: the list there
    ([None] at first), with the pair appended. *)
Definition _segment_action (segment_type : string)
    (dest : option (list (string * string))) (values : string)
  : option (list (string * string)) :=
  Some (default [] dest ++ [(segment_type, values)]).

(** The destination after the segment options of a command line, given as
    the segment type of each option and its value, in order. *)
Definition parse_segments (options : list (string * string))
  : option (list (string * string)) :=
  fold_left (fun dest '(segment_type, values) =>
               _segment_action segment_type dest values)
    options None.

Section Collaborators.

(** The message objects and forward nodes of messages.py. *)
Context {part node : Type}.

(** An element of the list [_serialize_parts] returns: [part.as_dict()], or
    the part itself when it has no such attribute. *)
Inductive wire :=
| AsDict (d : json)
| Raw (p : part).

(** Everything cli.py calls outside itself: the environment, the
    constructors of messages.py, the relay of client.py, [str.lower], the
    temporary directory, [secrets.token_hex(4)], yt-dlp's [extract_info] and
    [download] (given the options), and the listing of a directory. *)
Record world := World {
  environ : gmap string string;
  ReplyMessage : string -> Rpc.outcome part;
  TextMessage : string -> Rpc.outcome part;
  ImageMessage : string -> Rpc.outcome part;
  VideoMessage : string -> Rpc.outcome part;
  FileMessage : string -> Rpc.outcome part;
  ForwardNode : string -> string -> list part -> Rpc.outcome node;
  as_dict : part -> option (Rpc.outcome json);
  NapcatRelayClient : json -> json -> Rpc.outcome Rpc.client;
  send_group_forward_message :
    Rpc.client -> string -> list node -> Rpc.outcome json;
  send_group_message : Rpc.client -> string -> list wire -> Rpc.outcome json;
  send_private_message : Rpc.client -> string -> list wire -> Rpc.outcome json;
  lower : string -> string;
  mkdtemp : Rpc.outcome string;
  token_hex : string;
  extract_info : json -> string -> Rpc.outcome json;
  download : json -> string -> Rpc.outcome json;
  iterdir : string -> Rpc.outcome (list entry)
}.

Variable w : world.

(** A computation that prints and may raise. *)
Definition IO (A : Type) : Type := list line * result A.

Definition pure {A} (r : result A) : IO A := ([], r).

Definition bind {A B} (c : IO A) (k : A -> IO B) : IO B :=
  match c with
  | (out, Ok a) => let (out', r) := k a in (out ++ out', r)
  | (out, Raise e) => (out, Raise e)
  end.

(** A call into a collaborator. *)
Definition call {A} (o : Rpc.outcome A) : result A :=
  match o with
  | Rpc.Returns a => Ok a
  | Rpc.Fails msg => Raise (Exn ExternalError msg)
  end.

(** ** The downloaded video *)

Definition video_suffixes : list string :=
  [".mp4"; ".mkv"; ".webm"; ".mov"; ".flv"; ".avi"; ".ts"; ".m4v"].

Definition is_video (e : entry) : bool :=
  is_file e && bool_decide (lower w (suffix e) ∈ video_suffixes).

Definition _iter_video_files (target_dir : string) : result (list entry) :=
  match call (iterdir w target_dir) with
  | Raise e => Raise e
  | Ok entries => Ok (filter (fun e => is_video e = true) entries)
  end.

(** [max(candidates, key=size)]: the first of the largest. *)
Fixpoint largest_from (best : entry) (rest : list entry) : entry :=
  match rest with
  | [] => best
  | e :: rest' =>
      largest_from (if (st_size best <? st_size e)%Z then e else best) rest'
  end.

Definition _pick_downloaded_file (target_dir : string) : result string :=
  match _iter_video_files target_dir with
  | Raise e => Raise e
  | Ok [] =>
      Raise (Exn RuntimeError ("No video file downloaded into " +:+ target_dir))
  | Ok (first :: rest) => Ok (entry_path (largest_from first rest))
  end.

(** [live_status in {"is_live", "is_upcoming"}]: lists and dicts cannot be
    hashed. *)
Definition in_live_set (live_status : json) : result bool :=
  match live_status with
  | JStr s => Ok (String.eqb s "is_live" || String.eqb s "is_upcoming")
  | JList _ | JDict _ =>
      Raise (Exn TypeError
               ("unhashable type: '" +:+ type_name live_status +:+ "'"))
  | _ => Ok false
  end.

Definition _probe_is_live_api (video_url : string) (base_opts : json)
  : result bool :=
  match extract_info w base_opts video_url with
  | Rpc.Fails _ => Ok false
  | Rpc.Returns info =>
      match get info "live_status" with
      | Raise e => Raise e
      | Ok live_status =>
          match get info "is_live" with
          | Raise e => Raise e
          | Ok is_live =>
              if truthy is_live then Ok true else in_live_set live_status
          end
      end
  end.

(** [result not in (0, None)] *)
Definition download_failed (code : json) : bool :=
  match code with
  | JNull => false
  | JInt n => negb (n =? 0)%Z
  | JBool b => b
  | JFloat f => float_nonzero f
  | _ => true
  end.

Definition base_opts (output_tmpl : string) : gmap string json :=
  list_to_map
    [("outtmpl", JStr output_tmpl);
     ("outtmpl_na_placeholder", JStr "video");
     ("restrictfilenames", JBool true);
     ("nopart", JBool true);
     ("downloader_args",
      JDict (list_to_map
               [("hls",
                 JList [JStr "-allowed_extensions"; JStr "ALL";
                        JStr "-extension_picky"; JStr "0";
                        JStr "-protocol_whitelist";
                        JStr "file,http,https,tcp,tls,crypto"])]))].

Definition download_opts (output_tmpl : string) (is_live : bool)
  : gmap string json :=
  let opts :=
    <["external_downloader_args" :=
        JDict (list_to_map [("ffmpeg", JList [JStr "-t"; JStr "30"])])]>
      (base_opts output_tmpl) in
  if is_live then
    <["no_live_from_start" := JBool true]>
      (<["force_keyframes_at_cuts" := JBool true]> opts)
  else opts.

Definition _download_video_url (video_url : string) : result (option string) :=
  match call (mkdtemp w) with
  | Raise e => Raise e
  | Ok target_dir =>
      let base_name := token_hex w +:+ ".%(ext)s" in
      let output_tmpl := target_dir +:+ "/" +:+ base_name in
      match _probe_is_live_api video_url (JDict (base_opts output_tmpl)) with
      | Raise e => Raise e
      | Ok is_live =>
          match download w (JDict (download_opts output_tmpl is_live)) video_url with
          | Rpc.Fails _ => Ok None
          | Rpc.Returns code =>
              if download_failed code then Ok None
              else
                match _pick_downloaded_file target_dir with
                | Raise e => if is_Exception e then Ok None else Raise e
                | Ok video_file => Ok (Some video_file)
                end
          end
      end
  end.

Definition _video_url_segment (video_url : string) : IO (option part) :=
  bind ([Printed "Downloading video, please wait up to 60s..."], Ok tt)
    (fun _ =>
       match _download_video_url video_url with
       | Raise e => pure (Raise e)
       | Ok None => pure (Ok None)
       | Ok (Some path) =>
           match call (VideoMessage w path) with
           | Raise e => pure (Raise e)
           | Ok video => pure (Ok (Some video))
           end
       end).

(** ** Segments *)

(** A constructor of messages.py used as builder. *)
Definition construct (ctor : string -> Rpc.outcome part) (value : string)
  : IO (option part) :=
  match call (ctor value) with
  | Raise e => pure (Raise e)
  | Ok built => pure (Ok (Some built))
  end.

(** [builders.get(seg_type)] *)
Definition builders (seg_type : string)
  : option (string -> IO (option part)) :=
  if String.eqb seg_type "reply" then Some (construct (ReplyMessage w))
  else if String.eqb seg_type "text" then Some (construct (TextMessage w))
  else if String.eqb seg_type "image" then Some (construct (ImageMessage w))
  else if String.eqb seg_type "video" then Some (construct (VideoMessage w))
  else if String.eqb seg_type "file" then Some (construct (FileMessage w))
  else if String.eqb seg_type "video-url" then Some _video_url_segment
  else None.

(** The loop of [_build_parts_and_errors], with what has been printed. *)
Fixpoint build_loop (todo : list (string * string)) (parts : list part)
    (errors : list build_error) (out : list line)
  : IO (list part * list build_error) :=
  match todo with
  | [] => (out, Ok (parts, errors))
  | (seg_type, value) :: rest =>
      match builders seg_type with
      | None => build_loop rest parts errors out
      | Some builder =>
          match builder value with
          | (printed, Raise exc) =>
              if is_Exception exc then
                build_loop rest parts
                  (errors ++ [BuildError seg_type value (exn_str exc)])
                  (out ++ printed)
              else (out ++ printed, Raise exc)
          | (printed, Ok None) =>
              build_loop rest parts
                (errors ++ [BuildError seg_type value "no content built"])
                (out ++ printed)
          | (printed, Ok (Some built)) =>
              build_loop rest (parts ++ [built]) errors (out ++ printed)
          end
      end
  end.

(** [for seg_type, value in segments] on [None] *)
Definition not_iterable : exn :=
  Exn TypeError "'NoneType' object is not iterable".

Definition _build_parts_and_errors (segs : option (list (string * string)))
  : IO (list part * list build_error * list (string * string)) :=
  match segs with
  | None => pure (Raise not_iterable)
  | Some todo =>
      match build_loop todo [] [] [] with
      | (out, Ok (parts, errors)) => (out, Ok (parts, errors, todo))
      | (out, Raise e) => (out, Raise e)
      end
  end.

(** [getattr(args, "segments", []) or []] *)
Definition segments_or_empty (args : Namespace) : list (string * string) :=
  default [] (segments args).

Definition _build_message_segments (args : Namespace) : IO (list part) :=
  bind (_build_parts_and_errors (Some (segments_or_empty args)))
    (fun '(parts, errors, _) =>
       match errors with
       | _ :: _ => pure (Ok [])
       | [] => pure (Ok parts)
       end).

Definition _compose_error_text (errors : list build_error)
    (raw_segments : list (string * string)) : string :=
  let original :=
    match raw_segments with
    | [] => "none"
    | _ :: _ =>
        String.concat "; "
          (map (fun '(seg, val) => seg +:+ ":" +:+ val) raw_segments)
    end in
  let joined :=
    String.concat "; "
      (map (fun err =>
              error_segment err +:+ ": " +:+ error_value err +:+ " => "
                +:+ error_text err)
         errors) in
  let err_lines := if str_empty joined then "unknown error" else joined in
  "Message delivery failed. Original: [" +:+ original +:+ "]. Errors: "
    +:+ err_lines +:+ ".".

Fixpoint traverse {A B} (f : A -> result B) (l : list A) : result (list B) :=
  match l with
  | [] => Ok []
  | a :: rest =>
      match f a with
      | Raise e => Raise e
      | Ok b =>
          match traverse f rest with
          | Raise e => Raise e
          | Ok bs => Ok (b :: bs)
          end
      end
  end.

Definition _build_forward_nodes (parts : list part) : result (list node) :=
  let user := getenv_default (environ w) "NAPCAT_FORWARD_USER_ID" "" in
  let nickname :=
    getenv_default (environ w) "NAPCAT_FORWARD_NICKNAME"
      (String (ascii_of_N 227) (String (ascii_of_N 131) (String (ascii_of_N 161)
      (String (ascii_of_N 227) (String (ascii_of_N 130) (String (ascii_of_N 164)
      (String (ascii_of_N 227) (String (ascii_of_N 131) (String (ascii_of_N 137)
       ""))))))))) in
  traverse (fun p => call (ForwardNode w user nickname [p])) parts.

Definition _build_error_forward_content (parts : list part)
    (errors : list build_error) (raw_segments : list (string * string))
  : result (list part) :=
  match call (TextMessage w (_compose_error_text errors raw_segments)) with
  | Raise e => Raise e
  | Ok notice =>
      let content := parts ++ [notice] in
      match content with
      | _ :: _ => Ok content
      | [] =>
          match call (TextMessage w (_compose_error_text errors raw_segments)) with
          | Raise e => Raise e
          | Ok again => Ok [again]
          end
      end
  end.

Definition serialize (p : part) : result wire :=
  match as_dict w p with
  | Some o => match call o with
              | Raise e => Raise e
              | Ok d => Ok (AsDict d)
              end
  | None => Ok (Raw p)
  end.

Definition _serialize_parts (parts : list part) : result (list wire) :=
  traverse serialize parts.

Definition _print_response (response : json) : IO unit :=
  ([Response response], Ok tt).

(** [try: response = ...  except Exception: return 1], then the print. *)
Definition finish (sent : result json) : IO Z :=
  match sent with
  | Raise e => if is_Exception e then pure (Ok 1) else pure (Raise e)
  | Ok response => bind (_print_response response) (fun _ => pure (Ok 0))
  end.

Definition then_ {A B} (r : result A) (k : A -> result B) : result B :=
  match r with
  | Raise e => Raise e
  | Ok a => k a
  end.

Definition _run_send_group (args : Namespace) : IO Z :=
  bind (_build_parts_and_errors (segments args))
    (fun '(parts, errors, raw_segments) =>
       match parts, errors with
       | [], [] => pure (Ok 2)
       | _, _ =>
           let is_forward := forward args || String.eqb (type_ args) "forward" in
           match call (NapcatRelayClient w (napcat_url args) (timeout args)) with
           | Raise e => pure (Raise e)
           | Ok client =>
               finish
                 (match errors with
                  | _ :: _ =>
                      then_ (_build_error_forward_content parts errors raw_segments)
                        (fun content =>
                           then_ (_build_forward_nodes content)
                             (fun nodes =>
                                call (send_group_forward_message w client
                                        (group_id args) nodes)))
                  | [] =>
                      if is_forward then
                        then_ (_build_forward_nodes parts)
                          (fun nodes =>
                             call (send_group_forward_message w client
                                     (group_id args) nodes))
                      else
                        then_ (_serialize_parts parts)
                          (fun wires =>
                             call (send_group_message w client
                                     (group_id args) wires))
                  end)
           end
       end).

Definition _run_send_private (args : Namespace) : IO Z :=
  bind (_build_parts_and_errors (segments args))
    (fun '(parts, errors, raw_segments) =>
       match parts, errors with
       | [], [] => pure (Ok 2)
       | _, _ =>
           match call (NapcatRelayClient w (napcat_url args) (timeout args)) with
           | Raise e => pure (Raise e)
           | Ok client =>
               match
                 (match errors with
                  | _ :: _ =>
                      then_ (call (TextMessage w
                                     (_compose_error_text errors raw_segments)))
                        (fun notice => Ok (parts ++ [notice]))
                  | [] => Ok parts
                  end)
               with
               | Raise e => pure (Raise e)
               | Ok parts =>
                   finish
                     (then_ (_serialize_parts parts)
                        (fun wires =>
                           call (send_private_message w client
                                   (user_id args) wires)))
               end
           end
       end).

(** [run_rpc_server] is defined in rpc.py without parameters; [main] calls
    it with the keywords [default_url] and [default_timeout].  A call with a
    keyword the function does not declare raises [TypeError] before the body
    runs. *)
Definition run_rpc_server_parameters : list string := [].

Definition bind_keywords (name : string) (parameters keywords : list string)
  : result unit :=
  match filter (fun k => k ∉ parameters) keywords with
  | [] => Ok tt
  | k :: _ =>
      Raise (Exn TypeError
               (name +:+ "() got an unexpected keyword argument '" +:+ k +:+ "'"))
  end.

(** [run_rpc_server]: 0 when [serve] has returned. *)
Definition run_rpc_server (rw : Rpc.world) (stdin : list string)
  : list json * result Z :=
  match Rpc.serve rw stdin Rpc.__init__ with
  | (st, Ok _) => (Rpc.stdout st, Ok 0)
  | (st, Raise e) => (Rpc.stdout st, Raise e)
  end.

(** [main] once the arguments are parsed and logging is configured. *)
Definition main (rw : Rpc.world) (stdin : list string) (args : Namespace)
  : IO Z :=
  match command args with
  | Send => _run_send_private args
  | SendGroup => _run_send_group args
  | RpcCommand =>
      match bind_keywords "run_rpc_server" run_rpc_server_parameters
              ["default_url"; "default_timeout"] with
      | Raise e => pure (Raise e)
      | Ok _ =>
          let (written, r) := run_rpc_server rw stdin in
          (map Response written, r)
      end
  end.

End Collaborators.

(** ** Vocabulary *)

(** A segment whose type [_build_parts_and_errors] has a builder for. *)
Definition known (seg : string * string) : bool :=
  existsb (String.eqb seg.1)
    ["reply"; "text"; "image"; "video"; "file"; "video-url"].

Definition is_response (l : line) : bool :=
  match l with
  | Response _ => true
  | Printed _ => false
  end.

Definition printed_only (out : list line) : Prop :=
  Forall (fun l => is_response l = false) out.

(** A run of a sender writes the relay's response, once and last, exactly
    when it returns 0. *)
Definition reports (c : list line * result Z) : Prop :=
  exists printed,
    printed_only printed
    /\ ((c.2 = Ok 0 /\ exists response, c.1 = printed ++ [Response response])
        \/ (c.2 <> Ok 0 /\ c.1 = printed)).

End Cli.

(* ===================================================================== *)
(** * Cases: concrete requests, command lines and files *)
(* ===================================================================== *)

Module Cases.
Import Py.

Definition text_segment (text : string) : json :=
  JDict (list_to_map
           [("type", JStr "text");
            ("data", JDict (list_to_map [("text", JStr text)]))]).

(** [send{group_id:"123", user_id:"456", message:[...]}]: both ids, no
    channel. *)
Definition send_both_ids : gmap string json :=
  list_to_map [("group_id", JStr "123"); ("user_id", JStr "456");
               ("message", JList [text_segment "hi"])].

(** [send{channel:"group_forward", group_id:"123", nodes:[...]}] *)
Definition forward_nodes : gmap string json :=
  list_to_map [("channel", JStr "group_forward"); ("group_id", JStr "123");
               ("nodes", JList [text_segment "hi"])].

(** [watch.subscribe{napcat_url:"ws://gateway:1", from_group:"9"}] *)
Definition subscribe_params : gmap string json :=
  list_to_map [("napcat_url", JStr "ws://gateway:1"); ("from_group", JStr "9")].

(** A [.env] of five lines: a comment, an exported and quoted value, a
    second value for the same key, a line without [=], a plain value. *)
Definition quoted (body : string) : string :=
  String Dotenv.double_quote (body +:+ String Dotenv.double_quote "").

Definition env_lines : list string :=
  ["# gateway";
   "export NAPCAT_URL = " +:+ quoted "ws://gateway:1";
   "NAPCAT_URL=ws://other:2";
   "not an assignment";
   "  TIMEOUT=5  "].

(** [str.lower] on ASCII text. *)
Fixpoint ascii_lower (s : string) : string :=
  match s with
  | EmptyString => EmptyString
  | String c r =>
      let n := N_of_ascii c in
      String (if ((65 <=? n) && (n <=? 90))%N then ascii_of_N (n + 32) else c)
             (ascii_lower r)
  end.

(** A command line whose message objects are pairs of a kind and a value,
    whose forward nodes are lists of them, whose relay acknowledges, whose
    image [missing.png] cannot be built, and whose download leaves three
    entries in the temporary directory. *)
Definition downloaded : list Cli.entry :=
  [Cli.Entry "/tmp/nap-msg-video-1/a.MP4" true ".MP4" 100;
   Cli.Entry "/tmp/nap-msg-video-1/notes.txt" true ".txt" 900;
   Cli.Entry "/tmp/nap-msg-video-1/b.webm" true ".webm" 300;
   Cli.Entry "/tmp/nap-msg-video-1/c.mkv" false ".mkv" 700].

Definition acknowledged : json := JDict {[ "status" := JStr "ok" ]}.

Definition shell_with (text : string -> Rpc.outcome (string * string))
  : @Cli.world (string * string) (list (string * string)) :=
  {| Cli.environ := ∅;
     Cli.ReplyMessage := fun v => Rpc.Returns ("reply", v);
     Cli.TextMessage := text;
     Cli.ImageMessage :=
       fun v => if String.eqb v "missing.png"
                then Rpc.Fails "missing.png: no such file"
                else Rpc.Returns ("image", v);
     Cli.VideoMessage := fun v => Rpc.Returns ("video", v);
     Cli.FileMessage := fun v => Rpc.Returns ("file", v);
     Cli.ForwardNode := fun _ _ content => Rpc.Returns content;
     Cli.as_dict :=
       fun p => Some (Rpc.Returns
                        (JDict (list_to_map [("type", JStr p.1);
                                             ("data", JStr p.2)])));
     Cli.NapcatRelayClient := fun url timeout => Rpc.Returns (Rpc.Client url timeout);
     Cli.send_group_forward_message := fun _ _ _ => Rpc.Returns acknowledged;
     Cli.send_group_message := fun _ _ _ => Rpc.Returns acknowledged;
     Cli.send_private_message := fun _ _ _ => Rpc.Returns acknowledged;
     Cli.lower := ascii_lower;
     Cli.mkdtemp := Rpc.Returns "/tmp/nap-msg-video-1";
     Cli.token_hex := "0badcafe";
     Cli.extract_info := fun _ _ => Rpc.Fails "offline";
     Cli.download := fun _ _ => Rpc.Returns (JInt 0);
     Cli.iterdir := fun _ => Rpc.Returns downloaded |}.

Definition shell := shell_with (fun v => Rpc.Returns ("text", v)).

(** The same command line when no text message can be built. *)
Definition mute := shell_with (fun _ => Rpc.Fails "text refused").

Definition text_and_missing_image : list (string * string) :=
  [("text", "hello"); ("sticker", "wave"); ("image", "missing.png")].

(** The text of the lone surrogate U+D800, as the three bytes that
    [surrogatepass] gives it, a request that carries it as id, and a
    [sys.stdout] encoded in UTF-8, which refuses a Response under that id. *)
Definition lone_surrogate : string :=
  String (ascii_of_N 237) (String (ascii_of_N 160) (String (ascii_of_N 128) "")).

Definition chats_list (req_id : json) : gmap string json :=
  list_to_map [("id", req_id); ("method", JStr "chats.list")].

Definition utf8_stdout (obj : json) : Rpc.outcome unit :=
  match obj with
  | JDict d =>
      match d !! "id" with
      | Some (JStr s) =>
          if String.eqb s lone_surrogate then
            Rpc.Fails "'utf-8' codec can't encode character '\ud800' in position 26: surrogates not allowed"
          else Rpc.Returns tt
      | _ => Rpc.Returns tt
      end
  | _ => Rpc.Returns tt
  end.

Definition rpc_args : Cli.Namespace :=
  {| Cli.command := Cli.RpcCommand;
     Cli.napcat_url := JNull;
     Cli.timeout := JNull;
     Cli.segments := None;
     Cli.user_id := EmptyString;
     Cli.group_id := EmptyString;
     Cli.type_ := "normal";
     Cli.forward := false |}.

Definition send_args (segs : option (list (string * string))) : Cli.Namespace :=
  {| Cli.command := Cli.Send;
     Cli.napcat_url := JStr "ws://127.0.0.1:3001";
     Cli.timeout := JNull;
     Cli.segments := segs;
     Cli.user_id := "456";
     Cli.group_id := "123";
     Cli.type_ := "normal";
     Cli.forward := false |}.

End Cases.

(* ===================================================================== *)
(** * Properties of the dispatcher *)
(* ===================================================================== *)

Section RpcFacts.
Import Py Rpc.

#[local] Notation "x <- c ;; k" := (bind c (fun x => k))
  (at level 90, c at next level, right associativity).

(** ** Computations that write nothing *)

Lemma silent_ret {A} (a : A) : silent (ret a).
Proof. intros st. reflexivity. Qed.

Lemma silent_raise {A} (e : exn) : silent (@raise A e).
Proof. intros st. reflexivity. Qed.

Lemma silent_lift {A} (r : result A) : silent (lift r).
Proof. intros st. reflexivity. Qed.

Lemma silent_await {A} (o : outcome A) : silent (await o).
Proof. destruct o; intros st; reflexivity. Qed.

Lemma silent_bind {A B} (c : M A) (k : A -> M B) :
  silent c -> (forall a, silent (k a)) -> silent (bind c k).
Proof.
  intros Hc Hk st. unfold bind. specialize (Hc st).
  destruct (c st) as [st' [a | e]]; simpl in *.
  - rewrite Hk. exact Hc.
  - exact Hc.
Qed.

Lemma silent_try_except {A} (body : M A) (handler : exn -> M A) :
  silent body -> (forall e, silent (handler e)) -> silent (try_except body handler).
Proof.
  intros Hb Hh st. unfold try_except. specialize (Hb st).
  destruct (body st) as [st' [a | e]]; simpl in *; [exact Hb |].
  destruct (is_Exception e); simpl; [rewrite Hh |]; exact Hb.
Qed.

Lemma silent_write_result result : silent (_write_result JNull result).
Proof. intros st. reflexivity. Qed.

Lemma silent_write_error code message : silent (_write_error JNull code message).
Proof. intros st. reflexivity. Qed.

Lemma silent_stop_watch : silent _stop_watch.
Proof.
  intros st. unfold _stop_watch.
  destruct (_watch_task st) as [t |]; [| reflexivity].
  destruct (cancel_and_await t) as [t' [u | e]]; [reflexivity |].
  destruct (exn_cls e); reflexivity.
Qed.

Lemma silent_create_task args : silent (create_task args).
Proof. intros st. reflexivity. Qed.

Lemma silent_if {A} (b : bool) (c1 c2 : M A) :
  silent c1 -> silent c2 -> silent (if b then c1 else c2).
Proof. destruct b; auto. Qed.

Lemma silent_option {A B} (o : option A) (f : A -> M B) (c : M B) :
  (forall a, silent (f a)) -> silent c ->
  silent (match o with Some a => f a | None => c end).
Proof. destruct o; auto. Qed.

Create HintDb silent.
#[local] Hint Resolve silent_ret silent_raise silent_lift silent_await
  silent_write_result silent_write_error silent_stop_watch
  silent_create_task : silent.
#[local] Hint Extern 2 (silent (bind _ _)) =>
  apply silent_bind; [| intros ?] : silent.
#[local] Hint Extern 2 (silent (try_except _ _)) =>
  apply silent_try_except; [| intros ?] : silent.
#[local] Hint Extern 2 (silent (if _ then _ else _)) =>
  apply silent_if : silent.
#[local] Hint Extern 2 (silent (match _ with Some _ => _ | None => _ end)) =>
  apply silent_option; [intros ? |] : silent.

Lemma silent_handle_send w params : silent (_handle_send w params JNull).
Proof. unfold _handle_send. auto 30 with silent. Qed.

Lemma silent_handle_message_send w params :
  silent (_handle_message_send w params JNull).
Proof.
  unfold _handle_message_send.
  pose proof (silent_handle_send w) as Hsend. auto 30 with silent.
Qed.

Lemma silent_handle_subscribe w params :
  silent (_handle_subscribe w params JNull).
Proof. unfold _handle_subscribe. auto 30 with silent. Qed.

Lemma silent_handle_unsubscribe : silent (_handle_unsubscribe JNull).
Proof. unfold _handle_unsubscribe. auto 30 with silent. Qed.

Lemma silent_handle_request w (request : gmap string json) :
  default JNull (request !! "id") = JNull ->
  silent (_handle_request w (JDict request)).
Proof.
  intros Hid st. unfold _handle_request, bind, lift, get. rewrite Hid.
  pose proof (silent_handle_send w) as Hsend.
  pose proof (silent_handle_message_send w) as Hmsg.
  pose proof (silent_handle_subscribe w) as Hsub.
  pose proof silent_handle_unsubscribe as Hunsub.
  repeat match goal with
         | |- context [if ?b then _ else _] => destruct b
         end;
    first [reflexivity | apply Hsend | apply Hmsg | apply Hsub | apply Hunsub].
Qed.

Lemma silent_dispatch w (request : gmap string json) :
  default JNull (request !! "id") = JNull ->
  silent (dispatch w (JDict request)).
Proof.
  intros Hid. unfold dispatch. apply silent_try_except.
  - apply silent_handle_request, Hid.
  - intros e st. unfold bind, lift, get. rewrite Hid. reflexivity.
Qed.

(** C6. A request object whose ["id"] is absent or null: handling it writes
    nothing at all to the output stream, whatever the method, the parameters,
    the collaborators' answers and the state of the subscription, hence no
    Response line on the success path nor on any error path. *)
Theorem no_response_without_id w (request : gmap string json) st :
  request !! "id" = None \/ request !! "id" = Some JNull ->
  stdout (dispatch w (JDict request) st).1 = stdout st.
Proof.
  intros Hid. apply silent_dispatch.
  destruct Hid as [-> | ->]; reflexivity.
Qed.

(** ** What the handlers compute *)

Lemma or_dict_empty (p : gmap string json) : or_ (JDict p) (JDict ∅) = JDict p.
Proof.
  unfold or_, truthy. case_bool_decide; [subst |]; reflexivity.
Qed.

Lemma eq_str_true v s : eq_str v s = true -> v = JStr s.
Proof.
  destruct v; simpl; try discriminate.
  intros H. apply String.eqb_eq in H. congruence.
Qed.

Lemma is_None_false v : v <> JNull -> is_None v = false.
Proof. destruct v; simpl; congruence. Qed.

Lemma write_error_id req_id code message :
  is_None req_id = false ->
  _write_error req_id code message
  = _write_json (response_error req_id code message).
Proof. intros H. unfold _write_error. rewrite H. reflexivity. Qed.

Lemma write_result_id req_id result :
  is_None req_id = false ->
  _write_result req_id result = _write_json (response_result req_id result).
Proof. intros H. unfold _write_result. rewrite H. reflexivity. Qed.

Lemma dispatch_unfold w (request : gmap string json) st :
  dispatch w (JDict request) st
  = try_except
      (_handle_request w (JDict request))
      (fun exc => _write_error (arg request "id") (-32000) (exn_str exc)) st.
Proof. reflexivity. Qed.

Lemma handle_request_send w (request : gmap string json) :
  request !! "method" = Some (JStr "send") ->
  _handle_request w (JDict request)
  = _handle_send w (or_ (arg request "params") (JDict ∅)) (arg request "id").
Proof.
  intros Hm. unfold _handle_request, bind, lift, get. rewrite Hm. reflexivity.
Qed.

Lemma handle_request_message_send w (request : gmap string json) :
  request !! "method" = Some (JStr "message.send") ->
  _handle_request w (JDict request)
  = _handle_message_send w (or_ (arg request "params") (JDict ∅))
      (arg request "id").
Proof.
  intros Hm. unfold _handle_request, bind, lift, get. rewrite Hm. reflexivity.
Qed.

Lemma handle_request_subscribe w (request : gmap string json) :
  request !! "method" = Some (JStr "watch.subscribe") ->
  _handle_request w (JDict request)
  = _handle_subscribe w (or_ (arg request "params") (JDict ∅))
      (arg request "id").
Proof.
  intros Hm. unfold _handle_request, bind, lift, get. rewrite Hm. reflexivity.
Qed.

Lemma handle_request_unsubscribe w (request : gmap string json) :
  request !! "method" = Some (JStr "watch.unsubscribe") ->
  _handle_request w (JDict request) = _handle_unsubscribe (arg request "id").
Proof.
  intros Hm. unfold _handle_request, bind, lift, get. rewrite Hm. reflexivity.
Qed.

(** C2.  A [send] request that carries an id and whose parameters are
    rejected (the list its channel requires is absent or empty, or the
    channel is none of [group], [group_forward], [private]; the parameters
    may be missing altogether): the dispatcher writes exactly one line, an
    error Response, but its code is -32000, the code of a handler fault,
    where the sibling [_handle_message_send] answers its own missing
    parameters with -32602.  The [ValueError] is raised inside the [try] of
    [_handle_send], whose [except] clause writes -32000 with the text of the
    exception; when the relay client cannot even be built, before that [try],
    the text is the one of that failure, under the same code. *)
Theorem send_invalid_params_answers_32000 w (request p : gmap string json)
    req_id st :
  request !! "method" = Some (JStr "send") ->
  request !! "id" = Some req_id ->
  req_id <> JNull ->
  or_ (arg request "params") (JDict ∅) = JDict p ->
  send_params_invalid p ->
  dispatch w (JDict request) st
  = _write_json
      (response_error req_id (-32000)
         (match NapcatRelayClient w (arg p "napcat_url") (arg p "timeout") with
          | Returns _ => rejection p
          | Fails msg => msg
          end))
      st.
Proof.
  intros Hm Hid Hnn Hp Hbad.
  assert (Harg : arg request "id" = req_id)
    by (unfold arg; rewrite Hid; reflexivity).
  rewrite dispatch_unfold, (handle_request_send _ _ Hm), Hp, !Harg.
  pose proof (is_None_false _ Hnn) as Hsome.
  unfold send_params_invalid in Hbad. unfold rejection. unfold arg in *.
  unfold try_except at 1. unfold _handle_send, bind, lift, get.
  destruct (NapcatRelayClient w _ _) as [c | msg]; simpl.
  - set (channel := infer_channel _ _ _) in *.
    unfold try_except, bind, lift, raise, ret.
    destruct Hbad as [[Hc Hl] | [[Hc Hl] | (Hf & Hg & Hv)]].
    + rewrite Hc, Hl. simpl. rewrite write_error_id by exact Hsome.
      reflexivity.
    + destruct Hc as [Hc | Hc]; apply eq_str_true in Hc; rewrite Hc; simpl;
        rewrite Hl; simpl; rewrite write_error_id by exact Hsome;
        reflexivity.
    + rewrite Hf, Hg, Hv. simpl. rewrite write_error_id by exact Hsome.
      reflexivity.
  - rewrite write_error_id by exact Hsome. reflexivity.
Qed.

(** The test case of the specification,
    [send{channel:"group_forward", group_id:"123", messages:[]}]. *)
Lemma send_invalid_params_answers_32000_witness :
  send_params_invalid Scenario.forward_without_messages
  /\ dispatch Scenario.relay
       (JDict (Scenario.request "send" (JInt 1)
                 Scenario.forward_without_messages))
       __init__
     = _write_json
         (response_error (JInt 1) (-32000)
            "messages is required for group_forward")
         __init__.
Proof.
  assert (H : send_params_invalid Scenario.forward_without_messages)
    by (left; split; reflexivity).
  split; [exact H |].
  apply (send_invalid_params_answers_32000 Scenario.relay
           (Scenario.request "send" (JInt 1) Scenario.forward_without_messages)
           Scenario.forward_without_messages (JInt 1) __init__);
    [reflexivity | reflexivity | discriminate | reflexivity | exact H].
Defined.

(** The code written for that request, read back from the output. *)
Example send_forward_without_messages_code :
  map error_code
    (stdout (dispatch Scenario.relay
               (JDict (Scenario.request "send" (JInt 1)
                         Scenario.forward_without_messages))
               __init__).1)
  = [Some (-32000)].
Proof. vm_compute. reflexivity. Qed.

(** A [send] without any parameters is rejected in the same way. *)
Example send_without_params_code :
  map error_code
    (stdout (dispatch Scenario.relay
               (JDict (list_to_map [("id", JInt 1); ("method", JStr "send")]))
               __init__).1)
  = [Some (-32000)].
Proof. vm_compute. reflexivity. Qed.

(** ** [message.send] *)

(** C9. A [message.send] whose target ([to], else [chatId], else [chat_id])
    is truthy and whose text is not null is handed to [_handle_send] with
    the channel [group] exactly when [isGroup] is truthy and [private]
    otherwise, the target in [group_id] or in [user_id] accordingly, and the
    single text segment as message; with a falsy target or a null text the
    handler reports the error -32602 instead and calls nothing else. *)
Theorem message_send_normalizes w (p : gmap string json) req_id st :
  let target := or_ (or_ (arg p "to") (arg p "chatId")) (arg p "chat_id") in
  let text := arg p "text" in
  (truthy target = true -> text <> JNull ->
   _handle_message_send w (JDict p) req_id st
   = _handle_send w
       (normalized target text (truthy (arg p "isGroup"))
          (arg p "napcat_url") (arg p "timeout"))
       req_id st)
  /\ (truthy target = false \/ text = JNull ->
      _handle_message_send w (JDict p) req_id st
      = _write_error req_id (-32602) "to/chatId and text are required" st
      /\ (req_id <> JNull ->
          _handle_message_send w (JDict p) req_id st
          = _write_json
              (response_error req_id (-32602) "to/chatId and text are required")
              st)).
Proof.
  intros target text. unfold _handle_message_send, bind, lift, get.
  fold (arg p "to") (arg p "chatId") (arg p "chat_id") (arg p "text")
       (arg p "isGroup") (arg p "napcat_url") (arg p "timeout").
  fold target text. split.
  - intros Ht Hx. rewrite Ht. simpl negb.
    rewrite (is_None_false _ Hx). simpl orb. cbv iota.
    unfold normalized. destruct (truthy (arg p "isGroup")); reflexivity.
  - intros Hbad.
    assert (Hcond : negb (truthy target) || is_None text = true).
    { destruct Hbad as [-> | ->]; [reflexivity |].
      destruct (truthy target); reflexivity. }
    rewrite Hcond. split; [reflexivity |].
    intros Hid. rewrite write_error_id by (apply is_None_false, Hid).
    reflexivity.
Qed.



(** What the normalized parameters hold, as [_handle_send] reads them. *)
Lemma normalized_get target text is_group napcat_url timeout :
  let params := normalized target text is_group napcat_url timeout in
  get params "channel" = Ok (JStr (if is_group then "group" else "private"))
  /\ get params "type" = Ok JNull
  /\ get params "group_id" = Ok (if is_group then target else JNull)
  /\ get params "user_id" = Ok (if is_group then JNull else target)
  /\ get params "timeout" = Ok timeout
  /\ get params "napcat_url" = Ok napcat_url
  /\ get params "message"
     = Ok (JList [JDict (list_to_map
                           [("type", JStr "text");
                            ("data", JDict (list_to_map [("text", text)]))])]).
Proof. repeat split; reflexivity. Qed.

(** The delegation, followed into [_handle_send]: a [message.send] to a
    group is one call of [send_group_message] with the target as group id,
    a [message.send] to a user one call of [send_private_message] with the
    target as user id, each with the single text segment; the answer of the
    relay is written back as result, its failure as error -32000. *)
Lemma message_send_reaches_relay w (p : gmap string json) req_id st c :
  let target := or_ (or_ (arg p "to") (arg p "chatId")) (arg p "chat_id") in
  let text := arg p "text" in
  let message :=
    JList [JDict (list_to_map
                    [("type", JStr "text");
                     ("data", JDict (list_to_map [("text", text)]))])] in
  truthy target = true -> text <> JNull -> req_id <> JNull ->
  NapcatRelayClient w (arg p "napcat_url") (arg p "timeout") = Returns c ->
  _handle_message_send w (JDict p) req_id st
  = match (if truthy (arg p "isGroup")
           then send_group_message w c target message
           else send_private_message w c target message) with
    | Returns result => _write_json (response_result req_id result) st
    | Fails msg => _write_json (response_error req_id (-32000) msg) st
    end.
Proof.
  intros target text message Ht Hx Hid Hc.
  unfold _handle_message_send, bind, lift, get.
  fold (arg p "to") (arg p "chatId") (arg p "chat_id") (arg p "text")
       (arg p "isGroup") (arg p "napcat_url") (arg p "timeout").
  fold target text. rewrite Ht. simpl negb.
  rewrite (is_None_false _ Hx). simpl orb. cbv iota.
  fold (normalized target text (truthy (arg p "isGroup"))
          (arg p "napcat_url") (arg p "timeout")).
  destruct (normalized_get target text (truthy (arg p "isGroup"))
              (arg p "napcat_url") (arg p "timeout"))
    as (Hch & Hty & Hg & Hu & Hto & Hurl & Hmsg).
  unfold _handle_send, bind, lift.
  rewrite Hch, Hty, Hg, Hu, Hto, Hurl, Hc. simpl await. unfold ret at 1.
  unfold try_except, bind, lift. rewrite Hmsg.
  pose proof (is_None_false _ Hid) as Hsome.
  destruct (truthy (arg p "isGroup")); simpl.
  - destruct (send_group_message w c target _) as [result | msg]; simpl.
    + rewrite write_result_id by exact Hsome. reflexivity.
    + rewrite write_error_id by exact Hsome. reflexivity.
  - destruct (send_private_message w c target _) as [result | msg]; simpl.
    + rewrite write_result_id by exact Hsome. reflexivity.
    + rewrite write_error_id by exact Hsome. reflexivity.
Qed.

(** ** The subscription handle *)

Lemma stop_watch_clears st : _watch_task (_stop_watch st).1 = None.
Proof.
  unfold _stop_watch. destruct (_watch_task st) as [t |] eqn:Ht; [| exact Ht].
  destruct (cancel_and_await t) as [t' [u | e]]; [reflexivity |].
  destruct (exn_cls e); reflexivity.
Qed.

(** Unless the watcher held has ended with a fault, [_stop_watch] returns. *)
Lemma stop_watch_returns st :
  watcher_faulted st = false -> (_stop_watch st).2 = Ok tt.
Proof.
  unfold watcher_faulted, watcher_state, _stop_watch, cancel_and_await.
  destruct (_watch_task st) as [t |]; simpl; [| reflexivity].
  destruct (task_state t); simpl; try reflexivity. discriminate.
Qed.

(** When it has, the fault comes out of [_stop_watch]. *)
Lemma stop_watch_reraises st t msg :
  _watch_task st = Some t -> task_state t = Faulted msg ->
  (_stop_watch st).2 = Raise (Exn ExternalError msg).
Proof.
  intros Ht Hs. unfold _stop_watch, cancel_and_await. rewrite Ht, Hs.
  reflexivity.
Qed.

Lemma stop_watch_detaches st t :
  _watch_task st = Some t ->
  detached (_stop_watch st).1 = detached st ++ [(cancel_and_await t).1].
Proof.
  intros Ht. unfold _stop_watch. rewrite Ht.
  destruct (cancel_and_await t) as [t' [u | e]]; [reflexivity |].
  destruct (exn_cls e); reflexivity.
Qed.

Lemma surjective_pairing_M {A} (x : server * result A) : x = (x.1, x.2).
Proof. destruct x; reflexivity. Qed.

(** Where the handle is empty or holds a watcher that has not ended with a
    fault (one that is running, has returned or was cancelled),
    [watch.unsubscribe] with an id does what the specification asks: the
    handle is cleared, the watcher held is cancelled and awaited, its
    cancellation is swallowed, and the one line written is the result
    [{status: "unsubscribed"}]. *)
Lemma unsubscribe_answers_unsubscribed w (request : gmap string json)
    req_id st :
  request !! "method" = Some (JStr "watch.unsubscribe") ->
  request !! "id" = Some req_id ->
  req_id <> JNull ->
  watcher_faulted st = false ->
  dispatch w (JDict request) st
  = _write_json
      (response_result req_id
         (JDict (list_to_map [("status", JStr "unsubscribed")])))
      (_stop_watch st).1
  /\ _watch_task (dispatch w (JDict request) st).1 = None
  /\ forall t, _watch_task st = Some t ->
       detached (dispatch w (JDict request) st).1
       = detached st ++ [(cancel_and_await t).1].
Proof.
  intros Hm Hid Hnn Hok.
  assert (Heq : dispatch w (JDict request) st
                = _write_json
                    (response_result req_id
                       (JDict (list_to_map [("status", JStr "unsubscribed")])))
                    (_stop_watch st).1).
  { rewrite dispatch_unfold, (handle_request_unsubscribe _ _ Hm).
    unfold arg. rewrite Hid. simpl default.
    unfold try_except, _handle_unsubscribe, bind.
    pose proof (stop_watch_returns st Hok) as Hret.
    rewrite (surjective_pairing_M (_stop_watch st)), Hret.
    rewrite write_result_id by (apply is_None_false, Hnn). reflexivity. }
  rewrite Heq. split; [reflexivity |]. split.
  - simpl. apply stop_watch_clears.
  - intros t Ht. simpl. apply stop_watch_detaches, Ht.
Qed.

Example unsubscribe_while_subscribed :
  watcher_faulted Scenario.subscribed = false
  /\ stdout (dispatch Scenario.relay
              (JDict (Scenario.request "watch.unsubscribe" (JInt 7) ∅))
              Scenario.subscribed).1
     = [response_result (JInt 7)
          (JDict (list_to_map [("status", JStr "unsubscribed")]))].
Proof.
  split; [reflexivity |].
  destruct (unsubscribe_answers_unsubscribed Scenario.relay
              (Scenario.request "watch.unsubscribe" (JInt 7) ∅)
              (JInt 7) Scenario.subscribed)
    as [Heq _]; [reflexivity | reflexivity | discriminate | reflexivity |].
  rewrite Heq. reflexivity.
Qed.

(** When the watcher held has ended with a fault, the fault comes out of
    [await task], [_stop_watch] lets it pass and the dispatch boundary
    answers with the error -32000 that carries its text. *)
Lemma unsubscribe_on_faulted_watcher w (request : gmap string json) req_id st
    t msg :
  request !! "method" = Some (JStr "watch.unsubscribe") ->
  request !! "id" = Some req_id ->
  req_id <> JNull ->
  _watch_task st = Some t ->
  task_state t = Faulted msg ->
  dispatch w (JDict request) st
  = ({| _watch_task := None;
        detached := detached st ++ [t];
        stdout := stdout st ++ [response_error req_id (-32000) msg] |},
     Ok tt).
Proof.
  intros Hm Hid Hnn Ht Hs.
  rewrite dispatch_unfold, (handle_request_unsubscribe _ _ Hm).
  unfold arg. rewrite Hid. simpl default.
  unfold try_except, _handle_unsubscribe, bind.
  unfold _stop_watch, cancel_and_await. rewrite Ht, Hs. simpl.
  rewrite write_error_id by (apply is_None_false, Hnn). reflexivity.
Qed.

(** C7.  [watch.unsubscribe] is not idempotent over every state.  In any
    state whose watcher is running, let the watcher's coroutine end with an
    exception (the fault that closes the event-stream connection) and let
    a [watch.unsubscribe] with an id follow: [task.cancel()] has no effect on
    the finished task, [await task] re-raises the exception, [_stop_watch]
    swallows [CancelledError] only, and the request is answered by the error
    -32000 with the text of the fault and not by [{status: "unsubscribed"}].
    The handle is empty afterwards. *)
Theorem unsubscribe_after_watcher_fault_answers_32000 w
    (request : gmap string json) req_id st t msg :
  request !! "method" = Some (JStr "watch.unsubscribe") ->
  request !! "id" = Some req_id ->
  req_id <> JNull ->
  _watch_task st = Some t ->
  task_state t = Running ->
  run [WatcherEnds None (Some msg); Request w (JDict request)] st
  = ({| _watch_task := None;
        detached := detached st
                      ++ [{| task_args := task_args t;
                             task_state := Faulted msg |}];
        stdout := stdout st ++ [response_error req_id (-32000) msg] |},
     Ok tt).
Proof.
  intros Hm Hid Hnn Ht Hrun.
  unfold run, step, task_at. rewrite Ht.
  unfold is_running. rewrite Hrun.
  rewrite (unsubscribe_on_faulted_watcher w request req_id
             (set_task None (end_task (Some msg) t) st)
             (end_task (Some msg) t) msg Hm Hid Hnn eq_refl eq_refl).
  reflexivity.
Qed.

Lemma unsubscribe_after_watcher_fault_answers_32000_witness :
  run [WatcherEnds None (Some "connection closed");
       Request Scenario.relay
         (JDict (Scenario.request "watch.unsubscribe" (JInt 7) ∅))]
    Scenario.subscribed
  = ({| _watch_task := None;
        detached := [Task Scenario.watch_args (Faulted "connection closed")];
        stdout := [response_error (JInt 7) (-32000) "connection closed"] |},
     Ok tt).
Proof.
  apply (unsubscribe_after_watcher_fault_answers_32000 Scenario.relay
           (Scenario.request "watch.unsubscribe" (JInt 7) ∅) (JInt 7)
           Scenario.subscribed (Task Scenario.watch_args Running)
           "connection closed");
    [reflexivity | reflexivity | discriminate | reflexivity | reflexivity].
Defined.

(** The same from the start: a subscription, the fault, the request. *)
Example unsubscribe_after_watcher_fault_from_start :
  map error_code
    (stdout (run [Request Scenario.relay
                    (JDict (Scenario.request "watch.subscribe" (JInt 6) ∅));
                  WatcherEnds None (Some "connection closed");
                  Request Scenario.relay
                    (JDict (Scenario.request "watch.unsubscribe" (JInt 7) ∅))]
               __init__).1)
  = [None; Some (-32000)].
Proof. vm_compute. reflexivity. Qed.

(** In that state too the handle is empty afterwards. *)
Lemma unsubscribe_clears_handle w (request : gmap string json) st :
  request !! "method" = Some (JStr "watch.unsubscribe") ->
  _watch_task (dispatch w (JDict request) st).1 = None.
Proof.
  intros Hm. rewrite dispatch_unfold, (handle_request_unsubscribe _ _ Hm).
  unfold try_except, _handle_unsubscribe, bind.
  pose proof (stop_watch_clears st) as Hc.
  destruct (_stop_watch st) as [st1 [u | e]]; simpl in *.
  - unfold _write_result. destruct (is_None _); exact Hc.
  - destruct (is_Exception e); [| exact Hc].
    unfold _write_error. destruct (is_None _); exact Hc.
Qed.

(** C10. A [watch.subscribe] with an id for which no gateway is resolvable
    (the [napcat_url] parameter and the [NAPCAT_URL] variable are absent, or
    falsy), issued while a subscription is running: the running watcher is
    cancelled and detached before the endpoint is looked at, the one line
    written is the error -32000 "NAPCAT_URL is required", no task is created,
    and the handle is left empty: no subscription is active any more. *)
Theorem subscribe_without_gateway_drops_subscription w
    (request p : gmap string json) req_id st t :
  request !! "method" = Some (JStr "watch.subscribe") ->
  request !! "id" = Some req_id ->
  req_id <> JNull ->
  or_ (arg request "params") (JDict ∅) = JDict p ->
  truthy (or_ (arg p "napcat_url") (getenv (environ w) "NAPCAT_URL")) = false ->
  _watch_task st = Some t ->
  task_state t = Running ->
  active st = 1%nat ->
  dispatch w (JDict request) st
  = ({| _watch_task := None;
        detached := detached st ++ [{| task_args := task_args t;
                                        task_state := Cancelled |}];
        stdout := stdout st
                    ++ [response_error req_id (-32000) "NAPCAT_URL is required"] |},
     Ok tt)
  /\ active (dispatch w (JDict request) st).1 = 0%nat.
Proof.
  intros Hm Hid Hnn Hp Hurl Ht Hrun Hact.
  assert (Heq : dispatch w (JDict request) st
    = ({| _watch_task := None;
          detached := detached st ++ [{| task_args := task_args t;
                                          task_state := Cancelled |}];
          stdout := stdout st
                      ++ [response_error req_id (-32000) "NAPCAT_URL is required"] |},
       Ok tt)).
  { rewrite dispatch_unfold, (handle_request_subscribe _ _ Hm), Hp.
    unfold arg at 1. rewrite Hid. simpl default.
    unfold try_except, _handle_subscribe, bind, lift, get.
    unfold _stop_watch, cancel_and_await. rewrite Ht, Hrun. simpl.
    fold (arg p "napcat_url"). rewrite Hurl. simpl.
    rewrite write_error_id by (apply is_None_false, Hnn). reflexivity. }
  split; [exact Heq |].
  rewrite Heq. simpl. unfold active in *. rewrite Ht in Hact.
  unfold is_running in Hact at 1. rewrite Hrun in Hact. simpl.
  rewrite filter_app, length_app. simpl. lia.
Qed.

Lemma subscribe_without_gateway_drops_subscription_witness :
  active Scenario.subscribed = 1%nat
  /\ active (dispatch Scenario.relay_without_gateway
              (JDict (Scenario.request "watch.subscribe" (JInt 3) ∅))
              Scenario.subscribed).1 = 0%nat.
Proof.
  split; [reflexivity |].
  destruct (subscribe_without_gateway_drops_subscription
              Scenario.relay_without_gateway
              (Scenario.request "watch.subscribe" (JInt 3) ∅) ∅ (JInt 3)
              Scenario.subscribed
              (Task Scenario.watch_args Running))
    as [_ Hact];
    [reflexivity | reflexivity | discriminate | reflexivity | reflexivity
    | reflexivity | reflexivity | reflexivity |].
  exact Hact.
Defined.

(** ** What can be raised *)

Lemma exn_ret {A} (a : A) : raises_exceptions (ret a).
Proof. intros st e H. discriminate. Qed.

Lemma exn_raise {A} (e : exn) :
  is_Exception e = true -> raises_exceptions (@raise A e).
Proof. intros He st e' H. simpl in H. congruence. Qed.

Lemma exn_get v k : raises_exceptions (lift (get v k)).
Proof.
  intros st e H. unfold lift, get in H. simpl in H.
  destruct v; inversion H; reflexivity.
Qed.

Lemma exn_await {A} (o : outcome A) : raises_exceptions (await o).
Proof. destruct o; intros st e H; inversion H; reflexivity. Qed.

Lemma exn_bind {A B} (c : M A) (k : A -> M B) :
  raises_exceptions c -> (forall a, raises_exceptions (k a)) ->
  raises_exceptions (bind c k).
Proof.
  intros Hc Hk st e. unfold bind. specialize (Hc st).
  destruct (c st) as [st' [a | e']]; simpl in *.
  - apply Hk.
  - intros H. inversion H. subst e'. apply Hc. reflexivity.
Qed.

Lemma exn_try_except {A} (body : M A) (handler : exn -> M A) :
  raises_exceptions body -> (forall e, raises_exceptions (handler e)) ->
  raises_exceptions (try_except body handler).
Proof.
  intros Hb Hh st e. unfold try_except. specialize (Hb st).
  destruct (body st) as [st' [a | e']]; simpl in *; [discriminate |].
  destruct (is_Exception e') eqn:He; [apply Hh |].
  intros H. inversion H. subst e'. apply Hb. reflexivity.
Qed.

Lemma exn_write_json obj : raises_exceptions (_write_json obj).
Proof. intros st e H. discriminate. Qed.

Lemma exn_write_result req_id result :
  raises_exceptions (_write_result req_id result).
Proof.
  unfold _write_result. destruct (is_None req_id);
    [apply exn_ret | apply exn_write_json].
Qed.

Lemma exn_write_error req_id code message :
  raises_exceptions (_write_error req_id code message).
Proof.
  unfold _write_error. destruct (is_None req_id);
    [apply exn_ret | apply exn_write_json].
Qed.

(** The cancellation is swallowed: only a fault of the watcher comes out. *)
Lemma exn_stop_watch : raises_exceptions _stop_watch.
Proof.
  intros st e. unfold _stop_watch, cancel_and_await.
  destruct (_watch_task st) as [t |]; simpl; [| discriminate].
  destruct (task_state t); simpl; try discriminate.
  intros H. inversion H. reflexivity.
Qed.

Lemma exn_create_task args : raises_exceptions (create_task args).
Proof. intros st e H. discriminate. Qed.

Lemma exn_if {A} (b : bool) (c1 c2 : M A) :
  raises_exceptions c1 -> raises_exceptions c2 ->
  raises_exceptions (if b then c1 else c2).
Proof. destruct b; auto. Qed.

Lemma exn_option {A B} (o : option A) (f : A -> M B) (c : M B) :
  (forall a, raises_exceptions (f a)) -> raises_exceptions c ->
  raises_exceptions (match o with Some a => f a | None => c end).
Proof. destruct o; auto. Qed.

Create HintDb raises.
#[local] Hint Resolve exn_ret exn_get exn_await exn_write_json
  exn_write_result exn_write_error exn_stop_watch exn_create_task : raises.
#[local] Hint Extern 2 (raises_exceptions (raise _)) =>
  apply exn_raise; reflexivity : raises.
#[local] Hint Extern 2 (raises_exceptions (bind _ _)) =>
  apply exn_bind; [| intros ?] : raises.
#[local] Hint Extern 2 (raises_exceptions (try_except _ _)) =>
  apply exn_try_except; [| intros ?] : raises.
#[local] Hint Extern 2 (raises_exceptions (if _ then _ else _)) =>
  apply exn_if : raises.
#[local] Hint Extern 2
  (raises_exceptions (match _ with Some _ => _ | None => _ end)) =>
  apply exn_option; [intros ? |] : raises.

Lemma exn_handle_send w params req_id :
  raises_exceptions (_handle_send w params req_id).
Proof. unfold _handle_send. auto 30 with raises. Qed.

Lemma exn_handle_message_send w params req_id :
  raises_exceptions (_handle_message_send w params req_id).
Proof.
  unfold _handle_message_send.
  pose proof (exn_handle_send w) as Hsend. auto 30 with raises.
Qed.

Lemma exn_handle_subscribe w params req_id :
  raises_exceptions (_handle_subscribe w params req_id).
Proof. unfold _handle_subscribe. auto 30 with raises. Qed.

Lemma exn_handle_unsubscribe req_id :
  raises_exceptions (_handle_unsubscribe req_id).
Proof. unfold _handle_unsubscribe. auto 30 with raises. Qed.

Lemma exn_handle_request w request :
  raises_exceptions (_handle_request w request).
Proof.
  unfold _handle_request, _handle_initialize.
  pose proof (exn_handle_send w) as Hsend.
  pose proof (exn_handle_message_send w) as Hmsg.
  pose proof (exn_handle_subscribe w) as Hsub.
  pose proof exn_handle_unsubscribe as Hunsub.
  auto 30 with raises.
Qed.

(** Whatever a request object asks for, [dispatch] returns: what the handler
    raises is an [Exception], the [except] clause catches it, and
    [request.get("id")] succeeds on an object. *)
Lemma dispatch_object_returns w (request : gmap string json) st :
  (dispatch w (JDict request) st).2 = Ok tt.
Proof.
  unfold dispatch, try_except.
  pose proof (exn_handle_request w (JDict request) st) as Hexn.
  destruct (_handle_request w (JDict request) st) as [st1 [[] | e]];
    [reflexivity |]. simpl in Hexn.
  rewrite (Hexn e eq_refl). unfold bind, lift, get, _write_error.
  destruct (is_None _); reflexivity.
Qed.

(** ** At most one subscription *)

Lemma trans_weaken {A} (P Q Q' : option task * list task -> Prop) (c : M A) :
  (forall ts, Q ts -> Q' ts) -> trans P Q c -> trans P Q' c.
Proof. intros HQ Hc st HP. apply HQ, Hc, HP. Qed.

Lemma trans_ret {A} P (a : A) : trans P P (ret a).
Proof. intros st HP. exact HP. Qed.

Lemma trans_raise {A} P (e : exn) : trans P P (@raise A e).
Proof. intros st HP. exact HP. Qed.

Lemma trans_lift {A} P (r : result A) : trans P P (lift r).
Proof. intros st HP. exact HP. Qed.

Lemma trans_await {A} P (o : outcome A) : trans P P (await o).
Proof. destruct o; intros st HP; exact HP. Qed.

Lemma trans_write_json P obj : trans P P (_write_json obj).
Proof. intros st HP. exact HP. Qed.

Lemma trans_write_result P req_id result : trans P P (_write_result req_id result).
Proof.
  unfold _write_result. destruct (is_None req_id);
    [apply trans_ret | apply trans_write_json].
Qed.

Lemma trans_write_error P req_id code message :
  trans P P (_write_error req_id code message).
Proof.
  unfold _write_error. destruct (is_None req_id);
    [apply trans_ret | apply trans_write_json].
Qed.

Lemma trans_bind {A B} P Q R (c : M A) (k : A -> M B) :
  trans P Q c -> (forall a, trans Q R (k a)) -> (forall ts, Q ts -> R ts) ->
  trans P R (bind c k).
Proof.
  intros Hc Hk HQR st HP. unfold bind. specialize (Hc st HP).
  destruct (c st) as [st' [a | e]]; simpl in *.
  - apply Hk, Hc.
  - apply HQR, Hc.
Qed.

Lemma trans_seq {A B} P (c : M A) (k : A -> M B) :
  trans P P c -> (forall a, trans P P (k a)) -> trans P P (bind c k).
Proof. intros Hc Hk. apply (trans_bind P P P); auto. Qed.

Lemma trans_try_except {A} P Q R (body : M A) (handler : exn -> M A) :
  trans P Q body -> (forall e, trans Q R (handler e)) ->
  (forall ts, Q ts -> R ts) ->
  trans P R (try_except body handler).
Proof.
  intros Hb Hh HQR st HP. unfold try_except. specialize (Hb st HP).
  destruct (body st) as [st' [a | e]]; simpl in *; [apply HQR, Hb |].
  destruct (is_Exception e); [apply Hh, Hb | apply HQR, Hb].
Qed.

Lemma trans_if {A} P Q (b : bool) (c1 c2 : M A) :
  trans P Q c1 -> trans P Q c2 -> trans P Q (if b then c1 else c2).
Proof. destruct b; auto. Qed.

Lemma trans_option {A B} P Q (o : option A) (f : A -> M B) (c : M B) :
  (forall a, trans P Q (f a)) -> trans P Q c ->
  trans P Q (match o with Some a => f a | None => c end).
Proof. destruct o; auto. Qed.

Create HintDb tasks.
#[local] Hint Resolve trans_ret trans_raise trans_lift trans_await
  trans_write_json trans_write_result trans_write_error : tasks.
#[local] Hint Extern 2 (trans ?P ?P (bind _ _)) =>
  apply trans_seq; [| intros ?] : tasks.
#[local] Hint Extern 2 (trans ?P ?P (try_except _ _)) =>
  apply (trans_try_except P P P); [| intros ? | auto] : tasks.
#[local] Hint Extern 2 (trans _ _ (if _ then _ else _)) =>
  apply trans_if : tasks.
#[local] Hint Extern 2 (trans _ _ (match _ with Some _ => _ | None => _ end)) =>
  apply trans_option; [intros ? |] : tasks.

(** The handlers that send leave the tasks as they are. *)
Lemma trans_handle_send w P params req_id :
  trans P P (_handle_send w params req_id).
Proof. unfold _handle_send. auto 30 with tasks. Qed.

Lemma trans_handle_message_send w P params req_id :
  trans P P (_handle_message_send w params req_id).
Proof.
  unfold _handle_message_send.
  pose proof (trans_handle_send w P) as Hsend. auto 30 with tasks.
Qed.

Lemma cancel_and_await_stops t : is_running (cancel_and_await t).1 = false.
Proof.
  unfold cancel_and_await, is_running.
  destruct (task_state t) eqn:Hs; simpl; try rewrite Hs; reflexivity.
Qed.

(** [_stop_watch] leaves nothing running. *)
Lemma trans_stop_watch : trans only_handle_runs nothing_runs _stop_watch.
Proof.
  intros st HP. unfold nothing_runs, only_handle_runs, tasks_of in *. simpl in *.
  split; [apply stop_watch_clears |].
  destruct (_watch_task st) as [t |] eqn:Ht.
  - rewrite (stop_watch_detaches st t Ht). apply Forall_app. split; [exact HP |].
    constructor; [apply cancel_and_await_stops | constructor].
  - unfold _stop_watch. rewrite Ht. exact HP.
Qed.

(** Started where nothing runs, [create_task] leaves one task running: the
    one of the handle. *)
Lemma trans_create_task args : trans nothing_runs handle_sound (create_task args).
Proof.
  intros st [Hnone HP]. unfold handle_sound, only_handle_runs, tasks_of in *.
  simpl in *. rewrite Hnone. split; [right; eexists; reflexivity | exact HP].
Qed.

Lemma nothing_runs_sound ts : nothing_runs ts -> handle_sound ts.
Proof. intros [Hn HP]. split; [left; exact Hn | exact HP]. Qed.

Lemma handle_sound_only ts : handle_sound ts -> only_handle_runs ts.
Proof. intros [_ HP]. exact HP. Qed.

Lemma nothing_runs_only ts : nothing_runs ts -> only_handle_runs ts.
Proof. intros [_ HP]. exact HP. Qed.

Lemma trans_handle_subscribe w params req_id :
  trans only_handle_runs handle_sound (_handle_subscribe w params req_id).
Proof.
  unfold _handle_subscribe.
  apply (trans_bind _ nothing_runs); [apply trans_stop_watch | | apply nothing_runs_sound].
  intros _.
  apply (trans_bind _ nothing_runs);
    [apply trans_lift | | apply nothing_runs_sound].
  intros napcat_url. apply trans_if.
  - apply (trans_weaken _ nothing_runs); [apply nothing_runs_sound |].
    apply trans_write_error.
  - apply (trans_bind _ nothing_runs);
      [apply trans_lift | | apply nothing_runs_sound]; intros ?.
    apply (trans_bind _ nothing_runs);
      [apply trans_lift | | apply nothing_runs_sound]; intros ?.
    apply (trans_bind _ nothing_runs);
      [apply trans_lift | | apply nothing_runs_sound]; intros ?.
    apply (trans_bind _ handle_sound);
      [apply trans_create_task | | auto]; intros ?.
    apply trans_write_result.
Qed.

Lemma trans_handle_unsubscribe req_id :
  trans only_handle_runs nothing_runs (_handle_unsubscribe req_id).
Proof.
  unfold _handle_unsubscribe.
  apply (trans_bind _ nothing_runs); [apply trans_stop_watch | | auto].
  intros _. apply trans_write_result.
Qed.

Lemma trans_handle_request w request :
  trans only_handle_runs only_handle_runs (_handle_request w request).
Proof.
  unfold _handle_request.
  pose proof (trans_handle_send w only_handle_runs) as Hsend.
  pose proof (trans_handle_message_send w only_handle_runs) as Hmsg.
  assert (Hsub : forall params req_id,
             trans only_handle_runs only_handle_runs
               (_handle_subscribe w params req_id)).
  { intros. eapply trans_weaken;
      [apply handle_sound_only | apply trans_handle_subscribe]. }
  assert (Hunsub : forall req_id,
             trans only_handle_runs only_handle_runs
               (_handle_unsubscribe req_id)).
  { intros. eapply trans_weaken;
      [apply nothing_runs_only | apply trans_handle_unsubscribe]. }
  unfold _handle_initialize. auto 30 with tasks.
Qed.

Lemma trans_dispatch w request :
  trans only_handle_runs only_handle_runs (dispatch w request).
Proof.
  unfold dispatch. pose proof (trans_handle_request w request).
  auto 30 with tasks.
Qed.

Lemma trans_step ev : trans only_handle_runs only_handle_runs (step ev).
Proof.
  destruct ev as [w request | which w gateway_event | which fault]; intros st HP.
  - apply trans_dispatch, HP.
  - unfold step. destruct (task_at which st) as [t |]; [| exact HP].
    destruct (is_running t); exact HP.
  - unfold step. destruct (task_at which st) as [t |]; [| exact HP].
    destruct (is_running t); [| exact HP].
    unfold only_handle_runs, tasks_of in *. destruct which as [i |]; simpl in *.
    + apply Forall_insert; [exact HP |]. destruct fault; reflexivity.
    + exact HP.
Qed.

Lemma trans_run evs : trans only_handle_runs only_handle_runs (run evs).
Proof.
  induction evs as [| ev evs IH]; intros st HP; simpl; [exact HP |].
  pose proof (trans_step ev st HP) as Hstep.
  destruct (step ev st) as [st' [u | e]]; simpl in *; [apply IH, Hstep | exact Hstep].
Qed.

Lemma no_running_filter (l : list task) :
  Forall (fun t => is_running t = false) l ->
  filter (fun t => is_running t = true) l = [].
Proof.
  induction 1 as [| t l Ht _ IH]; [reflexivity |].
  rewrite filter_cons, IH. rewrite decide_False; [reflexivity | congruence].
Qed.

Lemma active_handle st :
  only_handle_runs (tasks_of st) ->
  active st = match _watch_task st with
              | Some t => if is_running t then 1%nat else 0%nat
              | None => 0%nat
              end.
Proof.
  intros HP. unfold only_handle_runs, tasks_of in HP. simpl in HP.
  unfold active. rewrite (no_running_filter _ HP). simpl. lia.
Qed.

Lemma init_only_handle_runs : only_handle_runs (tasks_of __init__).
Proof. constructor. Qed.

Lemma trans_dispatch_subscribe w (request : gmap string json) :
  request !! "method" = Some (JStr "watch.subscribe") ->
  trans only_handle_runs handle_sound (dispatch w (JDict request)).
Proof.
  intros Hm. unfold dispatch. rewrite (handle_request_subscribe _ _ Hm).
  apply (trans_try_except _ handle_sound);
    [apply trans_handle_subscribe | | auto].
  intros e. auto 10 with tasks.
Qed.

(** A [watch.subscribe] that names a gateway, started where the handle is
    empty or holds a running watcher: it returns, and its watcher is the one
    of the handle. *)
Lemma dispatch_subscribe_starts w (request p : gmap string json) st :
  request !! "method" = Some (JStr "watch.subscribe") ->
  or_ (arg request "params") (JDict ∅) = JDict p ->
  truthy (or_ (arg p "napcat_url") (getenv (environ w) "NAPCAT_URL")) = true ->
  handle_sound (tasks_of st) ->
  (dispatch w (JDict request) st).2 = Ok tt
  /\ _watch_task (dispatch w (JDict request) st).1
     = Some (Task (subscribe_args w p) Running)
  /\ only_handle_runs (tasks_of (dispatch w (JDict request) st).1).
Proof.
  intros Hm Hp Hurl [Hh HP].
  rewrite dispatch_unfold, (handle_request_subscribe _ _ Hm), Hp.
  unfold try_except, _handle_subscribe, bind, lift, get.
  unfold only_handle_runs, tasks_of in *. simpl in Hh, HP.
  fold (arg p "napcat_url") (arg p "from_group") (arg p "from_user")
       (arg p "ignore_prefixes").
  unfold _stop_watch, cancel_and_await.
  destruct Hh as [Hh | [args Hh]]; rewrite Hh; simpl; rewrite Hurl; simpl.
  - unfold _write_result.
    destruct (is_None _); simpl; rewrite Hh; repeat split; exact HP.
  - assert (HP' : Forall (fun t => is_running t = false)
                    (detached st ++ [{| task_args := args;
                                        task_state := Cancelled |}])).
    { apply Forall_app. split; [exact HP |].
      constructor; [reflexivity | constructor]. }
    unfold _write_result.
    destruct (is_None _); simpl; repeat split; exact HP'.
Qed.



(** ** The serve loop *)

Lemma dispatch_non_object w v st :
  (forall d, v <> JDict d) ->
  dispatch w v st
  = (st, Raise (Exn AttributeError
                  ("'" +:+ type_name v +:+ "' object has no attribute 'get'"))).
Proof.
  intros Hv. destruct v; try reflexivity. exfalso. eapply Hv. reflexivity.
Qed.

(** C3, where the code departs from it.  A line that parses as JSON but not
    as an object (an array, a number, a string, [true], [null]): the fault
    raised by [_handle_request] is caught, but the [except] clause evaluates
    [request.get("id")] on the same value and raises again; this second
    [AttributeError] leaves [serve], no Response is written and the lines
    that follow are never read. *)
Theorem serve_ends_on_non_object w line rest v st :
  str_empty line = false ->
  str_empty (strip line) = false ->
  json_loads w (strip line) = Some v ->
  (forall d, v <> JDict d) ->
  serve w (line :: rest) st
  = (st, Raise (Exn AttributeError
                  ("'" +:+ type_name v +:+ "' object has no attribute 'get'"))).
Proof.
  intros Hline Hstrip Hloads Hv. simpl serve.
  rewrite Hline, Hstrip, Hloads, (dispatch_non_object w v st Hv).
  reflexivity.
Qed.

Lemma serve_ends_on_non_object_witness :
  serve Scenario.relay ["[]" +:+ nl; "{}" +:+ nl] __init__
  = (__init__,
     Raise (Exn AttributeError "'list' object has no attribute 'get'")).
Proof.
  apply (serve_ends_on_non_object Scenario.relay ("[]" +:+ nl)
           ["{}" +:+ nl] (JList []) __init__);
    [reflexivity | reflexivity | reflexivity | discriminate].
Defined.

(** On request objects the boundary holds: if every line that parses
    parses as an object, the loop ends at the end of the input only. *)
Lemma serve_objects_reach_eof w stdin st :
  (forall line v, In line stdin -> json_loads w (strip line) = Some v ->
                  exists d, v = JDict d) ->
  (serve w stdin st).2 = Ok tt.
Proof.
  revert st. induction stdin as [| line rest IH]; intros st Hobj;
    [reflexivity |].
  simpl serve. destruct (str_empty line); [reflexivity |].
  assert (Hrest : forall line' v, In line' rest ->
                    json_loads w (strip line') = Some v -> exists d, v = JDict d).
  { intros line' v Hin. apply Hobj. right. exact Hin. }
  destruct (str_empty (strip line)); [apply IH, Hrest |].
  destruct (json_loads w (strip line)) as [v |] eqn:Hloads; [| apply IH, Hrest].
  destruct (Hobj line v (or_introl eq_refl) Hloads) as [d ->].
  pose proof (dispatch_object_returns w d st) as Hret.
  destruct (dispatch w (JDict d) st) as [st' [[] | e]]; simpl in Hret;
    [apply IH, Hrest | discriminate].
Qed.

(** ** Witnesses *)

Lemma no_response_without_id_witness :
  let request : gmap string json :=
    list_to_map [("method", JStr "send");
                 ("params", JDict Scenario.forward_without_messages)] in
  request !! "id" = None
  /\ stdout (dispatch Scenario.relay (JDict request) __init__).1 = [].
Proof.
  intros request. split; [reflexivity |].
  apply (no_response_without_id Scenario.relay request __init__).
  left. reflexivity.
Defined.

Lemma message_send_normalizes_witness :
  let p : gmap string json :=
    list_to_map [("chatId", JStr "42"); ("text", JStr "hi");
                 ("isGroup", JBool true)] in
  _handle_message_send Scenario.relay (JDict p) (JInt 5) __init__
  = _handle_send Scenario.relay
      (normalized (JStr "42") (JStr "hi") true JNull JNull) (JInt 5) __init__.
Proof.
  intros p.
  destruct (message_send_normalizes Scenario.relay p (JInt 5) __init__)
    as [Hsend _].
  apply Hsend; [reflexivity | discriminate].
Defined.

End RpcFacts.

(* ===================================================================== *)
(** * Properties of the signer and of the recognition call *)
(* ===================================================================== *)

Section AsrFacts.
Import Py Sha256 Asr.

(** ** The library functions on known values *)

Example sha256_empty :
  hex (sha256 [])
  = "e3b0c44298fc1c149afbf4c8996fb92427ae41e4649b934ca495991b7852b855".
Proof. vm_compute. reflexivity. Qed.

Example sha256_abc :
  hex (sha256 (encode "abc"))
  = "ba7816bf8f01cfea414140de5dae2223b00361a396177a9cb410ff61f20015ad".
Proof. vm_compute. reflexivity. Qed.

Example sha256_two_blocks :
  hex (sha256 (encode "abcdbcdecdefdefgefghfghighijhijkijkljklmklmnlmnomnopnopq"))
  = "248d6a61d20638b8e5c026930c3e6039a33ce45964ff2167f6ecedd419db06c1".
Proof. vm_compute. reflexivity. Qed.

Example hmac_sha256_short_key :
  hex (hmac_sha256 (encode "key")
         (encode "The quick brown fox jumps over the lazy dog"))
  = "f7bc83f430538424b13298e6aa6fb143ef4d59a14946175997479dbc2d1a3cd8".
Proof. vm_compute. reflexivity. Qed.

Example b64encode_padding :
  map (fun s => b64encode (encode s)) [""; "f"; "fo"; "foo"; "foobar~~>?"]
  = [""; "Zg=="; "Zm8="; "Zm9v"; "Zm9vYmFyfn4+Pw=="].
Proof. vm_compute. reflexivity. Qed.

Example civil_dates :
  map (fun t => strftime_Ymd (civil_from_days (t / 86400)))
    [0; -1; 951782400; 1078012800; 1709164800; 4102444799; 253402300799]
  = ["1970-01-01"; "1969-12-31"; "2000-02-29"; "2004-02-29"; "2024-02-29";
     "2099-12-31"; "9999-12-31"].
Proof. vm_compute. reflexivity. Qed.

(** Before the year 1000 the year is written with fewer than four digits. *)
Example year_one : strftime_Ymd (civil_from_days (-62135596800 / 86400)) = "1-01-01".
Proof. vm_compute. reflexivity. Qed.

Example strip_ascii : map strip ["  a b "; nl +:+ "x" +:+ nl; "   "; ""] = ["a b"; "x"; ""; ""].
Proof. vm_compute. reflexivity. Qed.

(** U+3000 and U+00A0 around a word. *)
Example strip_unicode :
  strip (String (ascii_of_N 227) (String (ascii_of_N 128) (String (ascii_of_N 128)
           ("x" +:+ String (ascii_of_N 194) (String (ascii_of_N 160) "")))))
  = "x".
Proof. vm_compute. reflexivity. Qed.

(** ** Strings *)

Lemma append_cons (a : ascii) (s t : string) :
  String a s +:+ t = String a (s +:+ t).
Proof. reflexivity. Qed.

Lemma append_assoc (s t u : string) : (s +:+ t) +:+ u = s +:+ (t +:+ u).
Proof.
  induction s as [| a s IH]; [reflexivity |].
  rewrite !append_cons, IH. reflexivity.
Qed.

(** ** Dates *)

Lemma civil_range timestamp :
  -30610224000 <= timestamp <= 253402300799 ->
  let '(y, m, d) := civil_from_days (timestamp / 86400) in
  1000 <= y <= 9999 /\ 1 <= m <= 12 /\ 1 <= d <= 31.
Proof.
  intros H. unfold civil_from_days.
  destruct (_ <? 10)%Z eqn:E1; destruct (_ <=? 2)%Z eqn:E2;
    try apply Z.ltb_lt in E1; try apply Z.ltb_ge in E1;
    try apply Z.leb_le in E2; try apply Z.leb_gt in E2.
  all: Z.to_euclidean_division_equations; lia.
Qed.

(** A property checked on every integer of a range. *)
Lemma forall_range (P : Z -> bool) (lo : Z) (n : nat) :
  forallb P (map (fun i => lo + Z.of_nat i) (seq 0 n)) = true ->
  forall y, lo <= y < lo + Z.of_nat n -> P y = true.
Proof.
  intros Hall y Hy. rewrite forallb_forall in Hall. apply Hall.
  apply in_map_iff. exists (Z.to_nat (y - lo)). split; [lia |].
  apply in_seq. lia.
Qed.

Lemma year_four_digits y :
  1000 <= y <= 9999 ->
  str_int y
  = Tc3.digit (y / 1000) +:+ Tc3.digit (y / 100) +:+ Tc3.digit (y / 10)
      +:+ Tc3.digit y.
Proof.
  intros Hy. apply String.eqb_eq.
  apply (forall_range
           (fun y => String.eqb (str_int y)
                       (Tc3.digit (y / 1000) +:+ Tc3.digit (y / 100)
                          +:+ Tc3.digit (y / 10) +:+ Tc3.digit y))
           1000 (Z.to_nat 9000)); [vm_compute; reflexivity | lia].
Qed.

Lemma pad2_two_digits n :
  0 <= n <= 99 -> pad2 n = Tc3.digit (n / 10) +:+ Tc3.digit n.
Proof.
  intros Hn. apply String.eqb_eq.
  apply (forall_range
           (fun n => String.eqb (pad2 n) (Tc3.digit (n / 10) +:+ Tc3.digit n))
           0 (Z.to_nat 100)); [vm_compute; reflexivity | lia].
Qed.

(** Inside the years 1000 to 9999 the [datetime] exists and [strftime]
    writes the date as YYYY-MM-DD. *)
Lemma strftime_date timestamp :
  -30610224000 <= timestamp <= 253402300799 ->
  exists dt, utcfromtimestamp timestamp = Ok dt
             /\ strftime_Ymd dt = Tc3.date timestamp.
Proof.
  intros H. pose proof (civil_range timestamp H) as Hr.
  unfold utcfromtimestamp, Tc3.date.
  replace ((timestamp <? -9223372036854775808)%Z
           || (9223372036854775807 <? timestamp)%Z) with false
    by (symmetry; apply orb_false_intro; apply Z.ltb_ge; lia).
  destruct (civil_from_days (timestamp / 86400)) as [[y m] d].
  destruct Hr as (Hy & Hm & Hd). cbv zeta.
  replace ((y - 1900 <? -2147483648)%Z || (2147483647 <? y - 1900)%Z) with false
    by (symmetry; apply orb_false_intro; apply Z.ltb_ge; lia).
  assert (Hwrap : wrap_int (y - 1900 + 1900) = y).
  { unfold wrap_int.
    replace (y - 1900 + 1900 + 2147483648) with (y + 2147483648) by lia.
    rewrite Z.mod_small by lia. lia. }
  rewrite Hwrap.
  replace ((y <? 1)%Z || (9999 <? y)%Z) with false
    by (symmetry; apply orb_false_intro; [apply Z.ltb_ge | apply Z.ltb_ge]; lia).
  eexists. split; [reflexivity |]. unfold strftime_Ymd.
  rewrite (year_four_digits y Hy), (pad2_two_digits m), (pad2_two_digits d)
    by lia.
  generalize (Tc3.digit (y / 1000)) (Tc3.digit (y / 100)) (Tc3.digit (y / 10))
             (Tc3.digit y) (Tc3.digit (m / 10)) (Tc3.digit m)
             (Tc3.digit (d / 10)) (Tc3.digit d).
  intros a b c e f g h i. rewrite !append_assoc. reflexivity.
Qed.

(** ** The signer *)

(** The canonical request and the string to sign that [_build_tc3_headers]
    joins from their lines are the strings of the scheme. *)
Lemma canonical_request_joined body :
  join nl ["POST"; "/"; ""; "content-type:application/json; charset=utf-8";
           "host:asr.tencentcloudapi.com"; ""; "content-type;host";
           hex (sha256 body)]
  = Tc3.canonical_request body.
Proof. reflexivity. Qed.

Lemma string_to_sign_joined body timestamp :
  join nl ["TC3-HMAC-SHA256"; str_int timestamp;
           Tc3.date timestamp +:+ "/asr/tc3_request";
           hex (sha256 (encode (Tc3.canonical_request body)))]
  = Tc3.string_to_sign body timestamp.
Proof. reflexivity. Qed.

Lemma authorization_joined secret_id date signature :
  ("TC3-HMAC-SHA256 Credential=" +:+ secret_id +:+ "/"
     +:+ (date +:+ "/asr/tc3_request") +:+ ", ")
  +:+ ("SignedHeaders=content-type;host, Signature=" +:+ signature)
  = "TC3-HMAC-SHA256 Credential=" +:+ secret_id +:+ "/" +:+ date
      +:+ "/asr/tc3_request, SignedHeaders=content-type;host, Signature="
      +:+ signature.
Proof. rewrite !append_assoc. reflexivity. Qed.

Lemma signing_key_chain secret_key timestamp :
  _hmac_sha256
    (_hmac_sha256
       (_hmac_sha256 (encode ("TC3" +:+ secret_key)) (Tc3.date timestamp))
       "asr")
    "tc3_request"
  = Tc3.kSigning secret_key timestamp.
Proof.
  unfold Tc3.kSigning, Tc3.kService, Tc3.kDate, _hmac_sha256. reflexivity.
Qed.



(** The signature of a sample request, as [hashlib] and [hmac] compute it. *)
Example authorization_sample :
  Tc3.authorization (encode "{}") 1700000000 "AKIDexample" "secret"
  = "TC3-HMAC-SHA256 Credential=AKIDexample/2023-11-14/asr/tc3_request, SignedHeaders=content-type;host, Signature=1c0e9531e45f9ab2ea7329b6e52ba59ab97fc68111acb2dd357608171b05c4ed".
Proof. vm_compute. reflexivity. Qed.

Example authorization_leap_day :
  (fun headers => headers !! "Authorization")
    <$> match _build_tc3_headers (encode "{}") 951782400 "id" "k" (Some "ap-guangzhou") with
        | Ok headers => Some headers
        | Raise _ => None
        end
  = Some (Some "TC3-HMAC-SHA256 Credential=id/2000-02-29/asr/tc3_request, SignedHeaders=content-type;host, Signature=9e64908a92e09403798c9aed981c0a6500ba6dc1fb1f94595048004d24b2669f").
Proof. vm_compute. reflexivity. Qed.

(** Past year 9999 there is no [datetime], hence no headers. *)
Example no_headers_in_year_10000 :
  _build_tc3_headers (encode "{}") 253402300800 "id" "k" None
  = Raise (Exn ValueError "year 10000 is out of range").
Proof. vm_compute. reflexivity. Qed.


Lemma build_tc3_headers_returns body timestamp secret_id secret_key region :
  -30610224000 <= timestamp <= 253402300799 ->
  exists headers,
    _build_tc3_headers body timestamp secret_id secret_key region = Ok headers.
Proof.
  intros Hts. destruct (strftime_date timestamp Hts) as (dt & Hdt & _).
  unfold _build_tc3_headers. rewrite Hdt. eexists. reflexivity.
Qed.

(** ** The recognition call *)

Lemma credential_missing_empty w name :
  credential_missing w name ->
  str_empty (strip (getenv_default (environ w) name "")) = true.
Proof.
  unfold credential_missing, getenv_default.
  destruct (environ w !! name) as [value |]; simpl.
  - intros ->. reflexivity.
  - intros _. reflexivity.
Qed.

Lemma credential_given_nonempty w name :
  credential_given w name ->
  str_empty (strip (getenv_default (environ w) name "")) = false.
Proof.
  intros (value & Hv & Hne). unfold getenv_default. rewrite Hv. simpl.
  unfold str_empty. apply String.eqb_neq. exact Hne.
Qed.

(** C8. Empty audio, or a credential variable that is unset or blank: the
    call raises without having issued any HTTP request.  Empty audio is
    looked at first and raises the [ValueError]; with audio present, a
    missing credential raises the [RuntimeError] that names both variables. *)
Theorem recognize_fails_before_network w data voice_format eng_service_type
    project_id :
  data = []
  \/ credential_missing w "TENCENT_SECRET_ID"
  \/ credential_missing w "TENCENT_SECRET_KEY" ->
  exists e,
    sentence_recognize w data voice_format eng_service_type project_id
    = ([], Raise e)
    /\ (data = [] -> e = Exn ValueError "Audio data is empty")
    /\ (data <> [] ->
        e = Exn RuntimeError
              "Missing Tencent Cloud credentials: set TENCENT_SECRET_ID and TENCENT_SECRET_KEY").
Proof.
  intros Hbad. unfold sentence_recognize. destruct data as [| b data].
  - eexists. split; [reflexivity |]. split; [reflexivity | congruence].
  - assert (Hcred :
      str_empty (strip (getenv_default (environ w) "TENCENT_SECRET_ID" ""))
      || str_empty (strip (getenv_default (environ w) "TENCENT_SECRET_KEY" ""))
      = true).
    { destruct Hbad as [Hd | [Hid | Hkey]]; [discriminate | |].
      - rewrite (credential_missing_empty _ _ Hid). reflexivity.
      - rewrite (credential_missing_empty _ _ Hkey). apply orb_true_r. }
    rewrite Hcred. eexists. split; [reflexivity |].
    split; [discriminate | reflexivity].
Qed.

Lemma recognize_fails_before_network_witness :
  credential_missing (Scenario.recognizer Scenario.blank_secret_id)
    "TENCENT_SECRET_ID"
  /\ exists e,
      sentence_recognize (Scenario.recognizer Scenario.blank_secret_id)
        Scenario.audio "mp3" None None
      = ([], Raise e).
Proof.
  assert (H : credential_missing (Scenario.recognizer Scenario.blank_secret_id)
                "TENCENT_SECRET_ID") by reflexivity.
  split; [exact H |].
  destruct (recognize_fails_before_network
              (Scenario.recognizer Scenario.blank_secret_id)
              Scenario.audio "mp3" None None (or_intror (or_introl H)))
    as (e & He & _).
  exists e. exact He.
Defined.

(** The name [logger] is bound nowhere in asr.py. *)
Lemma logger_undefined :
  load_global "logger" = Raise (Exn NameError "name 'logger' is not defined").
Proof. vm_compute. reflexivity. Qed.




(** Whatever the arguments and the environment, no request is issued and no
    text is returned: the statements after the use of [logger] are never
    reached. *)
Lemma recognize_never_requests w data voice_format eng_service_type project_id :
  (sentence_recognize w data voice_format eng_service_type project_id).1 = []
  /\ forall text,
      (sentence_recognize w data voice_format eng_service_type project_id).2
      <> Ok text.
Proof.
  unfold sentence_recognize. destruct data as [| b data];
    [split; [reflexivity | discriminate] |].
  destruct (_ || _); [split; [reflexivity | discriminate] |].
  destruct (_build_tc3_headers _ _ _ _ _) as [headers | e];
    [| split; [reflexivity | discriminate]].
  rewrite logger_undefined. split; [reflexivity | discriminate].
Qed.

End AsrFacts.

(* ===================================================================== *)
(** * More on the dispatcher: routing, answers, the read loop *)
(* ===================================================================== *)

Section RpcAnswers.
Import Py Rpc Answers.

#[local] Notation "x <- c ;; k" := (bind c (fun x => k))
  (at level 90, c at next level, right associativity).

(** ** Quiet steps *)

Lemma quiet_get v k : quiet (lift (get v k)).
Proof. split; [apply silent_lift | apply exn_get]. Qed.

Lemma quiet_await {A} (o : outcome A) : quiet (await o).
Proof. split; [apply silent_await | apply exn_await]. Qed.

Lemma quiet_raise {A} (e : exn) : is_Exception e = true -> quiet (@raise A e).
Proof. intros He. split; [apply silent_raise | apply exn_raise, He]. Qed.

Lemma quiet_ret {A} (a : A) : quiet (ret a).
Proof. split; [apply silent_ret | apply exn_ret]. Qed.

Lemma quiet_stop_watch : quiet _stop_watch.
Proof. split; [apply silent_stop_watch | apply exn_stop_watch]. Qed.

Lemma quiet_create_task args : quiet (create_task args).
Proof. split; [apply silent_create_task | apply exn_create_task]. Qed.

Lemma quiet_bind {A B} (c : M A) (k : A -> M B) :
  quiet c -> (forall a, quiet (k a)) -> quiet (bind c k).
Proof.
  intros [Hs He] Hk. split.
  - apply silent_bind; [exact Hs | intros a; apply Hk].
  - apply exn_bind; [exact He | intros a; apply Hk].
Qed.

Lemma quiet_if {A} (b : bool) (c1 c2 : M A) :
  quiet c1 -> quiet c2 -> quiet (if b then c1 else c2).
Proof. destruct b; auto. Qed.

(** ** Handlers over an output that can refuse a line *)

Lemma strict_write_json write obj st :
  Strict._write_json write obj st
  = match write obj with
    | Returns _ => _write_json obj st
    | Fails msg => (st, Raise (Exn ExternalError msg))
    end.
Proof.
  unfold Strict._write_json, bind, await. destruct (write obj); reflexivity.
Qed.

(** Over an output that accepts every line the dispatch is the one of
    [Rpc]. *)
Lemma strict_dispatch_accepting w request :
  Strict.dispatch (fun _ => Returns tt) w request = dispatch w request.
Proof. reflexivity. Qed.

Lemma attempts_write_json write req_id obj :
  is_answer req_id obj ->
  Strict.attempts write req_id (Strict._write_json write obj).
Proof.
  intros Hobj st. rewrite strict_write_json.
  destruct (write obj) as [[] | msg] eqn:Hw.
  - left. exists obj. repeat split; [exact Hobj | exact Hw].
  - right. split; [reflexivity |]. eexists. split; reflexivity.
Qed.

Lemma attempts_write_result write req_id result :
  is_None req_id = false ->
  Strict.attempts write req_id (Strict._write_result write req_id result).
Proof.
  intros Hid. unfold Strict._write_result. rewrite Hid.
  apply attempts_write_json. left. eexists. reflexivity.
Qed.

Lemma attempts_write_error write req_id code message :
  is_None req_id = false ->
  Strict.attempts write req_id (Strict._write_error write req_id code message).
Proof.
  intros Hid. unfold Strict._write_error. rewrite Hid.
  apply attempts_write_json. right. do 2 eexists. reflexivity.
Qed.

Lemma attempts_bind {A} write req_id (c : M A) (k : A -> M unit) :
  quiet c -> (forall a, Strict.attempts write req_id (k a)) ->
  Strict.attempts write req_id (bind c k).
Proof.
  intros [Hs He] Hk st. unfold bind.
  specialize (Hs st). specialize (He st).
  destruct (c st) as [st' [a | e]]; simpl in *.
  - destruct (Hk a st')
      as [(obj & Hobj & Hacc & Hout & Hret) | (Hout & e & Hret & Hexn)].
    + left. exists obj. rewrite Hout, Hs. auto.
    + right. rewrite Hout, Hs. eauto.
  - right. split; [exact Hs |].
    exists e. split; [reflexivity | apply He; reflexivity].
Qed.

Lemma attempts_if write req_id (b : bool) (c1 c2 : M unit) :
  Strict.attempts write req_id c1 -> Strict.attempts write req_id c2 ->
  Strict.attempts write req_id (if b then c1 else c2).
Proof. destruct b; auto. Qed.

(** The end of [_handle_send]: a quiet body inside the [try], whose result
    is written back after it and whose exception is written as error -32000
    by the [except] clause; a write that is refused leaves the handler. *)
Lemma attempts_try_tail write req_id (body : M json) :
  is_None req_id = false ->
  quiet body ->
  Strict.attempts write req_id
    (sent <- try_except
       (result <- body ;; ret (Some result))
       (fun exc =>
          _ <- Strict._write_error write req_id (-32000) (exn_str exc) ;;
          ret None) ;;
     match sent with
     | Some result => Strict._write_result write req_id result
     | None => ret tt
     end).
Proof.
  intros Hid [Hs He] st. unfold bind, try_except, ret.
  specialize (Hs st). specialize (He st).
  destruct (body st) as [st' [result | e]]; simpl in *.
  - destruct (attempts_write_result write req_id result Hid st')
      as [(obj & Hobj & Hacc & Hout & Hret) | (Hout & e & Hret & Hexn)].
    + left. exists obj. rewrite Hout, Hs. auto.
    + right. rewrite Hout, Hs. eauto.
  - rewrite (He e eq_refl).
    pose proof (attempts_write_error write req_id (-32000) (exn_str e) Hid st')
      as Hw.
    destruct (Strict._write_error write req_id (-32000) (exn_str e) st')
      as [st'' [[] | e']]; simpl in *.
    + destruct Hw as [(obj & Hobj & Hacc & Hout & _) | (_ & e0 & Hr & _)];
        [| discriminate].
      left. exists obj. rewrite Hout, Hs. auto.
    + destruct Hw as [(obj & _ & _ & _ & Hr) | (Hout & e0 & Hr & Hexn)];
        [discriminate |].
      inversion Hr; subst e0.
      right. rewrite Hout, Hs. eauto.
Qed.

Lemma attempts_handle_send write w params req_id :
  is_None req_id = false ->
  Strict.attempts write req_id (Strict._handle_send write w params req_id).
Proof.
  intros Hid. unfold Strict._handle_send.
  repeat (apply attempts_bind;
          [first [apply quiet_get | apply quiet_await] | intros ?]).
  apply attempts_try_tail; [exact Hid |].
  repeat first
    [ apply quiet_if
    | apply quiet_bind; [| intros ?]
    | apply quiet_get
    | apply quiet_await
    | apply quiet_raise; reflexivity ].
Qed.

Lemma attempts_handle_message_send write w params req_id :
  is_None req_id = false ->
  Strict.attempts write req_id
    (Strict._handle_message_send write w params req_id).
Proof.
  intros Hid. unfold Strict._handle_message_send.
  repeat (apply attempts_bind; [apply quiet_get | intros ?]).
  apply attempts_if; [apply attempts_write_error, Hid |].
  do 2 (apply attempts_bind; [apply quiet_get | intros ?]).
  apply attempts_handle_send, Hid.
Qed.

Lemma attempts_handle_subscribe write w params req_id :
  is_None req_id = false ->
  Strict.attempts write req_id (Strict._handle_subscribe write w params req_id).
Proof.
  intros Hid. unfold Strict._handle_subscribe.
  apply attempts_bind; [apply quiet_stop_watch | intros _].
  apply attempts_bind; [apply quiet_get | intros ?].
  apply attempts_if; [apply attempts_write_error, Hid |].
  repeat (apply attempts_bind; [apply quiet_get | intros ?]).
  apply attempts_bind; [apply quiet_create_task | intros _].
  apply attempts_write_result, Hid.
Qed.

Lemma attempts_handle_unsubscribe write req_id :
  is_None req_id = false ->
  Strict.attempts write req_id (Strict._handle_unsubscribe write req_id).
Proof.
  intros Hid. unfold Strict._handle_unsubscribe.
  apply attempts_bind; [apply quiet_stop_watch | intros _].
  apply attempts_write_result, Hid.
Qed.

Lemma attempts_handle_request write w (request : gmap string json) :
  is_None (arg request "id") = false ->
  Strict.attempts write (arg request "id")
    (Strict._handle_request write w (JDict request)).
Proof.
  intros Hid. unfold Strict._handle_request, bind, lift, get.
  fold (arg request "id") (arg request "method") (arg request "params").
  intros st. simpl.
  repeat match goal with
         | |- context [if ?b then _ else _] => destruct b
         end.
  - apply attempts_write_result, Hid.
  - apply attempts_handle_subscribe, Hid.
  - apply attempts_handle_unsubscribe, Hid.
  - apply attempts_handle_message_send, Hid.
  - apply attempts_handle_send, Hid.
  - apply attempts_write_result, Hid.
  - apply attempts_write_error, Hid.
Qed.

(** X1. A request object that carries an id, over an output that can
    refuse a line.  Either the dispatch returns, and what it has appended
    to the output is a single Response (a result or an error) under the id
    of the request; or the output has refused the error Response that the
    dispatch boundary itself writes under that id, and then nothing is
    written and the refusal leaves the dispatch, and [serve] with it.  No
    request is answered twice or under another id. *)
Theorem one_response_unless_refused write w (request : gmap string json)
    req_id st :
  request !! "id" = Some req_id ->
  req_id <> JNull ->
  (exists obj,
      is_answer req_id obj
      /\ write obj = Returns tt
      /\ stdout (Strict.dispatch write w (JDict request) st).1
         = stdout st ++ [obj]
      /\ (Strict.dispatch write w (JDict request) st).2 = Ok tt)
  \/ (exists message msg,
        write (response_error req_id (-32000) message) = Fails msg
        /\ stdout (Strict.dispatch write w (JDict request) st).1 = stdout st
        /\ (Strict.dispatch write w (JDict request) st).2
           = Raise (Exn ExternalError msg)).
Proof.
  intros Hreq Hnn.
  assert (Hid : arg request "id" = req_id)
    by (unfold arg; rewrite Hreq; reflexivity).
  pose proof (is_None_false _ Hnn) as Hsome.
  pose proof (attempts_handle_request write w request) as Hans.
  rewrite Hid in Hans. specialize (Hans Hsome st).
  unfold Strict.dispatch, try_except.
  destruct (Strict._handle_request write w (JDict request) st)
    as [st' [[] | e]]; simpl in *.
  - destruct Hans as [(obj & Hobj & Hacc & Hout & _) | (_ & e & He & _)];
      [| discriminate].
    left. exists obj. auto.
  - destruct Hans as [(obj & _ & _ & _ & Hret) | (Hout & e' & He & Hexn)];
      [discriminate |].
    inversion He; subst e'. rewrite Hexn.
    unfold bind, lift, get. fold (arg request "id"). rewrite Hid.
    unfold Strict._write_error. rewrite Hsome. rewrite strict_write_json.
    fold (response_error req_id (-32000) (exn_str e)).
    destruct (write (response_error req_id (-32000) (exn_str e)))
      as [[] | msg] eqn:Hw.
    + left. exists (response_error req_id (-32000) (exn_str e)).
      split; [right; do 2 eexists; reflexivity |].
      split; [exact Hw |]. simpl. rewrite Hout. split; reflexivity.
    + right. exists (exn_str e), msg.
      split; [exact Hw |]. simpl. split; [exact Hout | reflexivity].
Qed.

(** The request [chats.list] under the id of a lone surrogate, over an
    output encoded in UTF-8: nothing is written and the dispatch is left. *)
Lemma one_response_unless_refused_witness :
  stdout (Strict.dispatch Cases.utf8_stdout Scenario.relay
            (JDict (Cases.chats_list (JStr Cases.lone_surrogate))) __init__).1
  = []
  /\ exists msg,
      (Strict.dispatch Cases.utf8_stdout Scenario.relay
         (JDict (Cases.chats_list (JStr Cases.lone_surrogate))) __init__).2
      = Raise (Exn ExternalError msg).
Proof.
  destruct (one_response_unless_refused Cases.utf8_stdout Scenario.relay
              (Cases.chats_list (JStr Cases.lone_surrogate))
              (JStr Cases.lone_surrogate) __init__ eq_refl)
    as [(obj & [(result & ->) | (code & message & ->)] & Hacc & _)
       | (message & msg & _ & Hout & Hret)];
    [discriminate | discriminate | discriminate |].
  split; [exact Hout | exists msg; exact Hret].
Defined.

(** Under an id that can be written the same request is answered. *)
Example chats_list_answered :
  Strict.dispatch Cases.utf8_stdout Scenario.relay
    (JDict (Cases.chats_list (JInt 2))) __init__
  = _write_json (response_result (JInt 2) (JList [])) __init__.
Proof. reflexivity. Qed.

(** ** Routing *)



(** X3. Only [watch.subscribe] and [watch.unsubscribe] touch the
    subscription: whatever else a request object asks for, with whatever
    parameters and whatever the relay answers, the handle and every task are
    after [dispatch] what they were before. *)
Theorem other_methods_keep_subscription w (request : gmap string json) st :
  eq_str (arg request "method") "watch.subscribe" = false ->
  eq_str (arg request "method") "watch.unsubscribe" = false ->
  tasks_of (dispatch w (JDict request) st).1 = tasks_of st.
Proof.
  intros Hsub Hunsub.
  set (P := fun ts : option task * list task => ts = tasks_of st).
  assert (Hreq : trans P P (_handle_request w (JDict request))).
  { unfold _handle_request, bind, lift, get.
    fold (arg request "method") (arg request "id") (arg request "params").
    intros st' HP. simpl. rewrite Hsub, Hunsub.
    repeat match goal with
           | |- context [if ?b then _ else _] => destruct b
           end.
    - exact (trans_write_result P _ _ st' HP).
    - exact (trans_handle_message_send w P _ _ st' HP).
    - exact (trans_handle_send w P _ _ st' HP).
    - exact (trans_write_result P _ _ st' HP).
    - exact (trans_write_error P _ _ _ st' HP). }
  assert (Hd : trans P P (dispatch w (JDict request))).
  { unfold dispatch. apply (trans_try_except P P P); [exact Hreq | | auto].
    intros e. apply trans_seq; [apply trans_lift | intros ?].
    apply trans_write_error. }
  apply (Hd st). reflexivity.
Qed.

Lemma other_methods_keep_subscription_witness :
  tasks_of (dispatch Scenario.relay
              (JDict (Scenario.request "send" (JInt 4) Cases.send_both_ids))
              Scenario.subscribed).1
  = tasks_of Scenario.subscribed.
Proof.
  apply (other_methods_keep_subscription Scenario.relay
           (Scenario.request "send" (JInt 4) Cases.send_both_ids)
           Scenario.subscribed); reflexivity.
Defined.

(** ** [send] *)

(** [_handle_send] on a dict of parameters, once the client is built: the
    channel is inferred and the [try] statement is run. *)
Lemma handle_send_with_client w (p : gmap string json) req_id c :
  NapcatRelayClient w (arg p "napcat_url") (arg p "timeout") = Returns c ->
  _handle_send w (JDict p) req_id
  = (let channel :=
       infer_channel (or_ (arg p "channel") (arg p "type"))
                     (arg p "group_id") (arg p "user_id") in
     sent <- try_except
       (result <-
          (if eq_str channel "group_forward" then
             let messages := or_ (arg p "messages") (arg p "nodes") in
             if negb (truthy messages) then
               raise (Exn ValueError "messages is required for group_forward")
             else
               await (send_command w c
                        (mkCommand SEND_GROUP_FORWARD_MSG
                           (JDict (list_to_map
                                     [("group_id", JStr (str w (arg p "group_id")));
                                      ("messages", messages)]))))
           else if eq_str channel "group" then
             if negb (truthy (arg p "message")) then
               raise (Exn ValueError "message is required for group send")
             else await (send_group_message w c (arg p "group_id") (arg p "message"))
           else if eq_str channel "private" then
             if negb (truthy (arg p "message")) then
               raise (Exn ValueError "message is required for private send")
             else await (send_private_message w c (arg p "user_id") (arg p "message"))
           else
             raise (Exn ValueError
                      "Unsupported channel; use group, group_forward, or private")) ;;
        ret (Some result))
       (fun exc => _ <- _write_error req_id (-32000) (exn_str exc) ;; ret None) ;;
     match sent with
     | Some result => _write_result req_id result
     | None => ret tt
     end).
Proof.
  intros Hc. unfold _handle_send, bind, lift, get.
  fold (arg p "channel") (arg p "type") (arg p "group_id") (arg p "user_id")
       (arg p "timeout") (arg p "napcat_url") (arg p "messages") (arg p "nodes")
       (arg p "message").
  rewrite Hc. reflexivity.
Qed.

Lemma dispatch_send w (request p : gmap string json) req_id st :
  request !! "method" = Some (JStr "send") ->
  request !! "id" = Some req_id ->
  request !! "params" = Some (JDict p) ->
  dispatch w (JDict request) st
  = try_except (_handle_send w (JDict p) req_id)
      (fun exc => _write_error req_id (-32000) (exn_str exc)) st.
Proof.
  intros Hm Hid Hp. rewrite dispatch_unfold, (handle_request_send _ _ Hm).
  unfold arg. rewrite Hid, Hp. simpl default. rewrite or_dict_empty.
  reflexivity.
Qed.

Lemma relay_group_or_private w (p : gmap string json) req_id st c
    (to_group : bool) :
  req_id <> JNull ->
  NapcatRelayClient w (arg p "napcat_url") (arg p "timeout") = Returns c ->
  infer_channel (or_ (arg p "channel") (arg p "type"))
                (arg p "group_id") (arg p "user_id")
  = JStr (if to_group then "group" else "private") ->
  truthy (arg p "message") = true ->
  try_except (_handle_send w (JDict p) req_id)
    (fun exc => _write_error req_id (-32000) (exn_str exc)) st
  = relayed req_id
      (if to_group
       then send_group_message w c (arg p "group_id") (arg p "message")
       else send_private_message w c (arg p "user_id") (arg p "message")) st.
Proof.
  intros Hnn Hc Hch Hmsg. pose proof (is_None_false _ Hnn) as Hsome.
  rewrite (handle_send_with_client w p req_id c Hc). cbv zeta. rewrite Hch.
  unfold try_except, bind, lift, raise, ret, relayed.
  destruct to_group; simpl; rewrite Hmsg; simpl.
  - destruct (send_group_message w c _ _) as [result | msg]; simpl.
    + rewrite write_result_id by exact Hsome. reflexivity.
    + rewrite write_error_id by exact Hsome. reflexivity.
  - destruct (send_private_message w c _ _) as [result | msg]; simpl.
    + rewrite write_result_id by exact Hsome. reflexivity.
    + rewrite write_error_id by exact Hsome. reflexivity.
Qed.







(** ** [watch.subscribe] *)





(** ** The read loop *)

Lemma serve_cons w line rest st :
  str_empty line = false ->
  serve w (line :: rest) st
  = if carries_request w line then
      match json_loads w (strip line) with
      | Some request =>
          match dispatch w request st with
          | (st', Ok _) => serve w rest st'
          | (st', Raise e) => (st', Raise e)
          end
      | None => serve w rest st
      end
    else serve w rest st.
Proof.
  intros Hline. simpl serve. rewrite Hline. unfold carries_request.
  destruct (str_empty (strip line)); simpl; [reflexivity |].
  destruct (json_loads w (strip line)); reflexivity.
Qed.

(** X9. Blank lines and lines that [json.loads] rejects have no effect at
    all: on an input of non-empty lines, [serve] does what it does on the
    same input with those lines removed: same output, same subscription,
    same way of ending. *)
Theorem serve_ignores_noise w stdin st :
  Forall (fun line => str_empty line = false) stdin ->
  serve w stdin st
  = serve w (filter (fun line => carries_request w line = true) stdin) st.
Proof.
  intros Hlines. revert st.
  induction Hlines as [| line rest Hline _ IH]; intros st; [reflexivity |].
  rewrite filter_cons, (serve_cons w line rest st Hline).
  destruct (carries_request w line) eqn:Hc.
  - rewrite decide_True by reflexivity.
    rewrite (serve_cons w line _ st Hline), Hc.
    destruct (json_loads w (strip line)) as [request |]; [| apply IH].
    destruct (dispatch w request st) as [st' [[] | e]]; [apply IH | reflexivity].
  - rewrite decide_False by discriminate. apply IH.
Qed.

Lemma serve_ignores_noise_witness :
  serve Scenario.relay ["{}" +:+ nl; nl; "not json" +:+ nl; "{}" +:+ nl] __init__
  = serve Scenario.relay ["{}" +:+ nl; "{}" +:+ nl] __init__.
Proof.
  apply (serve_ignores_noise Scenario.relay
           ["{}" +:+ nl; nl; "not json" +:+ nl; "{}" +:+ nl] __init__).
  repeat constructor.
Defined.

(** X10. Lines are handled strictly in order, each on the state the
    previous ones have left: on a first batch of non-empty lines followed by
    a second batch, [serve] is [serve] on the first batch and then, if that
    one ended at its end of input, [serve] on the second from the state
    reached; if an exception left the first, nothing of the second is
    handled. *)
Theorem serve_in_order w first second st :
  Forall (fun line => str_empty line = false) first ->
  serve w (first ++ second) st
  = match serve w first st with
    | (st', Ok _) => serve w second st'
    | (st', Raise e) => (st', Raise e)
    end.
Proof.
  intros Hlines. revert st.
  induction Hlines as [| line rest Hline _ IH]; intros st; [reflexivity |].
  rewrite <- app_comm_cons.
  rewrite (serve_cons w line (rest ++ second) st Hline),
          (serve_cons w line rest st Hline).
  destruct (carries_request w line); [| apply IH].
  destruct (json_loads w (strip line)) as [request |]; [| apply IH].
  destruct (dispatch w request st) as [st' [[] | e]]; [apply IH | reflexivity].
Qed.

Lemma serve_in_order_witness :
  serve Scenario.relay (["{}" +:+ nl; "[]" +:+ nl] ++ ["{}" +:+ nl]) __init__
  = match serve Scenario.relay ["{}" +:+ nl; "[]" +:+ nl] __init__ with
    | (st', Ok _) => serve Scenario.relay ["{}" +:+ nl] st'
    | (st', Raise e) => (st', Raise e)
    end.
Proof.
  apply (serve_in_order Scenario.relay ["{}" +:+ nl; "[]" +:+ nl]
           ["{}" +:+ nl] __init__).
  repeat constructor.
Defined.

End RpcAnswers.

(* ===================================================================== *)
(** * The environment file *)
(* ===================================================================== *)

Section DotenvFacts.
Import Py Dotenv.

Lemma load_line_assignment line (environ : gmap string string) :
  load_line line environ
  = match assignment line with
    | None => (environ, Ok tt)
    | Some (key, value) =>
        if bool_decide (is_Some (environ !! key)) then (environ, Ok tt)
        else setitem environ key value
    end.
Proof.
  unfold load_line, assignment.
  destruct (str_empty (strip line) || startswith "#" (strip line));
    [reflexivity |].
  destruct (partition "=" _) as [[key value] |]; [| reflexivity].
  destruct (str_empty (strip key)); reflexivity.
Qed.

Lemma setitem_extends (environ : gmap string string) key value :
  environ !! key = None -> environ ⊆ (setitem environ key value).1.
Proof.
  intros Hk. unfold setitem. destruct (has_nul key || has_nul value); simpl.
  - reflexivity.
  - apply insert_subseteq, Hk.
Qed.

Lemma load_line_extends line (environ : gmap string string) :
  environ ⊆ (load_line line environ).1.
Proof.
  rewrite load_line_assignment.
  destruct (assignment line) as [[key value] |]; [| reflexivity].
  case_bool_decide as Hk; [reflexivity |].
  apply setitem_extends. apply eq_None_not_Some. exact Hk.
Qed.

Lemma load_lines_extends lines (environ : gmap string string) :
  environ ⊆ (load_lines lines environ).1.
Proof.
  revert environ. induction lines as [| line rest IH]; intros environ;
    [reflexivity |].
  simpl. pose proof (load_line_extends line environ) as Hline.
  destruct (load_line line environ) as [environ' [[] | e]]; simpl in *.
  - etrans; [exact Hline | apply IH].
  - exact Hline.
Qed.

(** X11. Loading [.env] never changes a variable that is already set:
    whatever the file holds, every variable of the environment keeps its
    value, also when the function is left by an exception half way. *)
Theorem dotenv_keeps_environment file (environ : gmap string string) key value :
  environ !! key = Some value ->
  (_load_dotenv_if_present file environ).1 !! key = Some value.
Proof.
  intros Hk. destruct file as [| msg | lines]; simpl; try exact Hk.
  eapply lookup_weaken; [exact Hk | apply load_lines_extends].
Qed.

Lemma dotenv_keeps_environment_witness :
  (_load_dotenv_if_present (Lines Cases.env_lines)
     {[ "TIMEOUT" := "30" ]}).1 !! "TIMEOUT" = Some "30".
Proof.
  apply (dotenv_keeps_environment (Lines Cases.env_lines)
           {[ "TIMEOUT" := "30" ]} "TIMEOUT" "30").
  reflexivity.
Defined.

Example dotenv_sample :
  _load_dotenv_if_present (Lines Cases.env_lines) {[ "HOME" := "/root" ]}
  = (list_to_map [("HOME", "/root"); ("NAPCAT_URL", "ws://gateway:1");
                  ("TIMEOUT", "5")], Ok tt).
Proof. vm_compute. reflexivity. Qed.

Lemma setitem_ok (environ environ' : gmap string string) key value :
  setitem environ key value = (environ', Ok tt) ->
  environ' = <[key := value]> environ.
Proof.
  unfold setitem. destruct (has_nul key || has_nul value); intros H;
    inversion H; reflexivity.
Qed.

(** A file that has been loaded leaves nothing to load: on its result, or
    on any environment that extends it, every line is passed over. *)
Lemma load_lines_settled lines (environ environ' later : gmap string string) :
  load_lines lines environ = (environ', Ok tt) ->
  environ' ⊆ later ->
  load_lines lines later = (later, Ok tt).
Proof.
  revert environ. induction lines as [| line rest IH]; intros environ Hload Hsub;
    [reflexivity |].
  simpl in Hload. simpl.
  destruct (load_line line environ) as [environ1 [[] | e]] eqn:Hline;
    [| inversion Hload].
  assert (H1 : environ1 ⊆ later).
  { etrans; [| exact Hsub].
    pose proof (load_lines_extends rest environ1) as Hext.
    rewrite Hload in Hext. exact Hext. }
  assert (Hskip : load_line line later = (later, Ok tt)).
  { rewrite load_line_assignment in Hline. rewrite load_line_assignment.
    destruct (assignment line) as [[key value] |]; [| reflexivity].
    assert (Hin : is_Some (later !! key)).
    { destruct (bool_decide (is_Some (environ !! key))) eqn:Hk.
      - inversion Hline; subst environ1.
        apply bool_decide_eq_true in Hk.
        eapply lookup_weaken_is_Some; [exact Hk | exact H1].
      - apply setitem_ok in Hline. subst environ1.
        eapply lookup_weaken_is_Some; [| exact H1].
        rewrite lookup_insert_eq. eauto. }
    rewrite bool_decide_eq_true_2 by exact Hin. reflexivity. }
  rewrite Hskip. eapply IH; [exact Hload | exact Hsub].
Qed.

(** X12. Loading [.env] is idempotent: when a load has returned, loading
    the same file again on the environment obtained changes nothing. *)
Theorem dotenv_idempotent file (environ : gmap string string) :
  (_load_dotenv_if_present file environ).2 = Ok tt ->
  _load_dotenv_if_present file (_load_dotenv_if_present file environ).1
  = ((_load_dotenv_if_present file environ).1, Ok tt).
Proof.
  intros Hret. destruct file as [| msg | lines]; simpl in *; try reflexivity.
  destruct (load_lines lines environ) as [environ' r] eqn:Hload.
  simpl in *. subst r.
  eapply load_lines_settled; [exact Hload | reflexivity].
Qed.

Lemma dotenv_idempotent_witness :
  let loaded := (_load_dotenv_if_present (Lines Cases.env_lines) ∅).1 in
  _load_dotenv_if_present (Lines Cases.env_lines) loaded = (loaded, Ok tt).
Proof.
  apply (dotenv_idempotent (Lines Cases.env_lines) ∅). reflexivity.
Defined.

Lemma load_line_provenance line (environ : gmap string string) key value :
  (load_line line environ).1 !! key = Some value ->
  environ !! key = Some value \/ assignment line = Some (key, value).
Proof.
  rewrite load_line_assignment.
  destruct (assignment line) as [[k v] |]; [| auto].
  case_bool_decide; [auto |].
  unfold setitem. destruct (has_nul k || has_nul v); simpl; [auto |].
  destruct (decide (k = key)) as [-> | Hne].
  - rewrite lookup_insert_eq. intros H'. inversion H'. auto.
  - rewrite lookup_insert_ne by exact Hne. auto.
Qed.

(** X13. Loading [.env] sets nothing of its own: every variable of the
    resulting environment either was there before with that value, or is the
    key and the value (stripped and unquoted) of an assignment line of the
    file. *)
Theorem dotenv_provenance lines (environ : gmap string string) key value :
  (_load_dotenv_if_present (Lines lines) environ).1 !! key = Some value ->
  environ !! key = Some value
  \/ exists line, In line lines /\ assignment line = Some (key, value).
Proof.
  simpl. revert environ. induction lines as [| line rest IH]; intros environ;
    [auto |].
  simpl. destruct (load_line line environ) as [environ1 [[] | e]] eqn:Hline;
    simpl; intros Hk.
  - destruct (IH environ1 Hk) as [H1 | (l & Hin & Hl)].
    + pose proof (load_line_provenance line environ key value) as Hp.
      rewrite Hline in Hp. destruct (Hp H1) as [? | Ha]; [auto |].
      right. exists line. split; [left; reflexivity | exact Ha].
    + right. exists l. split; [right; exact Hin | exact Hl].
  - pose proof (load_line_provenance line environ key value) as Hp.
    rewrite Hline in Hp. destruct (Hp Hk) as [? | Ha]; [auto |].
    right. exists line. split; [left; reflexivity | exact Ha].
Qed.

Lemma dotenv_provenance_witness :
  (∅ : gmap string string) !! "TIMEOUT" = Some "5"
  \/ exists line, In line Cases.env_lines
                  /\ assignment line = Some ("TIMEOUT", "5").
Proof.
  apply (dotenv_provenance Cases.env_lines ∅ "TIMEOUT" "5").
  vm_compute. reflexivity.
Defined.

Lemma load_lines_app before after (environ : gmap string string) :
  load_lines (before ++ after) environ
  = match load_lines before environ with
    | (environ', Ok _) => load_lines after environ'
    | (environ', Raise e) => (environ', Raise e)
    end.
Proof.
  revert environ. induction before as [| line rest IH]; intros environ;
    [reflexivity |].
  simpl. destruct (load_line line environ) as [environ1 [[] | e]];
    [apply IH | reflexivity].
Qed.

Lemma load_lines_untouched lines (environ : gmap string string) key :
  environ !! key = None ->
  (forall line value, In line lines -> assignment line <> Some (key, value)) ->
  (load_lines lines environ).1 !! key = None.
Proof.
  revert environ. induction lines as [| line rest IH]; intros environ Hk Hno;
    [exact Hk |].
  simpl.
  assert (H1 : (load_line line environ).1 !! key = None).
  { destruct ((load_line line environ).1 !! key) as [value |] eqn:Hv;
      [| reflexivity].
    destruct (load_line_provenance line environ key value Hv) as [H | H].
    - congruence.
    - exfalso. apply (Hno line value); [left; reflexivity | exact H]. }
  destruct (load_line line environ) as [environ1 [[] | e]]; simpl in *.
  - apply IH; [exact H1 |]. intros l v Hin. apply Hno. right. exact Hin.
  - exact H1.
Qed.

(** X14. In [.env] the first assignment of a key wins: when no earlier line
    assigns the key, the key is not yet in the environment and the load
    returns, the variable holds the value of that line, whatever later lines
    say. *)
Theorem dotenv_first_assignment_wins before line after
    (environ : gmap string string) key value :
  environ !! key = None ->
  (forall earlier v, In earlier before -> assignment earlier <> Some (key, v)) ->
  assignment line = Some (key, value) ->
  (_load_dotenv_if_present (Lines (before ++ line :: after)) environ).2 = Ok tt ->
  (_load_dotenv_if_present (Lines (before ++ line :: after)) environ).1 !! key
  = Some value.
Proof.
  simpl. intros Hk Hno Hline. rewrite load_lines_app.
  pose proof (load_lines_untouched before environ key Hk Hno) as Hbefore.
  destruct (load_lines before environ) as [environ1 [[] | e]]; simpl in *;
    [| discriminate].
  rewrite load_line_assignment, Hline.
  rewrite bool_decide_eq_false_2
    by (rewrite Hbefore; intros [? ?]; discriminate).
  destruct (setitem environ1 key value) as [environ2 [[] | e]] eqn:Hset;
    simpl; [| discriminate].
  intros _. apply setitem_ok in Hset. subst environ2.
  eapply lookup_weaken; [apply lookup_insert_eq | apply load_lines_extends].
Qed.

Lemma dotenv_first_assignment_wins_witness :
  (_load_dotenv_if_present (Lines Cases.env_lines) ∅).1 !! "NAPCAT_URL"
  = Some "ws://gateway:1".
Proof.
  apply (dotenv_first_assignment_wins ["# gateway"]
           ("export NAPCAT_URL = " +:+ Cases.quoted "ws://gateway:1")
           ["NAPCAT_URL=ws://other:2"; "not an assignment"; "  TIMEOUT=5  "]
           ∅ "NAPCAT_URL" "ws://gateway:1").
  - reflexivity.
  - intros earlier v [<- | []]. vm_compute. discriminate.
  - vm_compute. reflexivity.
  - vm_compute. reflexivity.
Defined.

(** ** Quotes *)

Lemma rev_string_app s acc : rev_string s acc = reversed s +:+ acc.
Proof.
  unfold reversed. revert acc. induction s as [| c s IH]; intros acc;
    [reflexivity |].
  simpl. rewrite IH, (IH (String c "")), append_assoc. reflexivity.
Qed.

Lemma rev_string_append s t acc :
  rev_string (s +:+ t) acc = rev_string t (rev_string s acc).
Proof.
  revert acc. induction s as [| c s IH]; intros acc; [reflexivity |].
  rewrite append_cons. simpl. apply IH.
Qed.

Lemma reversed_snoc s c : reversed (s +:+ String c "") = String c (reversed s).
Proof. unfold reversed. rewrite rev_string_append. reflexivity. Qed.

Lemma reversed_involutive s : reversed (reversed s) = s.
Proof.
  induction s as [| c s IH]; [reflexivity |].
  replace (reversed (String c s)) with (reversed s +:+ String c "")
    by (unfold reversed at 2; simpl; symmetry; apply rev_string_app).
  rewrite reversed_snoc, IH. reflexivity.
Qed.

(** X15. A value enclosed in two double quotes or in two single quotes is
    stored without them, whatever is in between (quotes included); a value
    that is one lone quote character counts as enclosed and is stored
    empty. *)
Theorem unquote_enclosed (double : bool) (body : string) :
  let quote := if double then double_quote else single_quote in
  unquote (String quote (body +:+ String quote "")) = body
  /\ unquote (String quote "") = "".
Proof.
  intros quote. split; [| destruct double; reflexivity].
  assert (Hend : endswith quote (String quote (body +:+ String quote "")) = true).
  { unfold endswith. rewrite <- append_cons, reversed_snoc.
    apply Ascii.eqb_refl. }
  assert (Hin : inner (String quote (body +:+ String quote "")) = body).
  { unfold inner. rewrite reversed_snoc. apply reversed_involutive. }
  assert (Hstart : startswith (String quote "")
                     (String quote (body +:+ String quote "")) = true)
    by (destruct double; unfold startswith; simpl;
        destruct (body +:+ _); reflexivity).
  unfold unquote. rewrite Hin.
  destruct double; subst quote; rewrite Hstart, Hend.
  - reflexivity.
  - rewrite orb_true_r. reflexivity.
Qed.

End DotenvFacts.

(* ===================================================================== *)
(** * The signer's headers and the ASR switch *)
(* ===================================================================== *)

Section AsrWiring.
Import Py Sha256 Asr.

(** X16. The region is no part of what is signed: the headers built with a
    region are the headers built without one, plus [X-TC-Region] holding the
    region; a region that is the empty string adds nothing, as if none were
    given. *)
Theorem region_only_adds_its_header body timestamp secret_id secret_key
    region headers :
  _build_tc3_headers body timestamp secret_id secret_key region = Ok headers ->
  exists plain,
    _build_tc3_headers body timestamp secret_id secret_key None = Ok plain
    /\ plain !! "X-TC-Region" = None
    /\ headers = match region with
                 | Some r => if str_empty r then plain
                             else <["X-TC-Region" := r]> plain
                 | None => plain
                 end.
Proof.
  unfold _build_tc3_headers.
  destruct (utcfromtimestamp timestamp) as [dt | e]; [| discriminate].
  cbv zeta. unfold region_given at 2.
  match goal with
  | |- context [Ok (if region_given region then _ else ?m)] => set (plain := m)
  end.
  intros H. exists plain. split; [reflexivity |]. split.
  - subst plain.
    repeat (rewrite list_to_map_cons; rewrite lookup_insert_ne by discriminate).
    apply lookup_empty.
  - assert (Hh : headers = if region_given region
                           then <["X-TC-Region" := default "" region]> plain
                           else plain) by congruence.
    rewrite Hh. unfold region_given. destruct region as [r |]; [| reflexivity].
    destruct (str_empty r); reflexivity.
Qed.

Lemma region_only_adds_its_header_witness :
  exists headers plain,
    _build_tc3_headers (encode "{}") 1700000000 "id" "k" (Some "ap-guangzhou")
    = Ok headers
    /\ _build_tc3_headers (encode "{}") 1700000000 "id" "k" None = Ok plain
    /\ headers = <["X-TC-Region" := "ap-guangzhou"]> plain.
Proof.
  destruct (build_tc3_headers_returns (encode "{}") 1700000000 "id" "k"
              (Some "ap-guangzhou")) as [headers Hh]; [lia |].
  destruct (region_only_adds_its_header (encode "{}") 1700000000 "id" "k"
              (Some "ap-guangzhou") headers Hh) as (plain & Hp & _ & Heq).
  exists headers, plain. split; [exact Hh |]. split; [exact Hp | exact Heq].
Defined.

(** X17. The switch the dispatcher hands to its watcher agrees with the
    credential check of the recognition call: over the same environment,
    [_asr_enabled] is false exactly when [sentence_recognize], given audio,
    would raise for missing credentials. *)
Theorem asr_enabled_matches_credential_check (rw : Rpc.world) (w : world) data
    voice_format eng_service_type project_id :
  Rpc.environ rw = environ w ->
  data <> [] ->
  (Rpc._asr_enabled rw = false
   <-> sentence_recognize w data voice_format eng_service_type project_id
       = ([], Raise (Exn RuntimeError
                       "Missing Tencent Cloud credentials: set TENCENT_SECRET_ID and TENCENT_SECRET_KEY"))).
Proof.
  intros Henv Hdata. unfold Rpc._asr_enabled, sentence_recognize. rewrite Henv.
  destruct data as [| b data]; [congruence |].
  destruct (str_empty (strip (getenv_default (environ w) "TENCENT_SECRET_ID" "")));
    destruct (str_empty (strip (getenv_default (environ w) "TENCENT_SECRET_KEY" "")));
    simpl negb; simpl andb; simpl orb; cbv iota; try (split; reflexivity).
  pose proof (time_in_range w) as Hclock.
  match goal with
  | |- context [_build_tc3_headers ?body ?ts ?sid ?skey ?region] =>
      destruct (build_tc3_headers_returns body ts sid skey region)
        as [headers ->]; [lia |]
  end.
  rewrite logger_undefined. split; discriminate.
Qed.

Lemma asr_enabled_matches_credential_check_witness :
  Rpc._asr_enabled Scenario.relay = false
  <-> sentence_recognize (Scenario.recognizer (Rpc.environ Scenario.relay))
        Scenario.audio "mp3" None None
      = ([], Raise (Exn RuntimeError
                      "Missing Tencent Cloud credentials: set TENCENT_SECRET_ID and TENCENT_SECRET_KEY")).
Proof.
  apply (asr_enabled_matches_credential_check Scenario.relay
           (Scenario.recognizer (Rpc.environ Scenario.relay))
           Scenario.audio "mp3" None None); [reflexivity | discriminate].
Defined.

End AsrWiring.

(* ===================================================================== *)
(** * The command line: segments, sending, the downloaded video *)
(* ===================================================================== *)

Section CliFacts.
Import Py Cli.

Context {part node : Type} (w : @world part node).

(** ** The downloaded video *)

Lemma largest_from_in best rest :
  largest_from best rest = best \/ In (largest_from best rest) rest.
Proof.
  revert best. induction rest as [| e rest IH]; intros best; [left; reflexivity |].
  simpl. destruct (IH (if (st_size best <? st_size e)%Z then e else best))
    as [H | H].
  - destruct (st_size best <? st_size e)%Z.
    + right. left. symmetry. exact H.
    + left. exact H.
  - right. right. exact H.
Qed.

Lemma largest_from_bound best rest :
  st_size best <= st_size (largest_from best rest)
  /\ forall e, In e rest -> st_size e <= st_size (largest_from best rest).
Proof.
  revert best. induction rest as [| e rest IH]; intros best.
  - simpl. split; [lia | intros e []].
  - simpl.
    destruct (IH (if (st_size best <? st_size e)%Z then e else best))
      as [Hbest Hrest].
    destruct (st_size best <? st_size e)%Z eqn:Hlt.
    + apply Z.ltb_lt in Hlt. split; [lia |].
      intros x [<- | Hx]; [exact Hbest | apply Hrest, Hx].
    + apply Z.ltb_ge in Hlt. split; [exact Hbest |].
      intros x [<- | Hx]; [lia | apply Hrest, Hx].
Qed.

Lemma pick_ok target_dir entries path :
  iterdir w target_dir = Rpc.Returns entries ->
  _pick_downloaded_file w target_dir = Ok path ->
  exists e, In e entries /\ entry_path e = path /\ is_video w e = true
            /\ forall e', In e' entries -> is_video w e' = true ->
                          st_size e' <= st_size e.
Proof.
  intros Hdir. unfold _pick_downloaded_file, _iter_video_files, call.
  rewrite Hdir.
  destruct (filter (fun e => is_video w e = true) entries) as [| first rest]
    eqn:Hfilter; [discriminate |].
  assert (Hmem : forall e, In e (first :: rest) ->
                           In e entries /\ is_video w e = true).
  { intros e He. apply list_elem_of_In in He. rewrite <- Hfilter in He.
    apply list_elem_of_filter in He as [Hv Hin].
    split; [apply list_elem_of_In, Hin | exact Hv]. }
  intros Hpath. inversion Hpath as [Hp]. clear Hpath.
  exists (largest_from first rest).
  assert (Hbest : In (largest_from first rest) (first :: rest)).
  { destruct (largest_from_in first rest) as [-> | H];
      [left; reflexivity | right; exact H]. }
  destruct (Hmem _ Hbest) as [Hin Hv].
  split; [exact Hin |]. split; [reflexivity |]. split; [exact Hv |].
  intros e' Hin' Hv'.
  assert (He' : In e' (first :: rest)).
  { apply list_elem_of_In. rewrite <- Hfilter.
    apply list_elem_of_filter. split; [exact Hv' | apply list_elem_of_In, Hin']. }
  destruct (largest_from_bound first rest) as [Hfirst Hrest].
  destruct He' as [<- | He']; [exact Hfirst | apply Hrest, He'].
Qed.

(** X18. Over a directory that can be listed, [_pick_downloaded_file]
    raises its [RuntimeError] exactly when no entry is a regular file with a
    video suffix; otherwise the path it returns is that of such an entry, and
    no such entry of the directory is larger. *)
Theorem pick_downloaded_file_largest target_dir entries :
  iterdir w target_dir = Rpc.Returns entries ->
  (Forall (fun e => is_video w e = false) entries
   <-> _pick_downloaded_file w target_dir
       = Raise (Exn RuntimeError
                  ("No video file downloaded into " +:+ target_dir)))
  /\ forall path,
      _pick_downloaded_file w target_dir = Ok path ->
      exists e, In e entries /\ entry_path e = path /\ is_video w e = true
                /\ forall e', In e' entries -> is_video w e' = true ->
                              st_size e' <= st_size e.
Proof.
  intros Hdir. split; [| intros path; apply pick_ok, Hdir].
  unfold _pick_downloaded_file, _iter_video_files, call.
  rewrite Hdir.
  destruct (filter (fun e => is_video w e = true) entries) as [| first rest]
    eqn:Hfilter.
  - split; [reflexivity |]. intros _. apply Forall_forall. intros e He.
    destruct (is_video w e) eqn:Hv; [| reflexivity].
    assert (Hin : e ∈ filter (fun e => is_video w e = true) entries)
      by (apply list_elem_of_filter; split; [exact Hv | exact He]).
    rewrite Hfilter in Hin. inversion Hin.
  - split; [| discriminate]. intros Hall. exfalso.
    assert (Hin : first ∈ filter (fun e => is_video w e = true) entries)
      by (rewrite Hfilter; left).
    apply list_elem_of_filter in Hin as [Hv Hin].
    rewrite Forall_forall in Hall. rewrite (Hall first Hin) in Hv.
    discriminate.
Qed.

(** ** What the builders can raise and print *)

Lemma call_raises_exception {A} (o : Rpc.outcome A) e :
  call o = Raise e -> is_Exception e = true.
Proof. destruct o; simpl; intros H; inversion H; reflexivity. Qed.

Lemma get_raises_exception v k e :
  get v k = Raise e -> is_Exception e = true.
Proof. destruct v; simpl; intros H; inversion H; reflexivity. Qed.

Lemma in_live_set_raises_exception v e :
  in_live_set v = Raise e -> is_Exception e = true.
Proof. destruct v; simpl; intros H; inversion H; reflexivity. Qed.

Lemma probe_raises_exception url opts e :
  _probe_is_live_api w url opts = Raise e -> is_Exception e = true.
Proof.
  unfold _probe_is_live_api.
  destruct (extract_info w opts url) as [info | msg]; [| discriminate].
  destruct (get info "live_status") as [live_status | e1] eqn:H1.
  - destruct (get info "is_live") as [is_live | e2] eqn:H2.
    + destruct (truthy is_live); [discriminate |].
      apply in_live_set_raises_exception.
    + intros H. inversion H. subst.
      exact (get_raises_exception _ _ _ H2).
  - intros H. inversion H. subst. exact (get_raises_exception _ _ _ H1).
Qed.

Lemma pick_raises_exception target_dir e :
  _pick_downloaded_file w target_dir = Raise e -> is_Exception e = true.
Proof.
  unfold _pick_downloaded_file, _iter_video_files.
  destruct (call (iterdir w target_dir)) as [entries | e1] eqn:Hc.
  - destruct (filter _ entries); intros H; inversion H; reflexivity.
  - intros H. inversion H. subst. exact (call_raises_exception _ _ Hc).
Qed.

Lemma download_raises_exception url e :
  _download_video_url w url = Raise e -> is_Exception e = true.
Proof.
  unfold _download_video_url.
  destruct (call (mkdtemp w)) as [target_dir | e1] eqn:Hdir.
  - cbv zeta.
    destruct (_probe_is_live_api w url _) as [is_live | e2] eqn:Hprobe.
    + destruct (download w _ url) as [code | msg]; [| discriminate].
      destruct (download_failed code); [discriminate |].
      destruct (_pick_downloaded_file w target_dir) as [video | e3] eqn:Hpick;
        [discriminate |].
      rewrite (pick_raises_exception _ _ Hpick). discriminate.
    + intros H. inversion H. subst. exact (probe_raises_exception _ _ _ Hprobe).
  - intros H. inversion H. subst. exact (call_raises_exception _ _ Hdir).
Qed.

Lemma construct_spec (ctor : string -> Rpc.outcome part) value :
  printed_only (construct ctor value).1
  /\ forall e, (construct ctor value).2 = Raise e -> is_Exception e = true.
Proof.
  unfold construct.
  destruct (call (ctor value)) as [built | e1] eqn:Hc; simpl.
  - split; [constructor | discriminate].
  - split; [constructor |]. intros e H. inversion H. subst.
    exact (call_raises_exception _ _ Hc).
Qed.

Lemma video_url_segment_spec url :
  printed_only (_video_url_segment w url).1
  /\ forall e, (_video_url_segment w url).2 = Raise e -> is_Exception e = true.
Proof.
  unfold _video_url_segment, bind.
  destruct (_download_video_url w url) as [[path |] | e1] eqn:Hd.
  - destruct (call (VideoMessage w path)) as [video | e2] eqn:Hc; simpl.
    + split; [repeat constructor | discriminate].
    + split; [repeat constructor |]. intros e H. inversion H. subst.
      exact (call_raises_exception _ _ Hc).
  - simpl. split; [repeat constructor | discriminate].
  - simpl. split; [repeat constructor |]. intros e H. inversion H. subst.
    exact (download_raises_exception _ _ Hd).
Qed.

Lemma builder_spec seg_type builder value :
  builders w seg_type = Some builder ->
  printed_only (builder value).1
  /\ forall e, (builder value).2 = Raise e -> is_Exception e = true.
Proof.
  unfold builders.
  repeat match goal with
         | |- context [String.eqb seg_type ?s] => destruct (String.eqb seg_type s)
         end;
    intros H; inversion H; subst;
    first [apply construct_spec | apply video_url_segment_spec].
Qed.

Lemma builders_known seg :
  builders w seg.1 = None <-> known seg = false.
Proof.
  unfold builders, known. simpl existsb.
  repeat match goal with
         | |- context [String.eqb seg.1 ?s] => destruct (String.eqb seg.1 s)
         end; simpl; split; intros H; first [discriminate | reflexivity].
Qed.

(** ** The loop over the segments *)

Lemma build_loop_acc todo : forall parts errors out,
  build_loop w todo parts errors out
  = match build_loop w todo [] [] [] with
    | (out', Ok (parts', errors')) =>
        (out ++ out', Ok (parts ++ parts', errors ++ errors'))
    | (out', Raise e) => (out ++ out', Raise e)
    end.
Proof.
  induction todo as [| [seg_type value] rest IH]; intros parts errors out.
  - simpl. rewrite !app_nil_r. reflexivity.
  - cbn [build_loop]. destruct (builders w seg_type) as [builder |];
      [| apply IH].
    destruct (builder value) as [printed [[built |] | exc]].
    + rewrite (IH (parts ++ [built])), (IH ([] ++ [built])).
      destruct (build_loop w rest [] [] []) as [out' [[parts' errors'] | e]];
        simpl; rewrite <- ?app_assoc; reflexivity.
    + rewrite (IH parts (errors ++ _)), (IH [] ([] ++ _)).
      destruct (build_loop w rest [] [] []) as [out' [[parts' errors'] | e]];
        simpl; rewrite <- ?app_assoc; reflexivity.
    + destruct (is_Exception exc).
      * rewrite (IH parts (errors ++ _)), (IH [] ([] ++ _)).
        destruct (build_loop w rest [] [] []) as [out' [[parts' errors'] | e]];
          simpl; rewrite <- ?app_assoc; reflexivity.
      * simpl. reflexivity.
Qed.

Lemma build_loop_app first second : forall parts errors out,
  build_loop w (first ++ second) parts errors out
  = match build_loop w first parts errors out with
    | (out', Ok (parts', errors')) => build_loop w second parts' errors' out'
    | (out', Raise e) => (out', Raise e)
    end.
Proof.
  induction first as [| [seg_type value] rest IH]; intros parts errors out;
    [reflexivity |].
  cbn [app build_loop]. destruct (builders w seg_type) as [builder |];
    [| apply IH].
  destruct (builder value) as [printed [[built |] | exc]]; try apply IH.
  destruct (is_Exception exc); [apply IH | reflexivity].
Qed.

Lemma build_loop_ok todo :
  exists out parts errors,
    build_loop w todo [] [] [] = (out, Ok (parts, errors))
    /\ (length parts + length errors)%nat = length (List.filter known todo)
    /\ printed_only out.
Proof.
  induction todo as [| [seg_type value] rest
                       (out & parts & errors & Hrest & Hlen & Hout)].
  - exists [], [], []. repeat split. constructor.
  - cbn [build_loop List.filter].
    destruct (builders w seg_type) as [builder |] eqn:Hb.
    + assert (Hk : known (seg_type, value) = true).
      { destruct (known (seg_type, value)) eqn:Hk; [reflexivity |].
        apply builders_known in Hk. simpl in Hk. congruence. }
      rewrite Hk. destruct (builder_spec _ _ value Hb) as [Hp Hex].
      destruct (builder value) as [printed [[built |] | exc]];
        simpl in Hp, Hex.
      * rewrite build_loop_acc, Hrest.
        exists (([] ++ printed) ++ out), (([] ++ [built]) ++ parts),
          ([] ++ errors).
        split; [reflexivity |]. split; [simpl; lia |].
        apply Forall_app. split; [exact Hp | exact Hout].
      * rewrite build_loop_acc, Hrest.
        exists (([] ++ printed) ++ out), ([] ++ parts),
          (([] ++ [BuildError seg_type value "no content built"]) ++ errors).
        split; [reflexivity |]. split; [simpl; lia |].
        apply Forall_app. split; [exact Hp | exact Hout].
      * rewrite (Hex exc eq_refl). rewrite build_loop_acc, Hrest.
        exists (([] ++ printed) ++ out), ([] ++ parts),
          (([] ++ [BuildError seg_type value (exn_str exc)]) ++ errors).
        split; [reflexivity |]. split; [simpl; lia |].
        apply Forall_app. split; [exact Hp | exact Hout].
    + assert (Hk : known (seg_type, value) = false)
        by (apply builders_known; exact Hb).
      rewrite Hk. exists out, parts, errors. auto.
Qed.

Lemma build_ok segs :
  exists out parts errors,
    _build_parts_and_errors w (Some segs) = (out, Ok (parts, errors, segs))
    /\ (length parts + length errors)%nat = length (List.filter known segs)
    /\ printed_only out.
Proof.
  destruct (build_loop_ok segs) as (out & parts & errors & H & Hlen & Hout).
  exists out, parts, errors. unfold _build_parts_and_errors. rewrite H. auto.
Qed.

Lemma filter_known_nil segs :
  List.filter known segs = [] <-> Forall (fun s => known s = false) segs.
Proof.
  induction segs as [| s rest IH]; simpl.
  - split; [constructor | reflexivity].
  - destruct (known s) eqn:Hk.
    + split; [discriminate |]. intros H. inversion H. congruence.
    + rewrite IH. split; [intros H; constructor; assumption |].
      intros H. inversion H. assumption.
Qed.

(** X19. Given a list of segments, [_build_parts_and_errors] does not
    raise, whatever the constructors and the download do (a collaborator
    raises subclasses of [Exception] only); it prints no response; it returns
    the list it was given; and the parts and the errors together are as many
    as the segments whose type has a builder, the others being skipped. *)
Theorem build_parts_and_errors_total segs :
  exists out parts errors,
    _build_parts_and_errors w (Some segs) = (out, Ok (parts, errors, segs))
    /\ (length parts + length errors)%nat = length (List.filter known segs)
    /\ printed_only out.
Proof. apply build_ok. Qed.

(** X20. Building a concatenation of two segment lists gives the output,
    the parts and the errors of the first list followed by those of the
    second: each segment is built on its own, in command-line order. *)
Theorem build_parts_and_errors_app first second out1 parts1 errors1 raw1
    out2 parts2 errors2 raw2 :
  _build_parts_and_errors w (Some first) = (out1, Ok (parts1, errors1, raw1)) ->
  _build_parts_and_errors w (Some second) = (out2, Ok (parts2, errors2, raw2)) ->
  _build_parts_and_errors w (Some (first ++ second))
  = (out1 ++ out2,
     Ok (parts1 ++ parts2, errors1 ++ errors2, raw1 ++ raw2)).
Proof.
  unfold _build_parts_and_errors. intros H1 H2.
  rewrite build_loop_app.
  destruct (build_loop w first [] [] []) as [o1 [[p1 e1] | x1]];
    [| discriminate].
  rewrite build_loop_acc.
  destruct (build_loop w second [] [] []) as [o2 [[p2 e2] | x2]];
    [| discriminate].
  inversion H1. inversion H2. subst. reflexivity.
Qed.

(** ** The senders *)

Lemma bind_ok {A B} out (a : A) (k : A -> IO B) :
  bind (out, Ok a) k = (out ++ (k a).1, (k a).2).
Proof. unfold bind. destruct (k a). reflexivity. Qed.

Lemma finish_cases sent :
  (exists response, sent = Ok response
                    /\ finish sent = ([Response response], Ok 0))
  \/ finish sent = ([], Ok 1)
  \/ exists e, finish sent = ([], Raise e).
Proof.
  destruct sent as [response | e]; simpl.
  - left. exists response. split; reflexivity.
  - right. destruct (is_Exception e); [left | right; exists e]; reflexivity.
Qed.

Ltac settle_finish :=
  match goal with
  | |- context [finish ?sent] =>
      destruct (finish_cases sent) as [(response & _ & ->) | [-> | (e & ->)]];
      [left; exists response; reflexivity
      | right; left; reflexivity
      | right; right; exists e; reflexivity]
  end.

Lemma send_private_after_build args out parts errors raw :
  _build_parts_and_errors w (segments args) = (out, Ok (parts, errors, raw)) ->
  (parts = [] /\ errors = [] /\ _run_send_private w args = (out ++ [], Ok 2))
  \/ ((parts <> [] \/ errors <> [])
      /\ ((exists response,
             _run_send_private w args = (out ++ [Response response], Ok 0))
          \/ _run_send_private w args = (out ++ [], Ok 1)
          \/ exists e, _run_send_private w args = (out ++ [], Raise e))).
Proof.
  intros Hbuild. unfold _run_send_private. rewrite Hbuild, bind_ok.
  destruct parts as [| p parts]; destruct errors as [| err errors];
    [left; repeat split; reflexivity
    | right; split; [right; discriminate |]
    | right; split; [left; discriminate |] ..];
    cbv beta iota;
    (destruct (call (NapcatRelayClient w (napcat_url args) (timeout args)))
       as [client | e]; [| right; right; exists e; reflexivity]);
    try (destruct (call (TextMessage w _)) as [notice | e]; cbn [then_];
         [| right; right; exists e; reflexivity]);
    settle_finish.
Qed.

Lemma send_group_after_build args out parts errors raw :
  _build_parts_and_errors w (segments args) = (out, Ok (parts, errors, raw)) ->
  (parts = [] /\ errors = [] /\ _run_send_group w args = (out ++ [], Ok 2))
  \/ ((parts <> [] \/ errors <> [])
      /\ ((exists response,
             _run_send_group w args = (out ++ [Response response], Ok 0))
          \/ _run_send_group w args = (out ++ [], Ok 1)
          \/ exists e, _run_send_group w args = (out ++ [], Raise e))).
Proof.
  intros Hbuild. unfold _run_send_group. rewrite Hbuild, bind_ok.
  destruct parts as [| p parts]; destruct errors as [| err errors];
    [left; repeat split; reflexivity
    | right; split; [right; discriminate |]
    | right; split; [left; discriminate |] ..];
    cbv beta iota zeta;
    (destruct (call (NapcatRelayClient w (napcat_url args) (timeout args)))
       as [client | e]; [| right; right; exists e; reflexivity]);
    settle_finish.
Qed.

(** X21. When the command line carried no segment option, so that the
    destination [segments] holds [None], both senders raise [TypeError] out
    of the loop of [_build_parts_and_errors] before anything is built or
    sent, where [_build_message_segments] guards with [or []] and returns
    the empty list. *)
Theorem main_without_segments_raises rw stdin args :
  segments args = None ->
  command args <> RpcCommand ->
  main w rw stdin args = ([], Raise not_iterable)
  /\ _run_send_private w args = ([], Raise not_iterable)
  /\ _run_send_group w args = ([], Raise not_iterable)
  /\ _build_message_segments w args = ([], Ok []).
Proof.
  intros Hnone Hcommand.
  assert (Hp : _run_send_private w args = ([], Raise not_iterable))
    by (unfold _run_send_private; rewrite Hnone; reflexivity).
  assert (Hg : _run_send_group w args = ([], Raise not_iterable))
    by (unfold _run_send_group; rewrite Hnone; reflexivity).
  repeat split; try assumption.
  - unfold main. destruct (command args); [exact Hp | exact Hg | congruence].
  - unfold _build_message_segments, segments_or_empty. rewrite Hnone.
    reflexivity.
Qed.

(** X22. The [rpc] subcommand never starts the server: [main] calls
    [run_rpc_server] with the keywords [default_url] and [default_timeout],
    which the function of rpc.py does not take, so the call raises
    [TypeError] whatever the arguments and the input are, and nothing is
    written. *)
Theorem main_rpc_raises_type_error rw stdin args :
  command args = RpcCommand ->
  main w rw stdin args
  = ([], Raise (Exn TypeError
                  "run_rpc_server() got an unexpected keyword argument 'default_url'")).
Proof. intros Hcommand. unfold main. rewrite Hcommand. reflexivity. Qed.

(** X23. With segment options given, a sender returns 2 exactly when none
    of the segments has a type with a builder; a segment that fails to build
    never leads to 2. *)
Theorem send_exit_code_two args segs :
  segments args = Some segs ->
  ((_run_send_private w args).2 = Ok 2
   <-> Forall (fun s => known s = false) segs)
  /\ ((_run_send_group w args).2 = Ok 2
      <-> Forall (fun s => known s = false) segs).
Proof.
  intros Hsegs.
  destruct (build_ok segs) as (out & parts & errors & Hbuild & Hlen & _).
  rewrite <- Hsegs in Hbuild. rewrite <- filter_known_nil.
  assert (Hnil : List.filter known segs = [] <-> parts = [] /\ errors = []).
  { split.
    - intros H. rewrite H in Hlen. simpl in Hlen.
      destruct parts, errors; simpl in Hlen; try lia. split; reflexivity.
    - intros [-> ->]. simpl in Hlen.
      destruct (List.filter known segs); [reflexivity | discriminate]. }
  rewrite Hnil. split.
  - destruct (send_private_after_build _ _ _ _ _ Hbuild)
      as [(Hp & He & Hrun) | (Hsome & [(r & Hrun) | [Hrun | (e & Hrun)]])];
      rewrite Hrun; simpl.
    + split; [split; assumption | reflexivity].
    + split; [discriminate | intros [Hp He]; destruct Hsome; contradiction].
    + split; [discriminate | intros [Hp He]; destruct Hsome; contradiction].
    + split; [discriminate | intros [Hp He]; destruct Hsome; contradiction].
  - destruct (send_group_after_build _ _ _ _ _ Hbuild)
      as [(Hp & He & Hrun) | (Hsome & [(r & Hrun) | [Hrun | (e & Hrun)]])];
      rewrite Hrun; simpl.
    + split; [split; assumption | reflexivity].
    + split; [discriminate | intros [Hp He]; destruct Hsome; contradiction].
    + split; [discriminate | intros [Hp He]; destruct Hsome; contradiction].
    + split; [discriminate | intros [Hp He]; destruct Hsome; contradiction].
Qed.

(** X24. A sender writes the relay's response to the output exactly when it
    returns 0, and then once, after everything it printed; in every other
    outcome (2, 1 or an exception) the output holds no response. *)
Theorem send_reports_response_iff_zero args :
  reports (_run_send_private w args) /\ reports (_run_send_group w args).
Proof.
  destruct (segments args) as [segs |] eqn:Hsegs.
  - destruct (build_ok segs) as (out & parts & errors & Hbuild & _ & Hout).
    rewrite <- Hsegs in Hbuild. split; exists out; (split; [exact Hout |]).
    + destruct (send_private_after_build _ _ _ _ _ Hbuild)
        as [(_ & _ & ->) | (_ & [(r & ->) | [-> | (e & ->)]])]; simpl;
        rewrite ?app_nil_r;
        first [left; split; [reflexivity | exists r; reflexivity]
              | right; split; [discriminate | reflexivity]].
    + destruct (send_group_after_build _ _ _ _ _ Hbuild)
        as [(_ & _ & ->) | (_ & [(r & ->) | [-> | (e & ->)]])]; simpl;
        rewrite ?app_nil_r;
        first [left; split; [reflexivity | exists r; reflexivity]
              | right; split; [discriminate | reflexivity]].
  - unfold _run_send_private, _run_send_group. rewrite Hsegs.
    split; exists []; (split; [constructor |]); right;
      (split; [discriminate | reflexivity]).
Qed.

(** X25. When a segment failed to build, both senders still send: the
    group sender sends a forward message whose nodes are the parts that were
    built followed by the error notice, whatever [--type] and [--forward]
    say, and the private sender sends those parts followed by the notice. *)
Theorem send_errors_reach_recipient args out parts err errs raw client notice :
  _build_parts_and_errors w (segments args)
  = (out, Ok (parts, err :: errs, raw)) ->
  NapcatRelayClient w (napcat_url args) (timeout args) = Rpc.Returns client ->
  TextMessage w (_compose_error_text (err :: errs) raw) = Rpc.Returns notice ->
  _run_send_group w args
  = bind (out, Ok tt)
      (fun _ =>
         finish
           (then_ (_build_forward_nodes w (parts ++ [notice]))
              (fun nodes =>
                 call (send_group_forward_message w client (group_id args)
                         nodes))))
  /\ _run_send_private w args
     = bind (out, Ok tt)
         (fun _ =>
            finish
              (then_ (_serialize_parts w (parts ++ [notice]))
                 (fun wires =>
                    call (send_private_message w client (user_id args)
                            wires)))).
Proof.
  intros Hbuild Hclient Hnotice. split.
  - unfold _run_send_group. rewrite Hbuild, !bind_ok.
    unfold _build_error_forward_content. rewrite Hclient, Hnotice.
    destruct parts; reflexivity.
  - unfold _run_send_private. rewrite Hbuild, !bind_ok.
    rewrite Hclient, Hnotice. destruct parts; reflexivity.
Qed.

(** X26. When a segment failed to build and the error notice cannot be
    built either, the group sender returns 1, the notice being built inside
    its [try], while the private sender, which builds the notice before its
    [try], lets the exception escape. *)
Theorem notice_failure_escapes_private_sender args out parts err errs raw
    client msg :
  _build_parts_and_errors w (segments args)
  = (out, Ok (parts, err :: errs, raw)) ->
  NapcatRelayClient w (napcat_url args) (timeout args) = Rpc.Returns client ->
  TextMessage w (_compose_error_text (err :: errs) raw) = Rpc.Fails msg ->
  _run_send_group w args = (out, Ok 1)
  /\ _run_send_private w args = (out, Raise (Exn ExternalError msg)).
Proof.
  intros Hbuild Hclient Hnotice. split.
  - unfold _run_send_group. rewrite Hbuild, !bind_ok.
    unfold _build_error_forward_content. rewrite Hclient, Hnotice.
    destruct parts; simpl; rewrite app_nil_r; reflexivity.
  - unfold _run_send_private. rewrite Hbuild, !bind_ok.
    rewrite Hclient, Hnotice.
    destruct parts; simpl; rewrite app_nil_r; reflexivity.
Qed.

(** X27. [_build_error_forward_content] is the parts followed by the
    notice: the list is never empty after the [append], so the alternative
    after [or], with its second notice, is never taken. *)
Theorem error_forward_content_appends_notice parts errors raw :
  _build_error_forward_content w parts errors raw
  = then_ (call (TextMessage w (_compose_error_text errors raw)))
      (fun notice => Ok (parts ++ [notice])).
Proof.
  unfold _build_error_forward_content.
  destruct (call (TextMessage w (_compose_error_text errors raw)))
    as [notice | e]; [| reflexivity].
  simpl. destruct parts; reflexivity.
Qed.

(** X28. [_build_message_segments] is all or nothing: it never raises, and
    when it returns parts at all, no segment failed to build and there is one
    part for every segment whose type has a builder. *)
Theorem message_segments_all_or_nothing args :
  exists out parts,
    _build_message_segments w args = (out, Ok parts)
    /\ (parts <> [] ->
        _build_parts_and_errors w (Some (segments_or_empty args))
        = (out, Ok (parts, [], segments_or_empty args))
        /\ length parts = length (List.filter known (segments_or_empty args))).
Proof.
  destruct (build_ok (segments_or_empty args))
    as (out & parts & errors & Hbuild & Hlen & _).
  unfold _build_message_segments. rewrite Hbuild, bind_ok.
  destruct errors as [| err errors]; simpl; rewrite app_nil_r.
  - exists out, parts. split; [reflexivity |]. intros _.
    split; [reflexivity |]. simpl in Hlen. lia.
  - exists out, []. split; [reflexivity |]. intros H. congruence.
Qed.

(** X29. A path returned by [_download_video_url] is always that of a
    regular file with a video suffix in the temporary directory made for this
    download, and the download itself returned 0 or [None]. *)
Theorem download_returns_video_of_fresh_directory url path :
  _download_video_url w url = Ok (Some path) ->
  exists target_dir entries e is_live code,
    mkdtemp w = Rpc.Returns target_dir
    /\ download w
         (JDict (download_opts
                   (target_dir +:+ "/" +:+ (token_hex w +:+ ".%(ext)s"))
                   is_live)) url
       = Rpc.Returns code
    /\ download_failed code = false
    /\ iterdir w target_dir = Rpc.Returns entries
    /\ In e entries /\ entry_path e = path /\ is_video w e = true.
Proof.
  unfold _download_video_url.
  destruct (mkdtemp w) as [target_dir | msg] eqn:Hdir; [| discriminate].
  cbn [call]. cbv zeta.
  destruct (_probe_is_live_api w url _) as [is_live | e1]; [| discriminate].
  destruct (download w _ url) as [code | msg] eqn:Hdl; [| discriminate].
  destruct (download_failed code) eqn:Hcode; [discriminate |].
  destruct (_pick_downloaded_file w target_dir) as [video | e2] eqn:Hpick.
  - intros H. inversion H. subst.
    destruct (iterdir w target_dir) as [entries | msg] eqn:Hls.
    + destruct (pick_ok _ _ _ Hls Hpick) as (e & Hin & Hpath & Hv & _).
      exists target_dir, entries, e, is_live, code. auto 10.
    + unfold _pick_downloaded_file, _iter_video_files in Hpick.
      rewrite Hls in Hpick. discriminate.
  - destruct (is_Exception e2); discriminate.
Qed.

End CliFacts.

Section CliOptions.
Import Py Cli.

Lemma parse_segments_from given : forall options,
  fold_left (fun dest '(segment_type, values) =>
               _segment_action segment_type dest values)
    options (Some given)
  = Some (given ++ options).
Proof.
  intros options. revert given.
  induction options as [| [segment_type values] rest IH]; intros given.
  - simpl. rewrite app_nil_r. reflexivity.
  - simpl. unfold _segment_action at 2. simpl. rewrite IH, <- app_assoc.
    reflexivity.
Qed.

(** X30. The segment options of a command line leave in [segments] the
    pairs of type and value in the order they were given; without any
    segment option the destination stays [None], never the empty list. *)
Theorem parse_segments_keeps_order options :
  parse_segments options
  = match options with
    | [] => None
    | _ :: _ => Some options
    end.
Proof.
  destruct options as [| [segment_type values] rest]; [reflexivity |].
  unfold parse_segments. simpl. unfold _segment_action at 2. simpl.
  apply parse_segments_from.
Qed.

End CliOptions.

(** ** The command line on concrete segments *)

Section CliCases.
Import Py Cli.

Lemma pick_downloaded_file_largest_witness :
  _pick_downloaded_file Cases.shell "/tmp/nap-msg-video-1"
  = Ok "/tmp/nap-msg-video-1/b.webm"
  /\ exists e, In e Cases.downloaded
               /\ entry_path e = "/tmp/nap-msg-video-1/b.webm"
               /\ st_size e = 300.
Proof.
  assert (Hpick : _pick_downloaded_file Cases.shell "/tmp/nap-msg-video-1"
                  = Ok "/tmp/nap-msg-video-1/b.webm") by reflexivity.
  split; [exact Hpick |].
  destruct (pick_downloaded_file_largest Cases.shell "/tmp/nap-msg-video-1"
              Cases.downloaded eq_refl) as [_ Hmax].
  destruct (Hmax _ Hpick) as (e & Hin & Hpath & _ & _).
  exists e. split; [exact Hin |]. split; [exact Hpath |].
  destruct Hin as [<- | [<- | [<- | [<- | []]]]]; simpl in Hpath;
    try discriminate; reflexivity.
Defined.

Lemma build_parts_and_errors_app_witness :
  _build_parts_and_errors Cases.shell
    (Some ([("text", "hello"); ("sticker", "wave")] ++ [("image", "missing.png")]))
  = ([] ++ [],
     Ok ([("text", "hello")] ++ [],
         [] ++ [BuildError "image" "missing.png" "missing.png: no such file"],
         [("text", "hello"); ("sticker", "wave")] ++ [("image", "missing.png")])).
Proof.
  apply (build_parts_and_errors_app Cases.shell); reflexivity.
Defined.

Lemma main_without_segments_raises_witness :
  main Cases.shell Scenario.relay [] (Cases.send_args None)
  = ([], Raise not_iterable)
  /\ _run_send_private Cases.shell (Cases.send_args None)
     = ([], Raise not_iterable)
  /\ _run_send_group Cases.shell (Cases.send_args None)
     = ([], Raise not_iterable)
  /\ _build_message_segments Cases.shell (Cases.send_args None) = ([], Ok []).
Proof.
  apply (main_without_segments_raises Cases.shell Scenario.relay []
           (Cases.send_args None)); [reflexivity | discriminate].
Defined.

Lemma main_rpc_raises_type_error_witness :
  main Cases.shell Scenario.relay ["{}"] Cases.rpc_args
  = ([], Raise (Exn TypeError
                  "run_rpc_server() got an unexpected keyword argument 'default_url'")).
Proof.
  apply (main_rpc_raises_type_error Cases.shell Scenario.relay ["{}"]
           Cases.rpc_args).
  reflexivity.
Defined.

Lemma send_exit_code_two_witness :
  (_run_send_private Cases.shell
     (Cases.send_args (Some [("sticker", "wave")]))).2 = Ok 2
  /\ (_run_send_group Cases.shell
        (Cases.send_args (Some [("sticker", "wave")]))).2 = Ok 2.
Proof.
  destruct (send_exit_code_two Cases.shell
              (Cases.send_args (Some [("sticker", "wave")]))
              [("sticker", "wave")] eq_refl) as [Hp Hg].
  split; [apply Hp | apply Hg]; repeat constructor.
Defined.

Lemma send_errors_reach_recipient_witness :
  _run_send_group Cases.shell
    (Cases.send_args (Some Cases.text_and_missing_image))
  = ([Response Cases.acknowledged], Ok 0)
  /\ _run_send_private Cases.shell
       (Cases.send_args (Some Cases.text_and_missing_image))
     = ([Response Cases.acknowledged], Ok 0).
Proof.
  destruct (send_errors_reach_recipient Cases.shell
              (Cases.send_args (Some Cases.text_and_missing_image))
              [] [("text", "hello")]
              (BuildError "image" "missing.png" "missing.png: no such file") []
              Cases.text_and_missing_image
              (Rpc.Client (JStr "ws://127.0.0.1:3001") JNull)
              ("text",
               _compose_error_text
                 [BuildError "image" "missing.png" "missing.png: no such file"]
                 Cases.text_and_missing_image)
              eq_refl eq_refl eq_refl) as [Hg Hp].
  split; [rewrite Hg | rewrite Hp]; reflexivity.
Defined.

Lemma notice_failure_escapes_private_sender_witness :
  _run_send_group Cases.mute (Cases.send_args (Some [("text", "hello")]))
  = ([], Ok 1)
  /\ _run_send_private Cases.mute (Cases.send_args (Some [("text", "hello")]))
     = ([], Raise (Exn ExternalError "text refused")).
Proof.
  apply (notice_failure_escapes_private_sender Cases.mute
           (Cases.send_args (Some [("text", "hello")]))
           [] [] (BuildError "text" "hello" "text refused") []
           [("text", "hello")]
           (Rpc.Client (JStr "ws://127.0.0.1:3001") JNull)
           "text refused");
    reflexivity.
Defined.

Lemma download_returns_video_of_fresh_directory_witness :
  exists target_dir entries e is_live code,
    mkdtemp Cases.shell = Rpc.Returns target_dir
    /\ download Cases.shell
         (JDict (download_opts
                   (target_dir +:+ "/" +:+ (token_hex Cases.shell +:+ ".%(ext)s"))
                   is_live)) "https://example.org/clip"
       = Rpc.Returns code
    /\ download_failed code = false
    /\ iterdir Cases.shell target_dir = Rpc.Returns entries
    /\ In e entries /\ entry_path e = "/tmp/nap-msg-video-1/b.webm"
    /\ is_video Cases.shell e = true.
Proof.
  apply (download_returns_video_of_fresh_directory Cases.shell
           "https://example.org/clip" "/tmp/nap-msg-video-1/b.webm").
  reflexivity.
Defined.

End CliCases.
